(** * Stacking of 1D spectral observations (gammapy/spectrum/observation.py)

    A shallow embedding of [SpectrumObservation], [SpectrumObservationList]
    and [SpectrumObservationStacker].  numpy arrays are lists, Python
    exceptions are the [Raise] results of an error monad, and the numbers
    in the arrays are the values of a [Scalar] arithmetic: numpy computes in
    IEEE binary64, which is the instance [float_scalar] built on Rocq's
    primitive floats; the instance [Qc_scalar] is the same code run in exact
    rational arithmetic.

    Physical units ([Quantity]) are not modelled: energies, livetimes and
    areas are taken to be expressed in one unit each (TeV, s, cm2), so that
    [.to('s')] and [.to('cm2')] are the identity. *)

From Stdlib Require Import ZArith Floats QArith Qcanon Permutation.
From stdpp Require Import base list gmap strings.

Set Warnings "-inexact-float,-register-all".

(** ** Python exceptions *)

Inductive exn : Type :=
| IndexError | AttributeError | ValueError | TypeError | OverflowError
| IOError | KeyError.

Inductive result (A : Type) : Type :=
| Ok (a : A)
| Raise (e : exn).
Arguments Ok {A} a.
Arguments Raise {A} e.

#[global] Instance result_ret : MRet result := fun _ a => Ok a.
#[global] Instance result_bind : MBind result := fun _ _ f r =>
  match r with
  | Ok a => f a
  | Raise e => Raise e
  end.

Definition is_ok {A} (r : result A) : Prop :=
  match r with Ok _ => True | Raise _ => False end.

(** [for x in l: acc = body(acc, x)], stopping at the first exception. *)
Fixpoint for_each {A B} (body : A -> B -> result A) (l : list B) (acc : A)
  : result A :=
  match l with
  | [] => Ok acc
  | x :: l' => acc' ← body acc x; for_each body l' acc'
  end.

(** [l[i]] for a Python sequence, negative indices counting from the end. *)
Definition py_index {A} (l : list A) (i : Z) : result A :=
  let n := Z.of_nat (length l) in
  let j := if decide (i < 0)%Z then (n + i)%Z else i in
  if decide (0 ≤ j)%Z then
    match l !! Z.to_nat j with
    | Some x => Ok x
    | None => Raise IndexError
    end
  else Raise IndexError.

(** [x.attr] where [x] may be [None]. *)
Definition attr {A} (x : option A) : result A :=
  match x with
  | Some a => Ok a
  | None => Raise AttributeError
  end.

(** ** Scalar arithmetic of the arrays *)

Class Scalar (A : Type) : Type := {
  fzero : A;
  fneg_one : A;
  fadd : A -> A -> A;
  fmul : A -> A -> A;
  fdiv : A -> A -> A;
  feqb : A -> A -> bool;            (* [x == y] *)
  fleb : A -> A -> bool;            (* [x <= y] *)
  fisnan : A -> bool;               (* [np.isnan] *)
  fnan_to_num : A -> A;             (* [np.nan_to_num] *)
  fint : A -> result Z              (* [int(x)] *)
}.

(** Largest finite binary64 value, what [np.nan_to_num] puts for infinities. *)
Definition float_max : float := 0x1.fffffffffffffp+1023%float.

Definition float_nan_to_num (x : float) : float :=
  if PrimFloat.is_nan x then 0%float
  else if PrimFloat.eqb x infinity then float_max
  else if PrimFloat.eqb x neg_infinity then (- float_max)%float
  else x.

(** [int(x)]: truncation toward zero; infinities and NaN raise. *)
Definition float_int (x : float) : result Z :=
  match Prim2SF x with
  | S754_zero _ => Ok 0%Z
  | S754_finite s m e =>
      let mag := match e with
                 | Zneg p => Z.shiftr (Zpos m) (Zpos p)
                 | _ => Z.shiftl (Zpos m) e
                 end in
      Ok (if s then (- mag)%Z else mag)
  | S754_infinity _ => Raise OverflowError
  | S754_nan => Raise ValueError
  end.

#[global] Instance float_scalar : Scalar float := {|
  fzero := 0%float;
  fneg_one := (-1)%float;
  fadd := PrimFloat.add;
  fmul := PrimFloat.mul;
  fdiv := PrimFloat.div;
  feqb := PrimFloat.eqb;
  fleb := PrimFloat.leb;
  fisnan := PrimFloat.is_nan;
  fnan_to_num := float_nan_to_num;
  fint := float_int
|}.

(** Exact rationals: no NaN, no infinity, no rounding.  Division by zero
    yields zero here; the stacker never relies on its value. *)
Definition Qc_leb (x y : Qc) : bool := Qle_bool x y.

Definition Qc_int (x : Qc) : result Z :=
  Ok (Z.quot (Qnum x) (Zpos (Qden x))).

#[global] Instance Qc_scalar : Scalar Qc := {|
  fzero := 0%Qc;
  fneg_one := (- 1)%Qc;
  fadd := Qcplus;
  fmul := Qcmult;
  fdiv := Qcdiv;
  feqb := fun x y => Qeq_bool x y;
  fleb := Qc_leb;
  fisnan := fun _ => false;
  fnan_to_num := fun x => x;
  fint := Qc_int
|}.

(** ** numpy operations on 1-d arrays, with broadcasting *)

Section Numpy.
Context {A : Type} `{Scalar A}.

(** [np.zeros(n)] *)
Definition np_zeros (n : Z) : result (list A) :=
  if decide (n < 0)%Z then Raise ValueError
  else Ok (replicate (Z.to_nat n) fzero).

(** The value of [acc] after [acc = 0; for x in l: acc += x], which is how
    the stacker and [SpectrumStats.stack] add up per observation. *)
Definition loop_sum (l : list A) : A := foldl fadd fzero l.

(** [np.sum] of a contiguous 1-d array of floats is [0 + pairwise_sum(a, n)]
    of numpy's [loops_utils.h]. The eight accumulators [r[0..7]] and
    [r[j] += a[i + j]] for every further full group of eight values; the
    values after the last full group are returned with the accumulators. *)
Fixpoint add_groups (r : A * A * A * A * A * A * A * A) (a : list A)
  {struct a} : A * A * A * A * A * A * A * A * list A :=
  match a with
  | x0 :: x1 :: x2 :: x3 :: x4 :: x5 :: x6 :: x7 :: a' =>
      let '(r0, r1, r2, r3, r4, r5, r6, r7) := r in
      add_groups (fadd r0 x0, fadd r1 x1, fadd r2 x2, fadd r3 x3,
                  fadd r4 x4, fadd r5 x5, fadd r6 x6, fadd r7 x7) a'
  | _ => (r, a)
  end.

(** [res = ((r[0] + r[1]) + (r[2] + r[3])) + ((r[4] + r[5]) + (r[6] + r[7]))] *)
Definition sum_accumulators (r : A * A * A * A * A * A * A * A) : A :=
  let '(r0, r1, r2, r3, r4, r5, r6, r7) := r in
  fadd (fadd (fadd r0 r1) (fadd r2 r3)) (fadd (fadd r4 r5) (fadd r6 r7)).

(** [pairwise_sum] on at most 128 values: fewer than eight are added to
    [res = 0.] one after the other; from eight on the accumulators start as
    [a[0..7]], take the full groups of eight, are summed as a tree, and the
    values left over are added to that one after the other. *)
Definition pairwise_block (a : list A) : A :=
  match a with
  | x0 :: x1 :: x2 :: x3 :: x4 :: x5 :: x6 :: x7 :: a' =>
      let '(r, rest) := add_groups (x0, x1, x2, x3, x4, x5, x6, x7) a' in
      foldl fadd (sum_accumulators r) rest
  | _ => foldl fadd fzero a
  end.

(** [pairwise_sum(a, n)]: above 128 values the array is split at
    [n2 = n / 2; n2 -= n2 % 8] and the sums of the halves are added. Each
    half is shorter, so [fuel = n] is enough ([pairwise_sum_fuel]). *)
Fixpoint pairwise_sum (fuel : nat) (a : list A) : A :=
  match fuel with
  | S fuel' =>
      if decide (128 < length a)%nat then
        let n2 := (length a / 2)%nat in
        let n2 := (n2 - n2 mod 8)%nat in
        fadd (pairwise_sum fuel' (take n2 a)) (pairwise_sum fuel' (drop n2 a))
      else pairwise_block a
  | O => pairwise_block a
  end.

(** [np.sum(l)] *)
Definition np_sum (l : list A) : A :=
  fadd fzero (pairwise_sum (length l) l).
End Numpy.

(** [x op y] for 1-d arrays: equal lengths, or one operand of length 1. *)
Definition broadcast {A B C} (f : A -> B -> C) (x : list A) (y : list B)
  : result (list C) :=
  if decide (length x = length y) then Ok (zip_with f x y)
  else match x, y with
       | [a], _ => Ok (map (f a) y)
       | _, [b] => Ok (map (fun a => f a b) x)
       | _, _ => Raise ValueError
       end.

(** [acc op= y]: the result keeps the shape of [acc]. *)
Definition inplace {A B} (f : A -> B -> A) (acc : list A) (y : list B)
  : result (list A) :=
  if decide (length y = length acc) then Ok (zip_with f acc y)
  else match y with
       | [b] => Ok (map (fun a => f a b) acc)
       | _ => Raise ValueError
       end.

(** ** Data model *)

Inductive PyId : Type :=
| IdNone
| IdInt (n : Z)
| IdList (l : list PyId).

Inductive Backscal (A : Type) : Type :=
| BackscalScalar (b : A)
| BackscalArray (bs : list A).
Arguments BackscalScalar {A} b.
Arguments BackscalArray {A} bs.

(** [energy] holds the bin edges, one more than there are bins. *)
Record PHACountsSpectrum (A : Type) : Type := {
  data : list A;
  energy : list A;
  quality : list bool;
  obs_id : PyId;
  livetime : option A;
  backscal : option (Backscal A);
  pha_lo_threshold : option A;
  pha_hi_threshold : option A
}.
Arguments data {A} _.
Arguments energy {A} _.
Arguments quality {A} _.
Arguments obs_id {A} _.
Arguments livetime {A} _.
Arguments backscal {A} _.
Arguments pha_lo_threshold {A} _.
Arguments pha_hi_threshold {A} _.

Record EffectiveAreaTable (A : Type) : Type := {
  aeff_energy : list A;
  aeff_data : list A
}.
Arguments aeff_energy {A} _.
Arguments aeff_data {A} _.

(** [edisp_data] is the pdf matrix, indexed [true bin][reco bin]. *)
Record EnergyDispersion (A : Type) : Type := {
  edisp_e_true : list A;
  edisp_e_reco : list A;
  edisp_data : list (list A)
}.
Arguments edisp_e_true {A} _.
Arguments edisp_e_reco {A} _.
Arguments edisp_data {A} _.

Record SpectrumObservation (A : Type) : Type := {
  on_vector : PHACountsSpectrum A;
  aeff : EffectiveAreaTable A;
  off_vector : option (PHACountsSpectrum A);
  edisp : option (EnergyDispersion A)
}.
Arguments on_vector {A} _.
Arguments aeff {A} _.
Arguments off_vector {A} _.
Arguments edisp {A} _.

(** [EnergyBounds.nbins] *)
Definition nbins {A} (edges : list A) : Z := (Z.of_nat (length edges) - 1)%Z.

(** ** PHACountsSpectrum: the safe range *)

Section SafeRange.
Context {A : Type} `{Scalar A}.

(** Modelled from the spec: [PHACountsSpectrum.bins_in_safe_range] lives in
    gammapy/spectrum/core.py.  A bin is inside the thresholds when
    its edges lie within [lo_threshold, hi_threshold] (an absent threshold
    does not restrict), and it is safe when moreover its quality flag is
    not set. *)
Definition in_thresholds (lo hi : option A) (edges : list A) (k : nat)
  : bool :=
  match edges !! k, edges !! S k with
  | Some e_lo, Some e_hi =>
      match lo with Some t => fleb t e_lo | None => true end
      && match hi with Some t => fleb e_hi t | None => true end
  | _, _ => false
  end.

Definition flagged (q : list bool) (k : nat) : bool :=
  match q !! k with
  | Some b => b
  | None => false
  end.

Definition bin_safe (spec : PHACountsSpectrum A) (k : nat) : bool :=
  in_thresholds (pha_lo_threshold spec) (pha_hi_threshold spec)
                (energy spec) k
  && negb (flagged (quality spec) k).

(** Modelled from the spec: [PHACountsSpectrum.counts_in_safe_range]
    (core.py), the raw counts inside the safe range and zero elsewhere,
    as a fresh array. *)
Definition counts_in_safe_range (spec : PHACountsSpectrum A) : list A :=
  imap (fun k x => if bin_safe spec k then x else fzero) (data spec).

(** Modelled from the spec: [PHACountsSpectrum._backscal_array] (core.py),
    the backscal as a per-bin array whether it is stored as a scalar or
    as an array. *)
Definition backscal_array (spec : PHACountsSpectrum A) : result (list A) :=
  match backscal spec with
  | None => Raise AttributeError
  | Some (BackscalScalar b) =>
      Ok (replicate (Z.to_nat (nbins (energy spec))) b)
  | Some (BackscalArray bs) => Ok bs
  end.
End SafeRange.

(** ** SpectrumObservation properties *)

Section Observation.
Context {A : Type} `{Scalar A}.

Definition obs_obs_id (o : SpectrumObservation A) : PyId :=
  obs_id (on_vector o).

(** [o.livetime.to('s').value] *)
Definition obs_livetime (o : SpectrumObservation A) : result A :=
  attr (livetime (on_vector o)).

Definition e_reco (o : SpectrumObservation A) : list A :=
  energy (on_vector o).

Definition e_true (o : SpectrumObservation A) : list A :=
  aeff_energy (aeff o).

Definition obs_nbins (o : SpectrumObservation A) : Z :=
  nbins (energy (on_vector o)).

Definition lo_threshold (o : SpectrumObservation A) : option A :=
  pha_lo_threshold (on_vector o).

Definition hi_threshold (o : SpectrumObservation A) : option A :=
  pha_hi_threshold (on_vector o).
End Observation.

(** ** SpectrumObservationList *)

Section ObservationList.
Context {A : Type} `{Scalar A}.

Definition list_obs_id (l : list (SpectrumObservation A)) : PyId :=
  IdList (map obs_obs_id l).

Definition total_livetime (l : list (SpectrumObservation A)) : result A :=
  livetimes ← mapM obs_livetime l;
  Ok (np_sum livetimes).
End ObservationList.

(** ** numpy operations used by the stacker *)

Section NumpyStacker.
Context {A : Type} `{Scalar A}.

(** [np.where(d == 0)[0]] *)
Fixpoint where_zero_from (k : nat) (d : list A) : list nat :=
  match d with
  | [] => []
  | x :: d' =>
      if feqb x fzero then k :: where_zero_from (S k) d'
      else where_zero_from (S k) d'
  end.

Definition np_where_zero (d : list A) : list nat := where_zero_from 0 d.

(** [arr[idx] = v] for an index array [idx] *)
Definition assign_at (idx : list nat) (v : A) (arr : list A)
  : result (list A) :=
  for_each (fun arr k =>
              if decide (k < length arr) then Ok (<[k:=v]> arr)
              else Raise IndexError)
           idx arr.

(** [np.zeros(shape=(r, c))], a list of [r] rows *)
Definition np_zeros2 (r c : Z) : result (list (list A)) :=
  row ← np_zeros c;
  if decide (r < 0)%Z then Raise ValueError
  else Ok (replicate (Z.to_nat r) row).

Definition ncols (m : list (list A)) : nat :=
  match m with
  | [] => 0
  | row :: _ => length row
  end.

(** [m.transpose()] of a rectangular 2-d array *)
Definition transpose (m : list (list A)) : list (list A) :=
  map (fun j => omap (fun row => row !! j) m) (seq 0 (ncols m)).

(** [m op v]: the 1-d array [v] is broadcast along the rows of [m] *)
Definition broadcast_rows (f : A -> A -> A) (m : list (list A))
           (v : list A) : result (list (list A)) :=
  mapM (fun row => broadcast f row v) m.

(** [acc op= m] for 2-d arrays *)
Definition inplace2 (f : A -> A -> A) (acc m : list (list A))
  : result (list (list A)) :=
  if decide (length m = length acc) then
    mapM (fun p => inplace f p.1 p.2) (zip acc m)
  else match m with
       | [row] => mapM (fun a => inplace f a row) acc
       | _ => Raise ValueError
       end.
End NumpyStacker.

(** ** Response objects *)

Section Response.
Context {A : Type} `{Scalar A}.

(** Modelled from the spec: [EffectiveAreaTable.evaluate(fill_nan=True)]
    lives in gammapy/irf; it gives the effective area per true-energy bin
    with NaN entries replaced by zero. *)
Definition evaluate_fill_nan (a : EffectiveAreaTable A) : list A :=
  map (fun x => if fisnan x then fzero else x) (aeff_data a).

(** Modelled from the spec: [EnergyDispersion.pdf_in_safe_range] lives in
    gammapy/irf; it gives the pdf matrix with the reco bins outside
    [lo_threshold, hi_threshold] set to zero. *)
Definition pdf_in_safe_range (e : EnergyDispersion A) (lo hi : option A)
  : list (list A) :=
  map (imap (fun k x =>
               if in_thresholds lo hi (edisp_e_reco e) k then x else fzero))
      (edisp_data e).
End Response.

(** ** SpectrumObservationStacker *)

Record SpectrumObservationStacker (A : Type) : Type := {
  obs_list : list (SpectrumObservation A);
  stacked_on_vector : option (PHACountsSpectrum A);
  stacked_off_vector : option (PHACountsSpectrum A);
  stacked_aeff : option (EffectiveAreaTable A);
  stacked_edisp : option (EnergyDispersion A);
  stacked_bkscal_on : option (list A);
  stacked_bkscal_off : option (list A);
  stacked_obs : option (SpectrumObservation A)
}.
Arguments obs_list {A} _.
Arguments stacked_on_vector {A} _.
Arguments stacked_off_vector {A} _.
Arguments stacked_aeff {A} _.
Arguments stacked_edisp {A} _.
Arguments stacked_bkscal_on {A} _.
Arguments stacked_bkscal_off {A} _.
Arguments stacked_obs {A} _.

Section Stacker.
Context {A : Type} `{Scalar A}.

Local Abbreviation Stacker := (SpectrumObservationStacker A).

(** [__init__] *)
Definition init (l : list (SpectrumObservation A)) : Stacker :=
  {| obs_list := l;
     stacked_on_vector := None; stacked_off_vector := None;
     stacked_aeff := None; stacked_edisp := None;
     stacked_bkscal_on := None; stacked_bkscal_off := None;
     stacked_obs := None |}.

Definition set_stacked_on_vector (v : option (PHACountsSpectrum A))
           (s : Stacker) : Stacker :=
  {| obs_list := obs_list s;
     stacked_on_vector := v;
     stacked_off_vector := stacked_off_vector s;
     stacked_aeff := stacked_aeff s; stacked_edisp := stacked_edisp s;
     stacked_bkscal_on := stacked_bkscal_on s;
     stacked_bkscal_off := stacked_bkscal_off s;
     stacked_obs := stacked_obs s |}.

Definition set_stacked_off_vector (v : option (PHACountsSpectrum A))
           (s : Stacker) : Stacker :=
  {| obs_list := obs_list s;
     stacked_on_vector := stacked_on_vector s;
     stacked_off_vector := v;
     stacked_aeff := stacked_aeff s; stacked_edisp := stacked_edisp s;
     stacked_bkscal_on := stacked_bkscal_on s;
     stacked_bkscal_off := stacked_bkscal_off s;
     stacked_obs := stacked_obs s |}.

Definition set_stacked_aeff (v : option (EffectiveAreaTable A))
           (s : Stacker) : Stacker :=
  {| obs_list := obs_list s;
     stacked_on_vector := stacked_on_vector s;
     stacked_off_vector := stacked_off_vector s;
     stacked_aeff := v; stacked_edisp := stacked_edisp s;
     stacked_bkscal_on := stacked_bkscal_on s;
     stacked_bkscal_off := stacked_bkscal_off s;
     stacked_obs := stacked_obs s |}.

Definition set_stacked_edisp (v : option (EnergyDispersion A))
           (s : Stacker) : Stacker :=
  {| obs_list := obs_list s;
     stacked_on_vector := stacked_on_vector s;
     stacked_off_vector := stacked_off_vector s;
     stacked_aeff := stacked_aeff s; stacked_edisp := v;
     stacked_bkscal_on := stacked_bkscal_on s;
     stacked_bkscal_off := stacked_bkscal_off s;
     stacked_obs := stacked_obs s |}.

Definition set_stacked_bkscal (on off : option (list A)) (s : Stacker)
  : Stacker :=
  {| obs_list := obs_list s;
     stacked_on_vector := stacked_on_vector s;
     stacked_off_vector := stacked_off_vector s;
     stacked_aeff := stacked_aeff s; stacked_edisp := stacked_edisp s;
     stacked_bkscal_on := on;
     stacked_bkscal_off := off;
     stacked_obs := stacked_obs s |}.

Definition set_stacked_obs (v : option (SpectrumObservation A))
           (s : Stacker) : Stacker :=
  {| obs_list := obs_list s;
     stacked_on_vector := stacked_on_vector s;
     stacked_off_vector := stacked_off_vector s;
     stacked_aeff := stacked_aeff s; stacked_edisp := stacked_edisp s;
     stacked_bkscal_on := stacked_bkscal_on s;
     stacked_bkscal_off := stacked_bkscal_off s;
     stacked_obs := v |}.

(** One turn of the loop of [stack_counts_spectrum]. *)
Definition stack_counts_step (acc : list A * list bool)
           (spec : option (PHACountsSpectrum A))
  : result (list A * list bool) :=
  spec ← attr spec;
  stacked_data ← inplace fadd acc.1 (counts_in_safe_range spec);
  stacked_quality ← broadcast orb acc.2 (quality spec);
  Ok (stacked_data, stacked_quality).

(** The elements are [None] where an observation has no off vector. *)
Definition stack_counts_spectrum
           (counts_spectrum_list : list (option (PHACountsSpectrum A)))
  : result (PHACountsSpectrum A) :=
  first ← py_index counts_spectrum_list 0;
  template ← attr first;
  let energy := energy template in
  stacked_data ← np_zeros (nbins energy);
  let stacked_quality := replicate (length stacked_data) false in
  acc ← for_each stack_counts_step counts_spectrum_list
                 (stacked_data, stacked_quality);
  Ok {| data := acc.1; energy := energy; quality := acc.2;
        obs_id := IdNone; livetime := None; backscal := None;
        pha_lo_threshold := None; pha_hi_threshold := None |}.

Definition stack_on_vector (s : Stacker) : result Stacker :=
  let on_vector_list := map (fun o => Some (on_vector o)) (obs_list s) in
  v ← stack_counts_spectrum on_vector_list;
  Ok (set_stacked_on_vector (Some v) s).

Definition stack_off_vector (s : Stacker) : result Stacker :=
  let off_vector_list := map off_vector (obs_list s) in
  v ← stack_counts_spectrum off_vector_list;
  Ok (set_stacked_off_vector (Some v) s).

(** One turn of the loop of [stack_backscal]. *)
Definition stack_backscal_step (acc : list A * list A)
           (o : SpectrumObservation A) : result (list A * list A) :=
  bkscal_on_data ← backscal_array (on_vector o);
  off ← attr (off_vector o);
  w_on ← broadcast fmul bkscal_on_data (counts_in_safe_range off);
  bkscal_on ← inplace fadd acc.1 w_on;
  bkscal_off_data ← backscal_array off;
  w_off ← broadcast fmul bkscal_off_data (counts_in_safe_range off);
  bkscal_off ← inplace fadd acc.2 w_off;
  Ok (bkscal_on, bkscal_off).

Definition alpha_correction : A := fneg_one.

Definition stack_backscal (s : Stacker) : result Stacker :=
  o0 ← py_index (obs_list s) 0;
  zeros ← np_zeros (nbins (e_reco o0));
  acc ← for_each stack_backscal_step (obs_list s) (zeros, zeros);
  stacked_off ← attr (stacked_off_vector s);
  bkscal_on ← broadcast fdiv acc.1 (data stacked_off);
  bkscal_off ← broadcast fdiv acc.2 (data stacked_off);
  let idx := np_where_zero (data stacked_off) in
  bkscal_on ← assign_at idx alpha_correction bkscal_on;
  bkscal_off ← assign_at idx alpha_correction bkscal_off;
  Ok (set_stacked_bkscal (Some bkscal_on) (Some bkscal_off) s).

Definition with_attrs (v : PHACountsSpectrum A) (t : A)
           (b : option (list A)) (i : PyId) : PHACountsSpectrum A :=
  {| data := data v; energy := energy v; quality := quality v;
     obs_id := i; livetime := Some t;
     backscal := BackscalArray <$> b;
     pha_lo_threshold := pha_lo_threshold v;
     pha_hi_threshold := pha_hi_threshold v |}.

Definition setup_counts_vectors (s : Stacker) : result Stacker :=
  total_livetime ← total_livetime (obs_list s);
  on ← attr (stacked_on_vector s);
  off ← attr (stacked_off_vector s);
  let ids := list_obs_id (obs_list s) in
  let on' := with_attrs on total_livetime (stacked_bkscal_on s) ids in
  let off' := with_attrs off total_livetime (stacked_bkscal_off s) ids in
  Ok (set_stacked_off_vector (Some off')
        (set_stacked_on_vector (Some on') s)).

Definition stack_counts_vectors (s : Stacker) : result Stacker :=
  s ← stack_on_vector s;
  s ← stack_off_vector s;
  s ← stack_backscal s;
  setup_counts_vectors s.
(** [aeff_data * o.livetime]: multiplying by [None] is a TypeError. *)
Definition aefft_current (o : SpectrumObservation A) : result (list A) :=
  let aeff_data := evaluate_fill_nan (aeff o) in
  match livetime (on_vector o) with
  | Some t => Ok (map (fun a => fmul a t) aeff_data)
  | None => Raise TypeError
  end.

Definition stack_aeff_step (aefft : list A) (o : SpectrumObservation A)
  : result (list A) :=
  cur ← aefft_current o;
  inplace fadd aefft cur.

Definition stack_aeff (s : Stacker) : result Stacker :=
  o0 ← py_index (obs_list s) 0;
  aefft ← np_zeros (nbins (e_true o0));
  aefft ← for_each stack_aeff_step (obs_list s) aefft;
  total ← total_livetime (obs_list s);
  let stacked_data := map (fun x => fdiv x total) aefft in
  o0 ← py_index (obs_list s) 0;
  Ok (set_stacked_aeff
        (Some {| aeff_energy := e_true o0; aeff_data := stacked_data |}) s).

(** One turn of the loop of [stack_edisp]; the accumulators are [aefft]
    and [aefftedisp], the latter indexed [reco bin][true bin]. *)
Definition stack_edisp_step (acc : list A * list (list A))
           (o : SpectrumObservation A) : result (list A * list (list A)) :=
  cur ← aefft_current o;
  aefft ← inplace fadd acc.1 cur;
  e ← attr (edisp o);
  let edisp_data := pdf_in_safe_range e (lo_threshold o) (hi_threshold o) in
  w ← broadcast_rows fmul (transpose edisp_data) cur;
  aefftedisp ← inplace2 fadd acc.2 w;
  Ok (aefft, aefftedisp).

Definition stack_edisp (s : Stacker) : result Stacker :=
  o0 ← py_index (obs_list s) 0;
  let reco_bins := nbins (e_reco o0) in
  o0 ← py_index (obs_list s) 0;
  let true_bins := nbins (e_true o0) in
  aefft ← np_zeros true_bins;
  aefftedisp ← np_zeros2 reco_bins true_bins;
  acc ← for_each stack_edisp_step (obs_list s) (aefft, aefftedisp);
  q ← broadcast_rows fdiv acc.2 acc.1;
  let stacked_edisp := map (map fnan_to_num) q in
  o0 ← py_index (obs_list s) 0;
  Ok (set_stacked_edisp
        (Some {| edisp_e_true := e_true o0; edisp_e_reco := e_reco o0;
                 edisp_data := transpose stacked_edisp |}) s).

(** The constructor of [SpectrumObservation] takes whatever it is given;
    here an on vector and an effective area are required, which [run]
    always has at this point. *)
Definition stack_obs (s : Stacker) : result Stacker :=
  on ← attr (stacked_on_vector s);
  a ← attr (stacked_aeff s);
  Ok (set_stacked_obs
        (Some {| on_vector := on; aeff := a;
                 off_vector := stacked_off_vector s;
                 edisp := stacked_edisp s |}) s).

(** Run all steps in the correct order. *)
Definition run (s : Stacker) : result Stacker :=
  s ← stack_counts_vectors s;
  s ← stack_aeff s;
  s ← stack_edisp s;
  stack_obs s.

(** [SpectrumObservationList.stack] *)
Definition stack (l : list (SpectrumObservation A))
  : result (option (SpectrumObservation A)) :=
  s ← run (init l);
  Ok (stacked_obs s).
End Stacker.

(** * Statistics over a range of bins *)

Record SpectrumStats (A : Type) : Type := {
  energy_min : option A;
  energy_max : option A;
  n_on : Z;
  n_off : Z;
  a_on : A;
  a_off : A;
  stats_obs_id : PyId;
  stats_livetime : option A
}.

Arguments energy_min {A} _.

Arguments energy_max {A} _.

Arguments n_on {A} _.

Arguments n_off {A} _.

Arguments a_on {A} _.

Arguments a_off {A} _.

Arguments stats_obs_id {A} _.

Arguments stats_livetime {A} _.

(** [np.arange(a, b)]: the integers from [a] up to [b - 1]. *)
Definition arange (a b : Z) : list Z :=
  (fun i => (a + Z.of_nat i)%Z) <$> seq 0 (Z.to_nat (b - a)).

Definition sum_Z (l : list Z) : Z := foldl Z.add 0%Z l.

Section Stats.

Context {A : Type} `{Scalar A}.
(** How [SpectrumStats.stack] combines the backscal values of the bins is
    fixed neither by this file nor by the spec; it is a parameter. *)
Variable stack_alpha : list (SpectrumStats A) -> A * A.
(** Modelled from the spec: [SpectrumStats.stack] is inherited from
    [gammapy.data.ObservationStats]; it sums [n_on], [n_off] and the
    livetime of its inputs, and builds a fresh stats object, whose energy
    range is not set. *)
Definition stats_stack (l : list (SpectrumStats A))
  : result (SpectrumStats A) :=
  livetimes ← mapM (fun s => match stats_livetime s with
                             | Some t => Ok t
                             | None => Raise TypeError
                             end) l;
  Ok {| energy_min := None; energy_max := None;
        n_on := sum_Z (n_on <$> l);
        n_off := sum_Z (n_off <$> l);
        a_on := (stack_alpha l).1;
        a_off := (stack_alpha l).2;
        stats_obs_id := IdList (stats_obs_id <$> l);
        stats_livetime := Some (loop_sum livetimes) |}.

(** [int(counts[idx])] *)
Definition int_at (d : list A) (idx : Z) : result Z :=
  x ← py_index d idx; fint x.

(** Compute stats for one energy bin. *)
Definition stats (o : SpectrumObservation A) (idx : Z)
  : result (SpectrumStats A) :=
  e_min ← py_index (e_reco o) idx;
  e_max ← py_index (e_reco o) (idx + 1);
  n_on ← int_at (data (on_vector o)) idx;
  off ← attr (off_vector o);
  n_off ← int_at (data off) idx;
  bs_on ← backscal_array (on_vector o);
  a_on ← py_index bs_on idx;
  bs_off ← backscal_array off;
  a_off ← py_index bs_off idx;
  Ok {| energy_min := Some e_min; energy_max := Some e_max;
        n_on := n_on; n_off := n_off; a_on := a_on; a_off := a_off;
        stats_obs_id := obs_obs_id o;
        stats_livetime := livetime (on_vector o) |}.

(** Compute stats for a range of energy bins. *)
Definition stats_in_range (o : SpectrumObservation A) (bin_min bin_max : Z)
  : result (SpectrumStats A) :=
  let idx := arange bin_min bin_max in
  stats_list ← mapM (stats o) idx;
  stacked_stats ← stats_stack stats_list;
  e_min ← py_index (e_reco o) bin_min;
  e_max ← py_index (e_reco o) (bin_max + 1);
  Ok {| energy_min := Some e_min; energy_max := Some e_max;
        n_on := n_on stacked_stats; n_off := n_off stacked_stats;
        a_on := a_on stacked_stats; a_off := a_off stacked_stats;
        stats_obs_id := obs_obs_id o;
        stats_livetime := livetime (on_vector o) |}.

Definition total_stats (o : SpectrumObservation A)
  : result (SpectrumStats A) :=
  stats_in_range o 0 (obs_nbins o - 1).

(** The counts of the bins [a .. b - 1], as integers, summed. *)
Definition counts_between (d : list A) (a b : Z) : result Z :=
  ns ← mapM (int_at d) (arange a b); Ok (sum_Z ns).

End Stats.

(** * Reading an observation from OGIP files *)

(** A PHA file: the counts spectrum and, in its header, the names of the
    companion RMF, ARF and background files. *)
Record PHAFile (A : Type) : Type := {
  pha_spectrum : PHACountsSpectrum A;
  rmffile : string;
  arffile : string;
  bkgfile : string
}.

Arguments pha_spectrum {A} _.

Arguments rmffile {A} _.

Arguments arffile {A} _.

Arguments bkgfile {A} _.

Inductive File (A : Type) : Type :=
| FilePHA (f : PHAFile A)
| FileRMF (e : EnergyDispersion A)
| FileARF (a : EffectiveAreaTable A).

Arguments FilePHA {A} f.

Arguments FileRMF {A} e.

Arguments FileARF {A} a.

(** [dirname / name] *)
Definition path_join (dirname name : string) : string :=
  (dirname +:+ "/" +:+ name)%string.

Section Read.

Context {A : Type}.
(** The files on disk, by path. *)
Variable fs : gmap string (File A).
(** Modelled from the spec: the readers [PHACountsSpectrum.read],
    [EnergyDispersion.read] and [EffectiveAreaTable.read] live in
    gammapy/spectrum/core.py and gammapy/irf; a missing file is an
    [IOError], a file of another kind fails with a different exception. *)
Definition read_pha (path : string) : result (PHAFile A) :=
  match fs !! path with
  | None => Raise IOError
  | Some (FilePHA f) => Ok f
  | Some _ => Raise KeyError
  end.

Definition read_rmf (path : string) : result (EnergyDispersion A) :=
  match fs !! path with
  | None => Raise IOError
  | Some (FileRMF e) => Ok e
  | Some _ => Raise KeyError
  end.

Definition read_arf (path : string) : result (EffectiveAreaTable A) :=
  match fs !! path with
  | None => Raise IOError
  | Some (FileARF a) => Ok a
  | Some _ => Raise KeyError
  end.

(** [try: x = r  except IOError: x = None] *)
Definition except_IOError {B} (r : result B) : result (option B) :=
  match r with
  | Ok b => Ok (Some b)
  | Raise IOError => Ok None
  | Raise e => Raise e
  end.

(** [SpectrumObservation.read], for the file [name] in [dirname]. *)
Definition read (dirname name : string) : result (SpectrumObservation A) :=
  on ← read_pha (path_join dirname name);
  energy_dispersion ← except_IOError (read_rmf (path_join dirname (rmffile on)));
  off ← except_IOError (read_pha (path_join dirname (bkgfile on)));
  effective_area ← read_arf (path_join dirname (arffile on));
  Ok {| on_vector := pha_spectrum on;
        aeff := effective_area;
        off_vector := pha_spectrum <$> off;
        edisp := energy_dispersion |}.

End Read.

(** * The stacker on a heap of Python objects *)

(** The arrays and the objects of the observations live in a store; the
    stacker reads them through references, allocates its own arrays and
    objects, and writes in place into those ([+=], [arr[idx] = v] and
    attribute assignment).  The fields of the stacker object itself are
    threaded as a record of references. *)

Definition loc : Type := positive.

Record pha_obj (A : Type) : Type := {
  o_data : loc;
  o_energy : loc;
  o_quality : loc;
  o_obs_id : PyId;
  o_livetime : option A;
  o_backscal : option (A + loc);
  o_lo_threshold : option A;
  o_hi_threshold : option A
}.

Arguments o_data {A} _.

Arguments o_energy {A} _.

Arguments o_quality {A} _.

Arguments o_obs_id {A} _.

Arguments o_livetime {A} _.

Arguments o_backscal {A} _.

Arguments o_lo_threshold {A} _.

Arguments o_hi_threshold {A} _.

Inductive obj (A : Type) : Type :=
| ONdarray (d : list A)
| OBools (q : list bool)
| OMatrix (m : list (list A))
| OPHA (p : pha_obj A)
| OAeff (energy data : loc)
| OEdisp (e_true e_reco data : loc)
| OObs (on aeff : loc) (off edisp : option loc).

Arguments ONdarray {A} d.

Arguments OBools {A} q.

Arguments OMatrix {A} m.

Arguments OPHA {A} p.

Arguments OAeff {A} energy data.

Arguments OEdisp {A} e_true e_reco data.

Arguments OObs {A} on aeff off edisp.

(** The fields of the stacker object. *)
Record stacker_refs : Type := {
  r_obs_list : list loc;
  r_stacked_on_vector : option loc;
  r_stacked_off_vector : option loc;
  r_stacked_aeff : option loc;
  r_stacked_edisp : option loc;
  r_stacked_bkscal_on : option loc;
  r_stacked_bkscal_off : option loc;
  r_stacked_obs : option loc
}.

Module Heap.

Section Heap.

Context {A : Type} `{Scalar A}.
(** Computations on the store (a finite map from references to objects)
    that may raise; the store survives an exception. *)
Definition M (X : Type) : Type :=
  gmap loc (obj A) -> result X * gmap loc (obj A).

Definition ret {X} (x : X) : M X := fun h => (Ok x, h).

Definition bind {X Y} (c : M X) (f : X -> M Y) : M Y :=
  fun h => match c h with
           | (Ok x, h') => f x h'
           | (Raise e, h') => (Raise e, h')
           end.

Definition lift {X} (r : result X) : M X := fun h => (r, h).

Definition alloc (o : obj A) : M loc :=
  fun h => let l := fresh (dom h) in (Ok l, <[l := o]> h).

Definition load (l : loc) : M (obj A) :=
  fun h => match h !! l with
           | Some o => (Ok o, h)
           | None => (Raise AttributeError, h)
           end.

Definition store (l : loc) (o : obj A) : M unit :=
  fun h => (Ok tt, <[l := o]> h).

End Heap.
End Heap.

Declare Scope heap_scope.

Delimit Scope heap_scope with heap.

Notation "x <- c ;; k" := (Heap.bind c (fun x => k))
  (at level 100, c at next level, right associativity) : heap_scope.

Notation "c ;;; k" := (Heap.bind c (fun _ => k))
  (at level 100, right associativity) : heap_scope.

Module OnHeap.

Import Heap.
Section OnHeap.

Context {A : Type} `{Scalar A}.
Open Scope heap_scope.
Definition for_each {X Y} (body : X -> Y -> M (A:=A) X)
  : list Y -> X -> M (A:=A) X :=
  fix go l acc :=
    match l with
    | [] => ret acc
    | x :: l' => acc' <- body acc x;; go l' acc'
    end.

Definition load_array (l : loc) : M (list A) :=
  o <- load l;;
  match o with
  | ONdarray d => ret d
  | _ => lift (Raise TypeError)
  end.

Definition load_bools (l : loc) : M (A:=A) (list bool) :=
  o <- load l;;
  match o with
  | OBools q => ret q
  | _ => lift (Raise TypeError)
  end.

Definition load_matrix (l : loc) : M (list (list A)) :=
  o <- load l;;
  match o with
  | OMatrix m => ret m
  | _ => lift (Raise TypeError)
  end.

Definition load_pha (l : loc) : M (pha_obj A) :=
  o <- load l;;
  match o with
  | OPHA p => ret p
  | _ => lift (Raise AttributeError)
  end.

Definition load_obs (l : loc) : M (A:=A) (loc * loc * option loc * option loc) :=
  o <- load l;;
  match o with
  | OObs on a off e => ret (on, a, off, e)
  | _ => lift (Raise AttributeError)
  end.

Definition load_aeff (l : loc) : M (A:=A) (loc * loc) :=
  o <- load l;;
  match o with
  | OAeff e d => ret (e, d)
  | _ => lift (Raise AttributeError)
  end.

Definition load_edisp (l : loc) : M (A:=A) (loc * loc * loc) :=
  o <- load l;;
  match o with
  | OEdisp t r d => ret (t, r, d)
  | _ => lift (Raise AttributeError)
  end.

(** The contents of a spectrum object and of its arrays. *)
Definition read_pha (l : loc) : M (PHACountsSpectrum A) :=
  p <- load_pha l;;
  d <- load_array (o_data p);;
  e <- load_array (o_energy p);;
  q <- load_bools (o_quality p);;
  b <- match o_backscal p with
       | None => ret None
       | Some (inl x) => ret (Some (BackscalScalar x))
       | Some (inr r) => bs <- load_array r;; ret (Some (BackscalArray bs))
       end;;
  ret {| data := d; energy := e; quality := q;
         obs_id := o_obs_id p; livetime := o_livetime p; backscal := b;
         pha_lo_threshold := o_lo_threshold p;
         pha_hi_threshold := o_hi_threshold p |}.

Definition read_aeff (l : loc) : M (EffectiveAreaTable A) :=
  a <- load_aeff l;;
  e <- load_array a.1;;
  d <- load_array a.2;;
  ret {| aeff_energy := e; aeff_data := d |}.

Definition read_edisp (l : loc) : M (EnergyDispersion A) :=
  a <- load_edisp l;;
  t <- load_array a.1.1;;
  r <- load_array a.1.2;;
  d <- load_matrix a.2;;
  ret {| edisp_e_true := t; edisp_e_reco := r; edisp_data := d |}.

(** A new spectrum object with arrays of its own. *)
Definition new_pha (v : PHACountsSpectrum A) : M (A:=A) loc :=
  d <- alloc (ONdarray (data v));;
  e <- alloc (ONdarray (energy v));;
  q <- alloc (OBools (quality v));;
  b <- match backscal v with
       | None => ret None
       | Some (BackscalScalar x) => ret (Some (inl x))
       | Some (BackscalArray bs) =>
           r <- alloc (ONdarray bs);; ret (Some (inr r))
       end;;
  alloc (OPHA {| o_data := d; o_energy := e; o_quality := q;
                 o_obs_id := obs_id v; o_livetime := livetime v;
                 o_backscal := b;
                 o_lo_threshold := pha_lo_threshold v;
                 o_hi_threshold := pha_hi_threshold v |}).

(** [spec.copy()], a deep copy *)
Definition copy_pha (l : loc) : M (A:=A) loc :=
  v <- read_pha l;; new_pha v.

(** [spec.counts_in_safe_range], a fresh array *)
Definition counts_in_safe_range (l : loc) : M (A:=A) loc :=
  v <- read_pha l;; alloc (ONdarray (counts_in_safe_range v)).

(** [spec._backscal_array.copy()], a fresh array *)
Definition backscal_array_copy (l : loc) : M (A:=A) loc :=
  v <- read_pha l;;
  bs <- lift (backscal_array v);;
  alloc (ONdarray bs).

(** [target += source] *)
Definition iadd (target source : loc) : M (A:=A) unit :=
  a <- load_array target;;
  b <- load_array source;;
  r <- lift (inplace fadd a b);;
  store target (ONdarray r).

(** [target += source] for 2-d arrays *)
Definition iadd2 (target source : loc) : M (A:=A) unit :=
  a <- load_matrix target;;
  b <- load_matrix source;;
  r <- lift (inplace2 fadd a b);;
  store target (OMatrix r).

(** [x op y], a fresh array *)
Definition binop (f : A -> A -> A) (x y : loc) : M (A:=A) loc :=
  a <- load_array x;;
  b <- load_array y;;
  r <- lift (broadcast f a b);;
  alloc (ONdarray r).

(** [np.logical_or(x, y)], a fresh array *)
Definition logical_or (x y : loc) : M (A:=A) loc :=
  a <- load_bools x;;
  b <- load_bools y;;
  r <- lift (broadcast orb a b);;
  alloc (OBools r).

(** [target[np.where(d == 0)[0]] = v] *)
Definition assign_where_zero (target d : loc) (v : A) : M (A:=A) unit :=
  a <- load_array target;;
  z <- load_array d;;
  r <- lift (assign_at (np_where_zero z) v a);;
  store target (ONdarray r).

Definition stack_counts_spectrum (counts_spectrum_list : list (option loc))
  : M (A:=A) loc :=
  first <- lift (py_index counts_spectrum_list 0);;
  first <- lift (attr first);;
  template <- copy_pha first;;
  t <- load_pha template;;
  let energy := o_energy t in
  edges <- load_array energy;;
  zeros <- lift (np_zeros (nbins edges));;
  stacked_data <- alloc (ONdarray zeros);;
  stacked_quality <- alloc (OBools (replicate (length zeros) false));;
  stacked_quality <-
    for_each (fun stacked_quality spec =>
                spec <- lift (attr spec);;
                c <- counts_in_safe_range spec;;
                iadd stacked_data c;;;
                p <- load_pha spec;;
                logical_or stacked_quality (o_quality p))
             counts_spectrum_list stacked_quality;;
  alloc (OPHA {| o_data := stacked_data; o_energy := energy;
                 o_quality := stacked_quality;
                 o_obs_id := IdNone; o_livetime := None;
                 o_backscal := None;
                 o_lo_threshold := None; o_hi_threshold := None |}).

Definition set_on (v : option loc) (s : stacker_refs) : stacker_refs :=
  {| r_obs_list := r_obs_list s;
     r_stacked_on_vector := v;
     r_stacked_off_vector := r_stacked_off_vector s;
     r_stacked_aeff := r_stacked_aeff s;
     r_stacked_edisp := r_stacked_edisp s;
     r_stacked_bkscal_on := r_stacked_bkscal_on s;
     r_stacked_bkscal_off := r_stacked_bkscal_off s;
     r_stacked_obs := r_stacked_obs s |}.

Definition set_off (v : option loc) (s : stacker_refs) : stacker_refs :=
  {| r_obs_list := r_obs_list s;
     r_stacked_on_vector := r_stacked_on_vector s;
     r_stacked_off_vector := v;
     r_stacked_aeff := r_stacked_aeff s;
     r_stacked_edisp := r_stacked_edisp s;
     r_stacked_bkscal_on := r_stacked_bkscal_on s;
     r_stacked_bkscal_off := r_stacked_bkscal_off s;
     r_stacked_obs := r_stacked_obs s |}.

Definition set_aeff (v : option loc) (s : stacker_refs) : stacker_refs :=
  {| r_obs_list := r_obs_list s;
     r_stacked_on_vector := r_stacked_on_vector s;
     r_stacked_off_vector := r_stacked_off_vector s;
     r_stacked_aeff := v;
     r_stacked_edisp := r_stacked_edisp s;
     r_stacked_bkscal_on := r_stacked_bkscal_on s;
     r_stacked_bkscal_off := r_stacked_bkscal_off s;
     r_stacked_obs := r_stacked_obs s |}.

Definition set_edisp (v : option loc) (s : stacker_refs) : stacker_refs :=
  {| r_obs_list := r_obs_list s;
     r_stacked_on_vector := r_stacked_on_vector s;
     r_stacked_off_vector := r_stacked_off_vector s;
     r_stacked_aeff := r_stacked_aeff s;
     r_stacked_edisp := v;
     r_stacked_bkscal_on := r_stacked_bkscal_on s;
     r_stacked_bkscal_off := r_stacked_bkscal_off s;
     r_stacked_obs := r_stacked_obs s |}.

Definition set_bkscal (on off : option loc) (s : stacker_refs)
  : stacker_refs :=
  {| r_obs_list := r_obs_list s;
     r_stacked_on_vector := r_stacked_on_vector s;
     r_stacked_off_vector := r_stacked_off_vector s;
     r_stacked_aeff := r_stacked_aeff s;
     r_stacked_edisp := r_stacked_edisp s;
     r_stacked_bkscal_on := on;
     r_stacked_bkscal_off := off;
     r_stacked_obs := r_stacked_obs s |}.

Definition set_obs (v : option loc) (s : stacker_refs) : stacker_refs :=
  {| r_obs_list := r_obs_list s;
     r_stacked_on_vector := r_stacked_on_vector s;
     r_stacked_off_vector := r_stacked_off_vector s;
     r_stacked_aeff := r_stacked_aeff s;
     r_stacked_edisp := r_stacked_edisp s;
     r_stacked_bkscal_on := r_stacked_bkscal_on s;
     r_stacked_bkscal_off := r_stacked_bkscal_off s;
     r_stacked_obs := v |}.

Definition init (obs_list : list loc) : stacker_refs :=
  {| r_obs_list := obs_list;
     r_stacked_on_vector := None; r_stacked_off_vector := None;
     r_stacked_aeff := None; r_stacked_edisp := None;
     r_stacked_bkscal_on := None; r_stacked_bkscal_off := None;
     r_stacked_obs := None |}.

(** [[f(o) for o in obs_list]] *)
Definition map_obs {X} (f : loc * loc * option loc * option loc -> X)
           (l : list loc) : M (A:=A) (list X) :=
  for_each (fun acc o => v <- load_obs o;; ret (acc ++ [f v])) l [].

Definition stack_on_vector (s : stacker_refs) : M (A:=A) stacker_refs :=
  on_vector_list <- map_obs (fun v => Some v.1.1.1) (r_obs_list s);;
  v <- stack_counts_spectrum on_vector_list;;
  ret (set_on (Some v) s).

Definition stack_off_vector (s : stacker_refs) : M (A:=A) stacker_refs :=
  off_vector_list <- map_obs (fun v => v.1.2) (r_obs_list s);;
  v <- stack_counts_spectrum off_vector_list;;
  ret (set_off (Some v) s).

(** [o.on_vector.energy.nbins], [o.e_reco.nbins] *)
Definition reco_edges (o : loc) : M (list A) :=
  v <- load_obs o;;
  p <- load_pha v.1.1.1;;
  load_array (o_energy p).

(** [o.e_true], the edges of the effective area *)
Definition true_edges (o : loc) : M (list A) :=
  v <- load_obs o;;
  a <- load_aeff v.1.1.2;;
  load_array a.1.

Definition stack_backscal_step (bkscal_on bkscal_off : loc) (o : loc)
  : M (A:=A) unit :=
  v <- load_obs o;;
  bkscal_on_data <- backscal_array_copy v.1.1.1;;
  off <- lift (attr v.1.2);;
  c <- counts_in_safe_range off;;
  w <- binop fmul bkscal_on_data c;;
  iadd bkscal_on w;;;
  bkscal_off_data <- backscal_array_copy off;;
  c <- counts_in_safe_range off;;
  w <- binop fmul bkscal_off_data c;;
  iadd bkscal_off w.

Definition stack_backscal (s : stacker_refs) : M (A:=A) stacker_refs :=
  o0 <- lift (py_index (r_obs_list s) 0);;
  edges <- reco_edges o0;;
  zeros <- lift (np_zeros (nbins edges));;
  bkscal_on <- alloc (ONdarray zeros);;
  bkscal_off <- alloc (ONdarray zeros);;
  for_each (fun _ o => stack_backscal_step bkscal_on bkscal_off o)
           (r_obs_list s) tt;;;
  stacked_off <- lift (attr (r_stacked_off_vector s));;
  p <- load_pha stacked_off;;
  stacked_bkscal_on <- binop fdiv bkscal_on (o_data p);;
  stacked_bkscal_off <- binop fdiv bkscal_off (o_data p);;
  assign_where_zero stacked_bkscal_on (o_data p) alpha_correction;;;
  assign_where_zero stacked_bkscal_off (o_data p) alpha_correction;;;
  ret (set_bkscal (Some stacked_bkscal_on) (Some stacked_bkscal_off) s).

(** [obs_list.total_livetime] *)
Definition total_livetime (l : list loc) : M A :=
  livetimes <-
    for_each (fun acc o =>
                v <- load_obs o;;
                p <- load_pha v.1.1.1;;
                t <- lift (attr (o_livetime p));;
                ret (acc ++ [t])) l [];;
  ret (np_sum livetimes).

(** [obs_list.obs_id] *)
Definition list_obs_id (l : list loc) : M (A:=A) PyId :=
  ids <-
    for_each (fun acc o =>
                v <- load_obs o;;
                p <- load_pha v.1.1.1;;
                ret (acc ++ [o_obs_id p])) l [];;
  ret (IdList ids).

(** [spec.attr = value] *)
Definition set_attr (l : loc) (f : pha_obj A -> pha_obj A) : M (A:=A) unit :=
  p <- load_pha l;;
  store l (OPHA (f p)).

Definition with_livetime (t : A) (p : pha_obj A) : pha_obj A :=
  {| o_data := o_data p; o_energy := o_energy p; o_quality := o_quality p;
     o_obs_id := o_obs_id p; o_livetime := Some t;
     o_backscal := o_backscal p;
     o_lo_threshold := o_lo_threshold p;
     o_hi_threshold := o_hi_threshold p |}.

Definition with_backscal (b : option loc) (p : pha_obj A) : pha_obj A :=
  {| o_data := o_data p; o_energy := o_energy p; o_quality := o_quality p;
     o_obs_id := o_obs_id p; o_livetime := o_livetime p;
     o_backscal := inr <$> b;
     o_lo_threshold := o_lo_threshold p;
     o_hi_threshold := o_hi_threshold p |}.

Definition with_obs_id (i : PyId) (p : pha_obj A) : pha_obj A :=
  {| o_data := o_data p; o_energy := o_energy p; o_quality := o_quality p;
     o_obs_id := i; o_livetime := o_livetime p;
     o_backscal := o_backscal p;
     o_lo_threshold := o_lo_threshold p;
     o_hi_threshold := o_hi_threshold p |}.

Definition setup_counts_vectors (s : stacker_refs)
  : M (A:=A) stacker_refs :=
  total <- total_livetime (r_obs_list s);;
  on <- lift (attr (r_stacked_on_vector s));;
  set_attr on (with_livetime total);;;
  off <- lift (attr (r_stacked_off_vector s));;
  set_attr off (with_livetime total);;;
  set_attr on (with_backscal (r_stacked_bkscal_on s));;;
  set_attr off (with_backscal (r_stacked_bkscal_off s));;;
  ids <- list_obs_id (r_obs_list s);;
  set_attr on (with_obs_id ids);;;
  ids <- list_obs_id (r_obs_list s);;
  set_attr off (with_obs_id ids);;;
  ret s.

Definition stack_counts_vectors (s : stacker_refs)
  : M (A:=A) stacker_refs :=
  s <- stack_on_vector s;;
  s <- stack_off_vector s;;
  s <- stack_backscal s;;
  setup_counts_vectors s.

(** [aefft_current = o.aeff.evaluate(fill_nan=True) * o.livetime] *)
Definition aefft_current (o : loc) : M (A:=A) loc :=
  v <- load_obs o;;
  a <- read_aeff v.1.1.2;;
  aeff_data <- alloc (ONdarray (evaluate_fill_nan a));;
  p <- load_pha v.1.1.1;;
  t <- match o_livetime p with
       | Some t => ret t
       | None => lift (Raise TypeError)
       end;;
  d <- load_array aeff_data;;
  alloc (ONdarray (map (fun x => fmul x t) d)).

Definition stack_aeff (s : stacker_refs) : M (A:=A) stacker_refs :=
  o0 <- lift (py_index (r_obs_list s) 0);;
  edges <- true_edges o0;;
  zeros <- lift (np_zeros (nbins edges));;
  aefft <- alloc (ONdarray zeros);;
  for_each (fun _ o => cur <- aefft_current o;; iadd aefft cur)
           (r_obs_list s) tt;;;
  total <- total_livetime (r_obs_list s);;
  d <- load_array aefft;;
  stacked_data <- alloc (ONdarray (map (fun x => fdiv x total) d));;
  o0 <- lift (py_index (r_obs_list s) 0);;
  edges <- true_edges o0;;
  energy <- alloc (ONdarray edges);;
  a <- alloc (OAeff energy stacked_data);;
  ret (set_aeff (Some a) s).

Definition stack_edisp_step (aefft aefftedisp : loc) (o : loc)
  : M (A:=A) unit :=
  cur <- aefft_current o;;
  iadd aefft cur;;;
  v <- load_obs o;;
  e <- lift (attr v.2);;
  ed <- read_edisp e;;
  p <- load_pha v.1.1.1;;
  edisp_data <-
    alloc (OMatrix (pdf_in_safe_range ed (o_lo_threshold p)
                                      (o_hi_threshold p)));;
  m <- load_matrix edisp_data;;
  c <- load_array cur;;
  r <- lift (broadcast_rows fmul (transpose m) c);;
  w <- alloc (OMatrix r);;
  iadd2 aefftedisp w.

Definition stack_edisp (s : stacker_refs) : M (A:=A) stacker_refs :=
  o0 <- lift (py_index (r_obs_list s) 0);;
  reco <- reco_edges o0;;
  o0 <- lift (py_index (r_obs_list s) 0);;
  true <- true_edges o0;;
  zeros <- lift (np_zeros (nbins true));;
  aefft <- alloc (ONdarray zeros);;
  zeros2 <- lift (np_zeros2 (nbins reco) (nbins true));;
  aefftedisp <- alloc (OMatrix zeros2);;
  for_each (fun _ o => stack_edisp_step aefft aefftedisp o)
           (r_obs_list s) tt;;;
  m <- load_matrix aefftedisp;;
  a <- load_array aefft;;
  q <- lift (broadcast_rows fdiv m a);;
  stacked_edisp <- alloc (OMatrix (map (map fnan_to_num) q));;
  o0 <- lift (py_index (r_obs_list s) 0);;
  true <- true_edges o0;;
  e_true <- alloc (ONdarray true);;
  o0 <- lift (py_index (r_obs_list s) 0);;
  reco <- reco_edges o0;;
  e_reco <- alloc (ONdarray reco);;
  m <- load_matrix stacked_edisp;;
  d <- alloc (OMatrix (transpose m));;
  e <- alloc (OEdisp e_true e_reco d);;
  ret (set_edisp (Some e) s).

Definition stack_obs (s : stacker_refs) : M (A:=A) stacker_refs :=
  on <- lift (attr (r_stacked_on_vector s));;
  a <- lift (attr (r_stacked_aeff s));;
  o <- alloc (OObs on a (r_stacked_off_vector s) (r_stacked_edisp s));;
  ret (set_obs (Some o) s).

Definition run (s : stacker_refs) : M (A:=A) stacker_refs :=
  s <- stack_counts_vectors s;;
  s <- stack_aeff s;;
  s <- stack_edisp s;;
  stack_obs s.

End OnHeap.
End OnHeap.

(** * Objects in the store and their contents *)

Module Store.

Import Heap.
Section Store.

Context {A : Type} `{Scalar A}.
Open Scope heap_scope.
(** [EffectiveAreaTable(energy=..., data=...)] *)
Definition new_aeff (a : EffectiveAreaTable A) : M (A:=A) loc :=
  e <- alloc (ONdarray (aeff_energy a));;
  d <- alloc (ONdarray (aeff_data a));;
  alloc (OAeff e d).

(** [EnergyDispersion(e_true=..., e_reco=..., data=...)] *)
Definition new_edisp (e : EnergyDispersion A) : M (A:=A) loc :=
  t <- alloc (ONdarray (edisp_e_true e));;
  r <- alloc (ONdarray (edisp_e_reco e));;
  d <- alloc (OMatrix (edisp_data e));;
  alloc (OEdisp t r d).

(** [SpectrumObservation(on_vector=..., aeff=..., off_vector=..., edisp=...)] *)
Definition new_obs (o : SpectrumObservation A) : M (A:=A) loc :=
  on <- OnHeap.new_pha (on_vector o);;
  a <- new_aeff (aeff o);;
  off <- match off_vector o with
         | None => ret None
         | Some v => l <- OnHeap.new_pha v;; ret (Some l)
         end;;
  e <- match edisp o with
       | None => ret None
       | Some m => l <- new_edisp m;; ret (Some l)
       end;;
  alloc (OObs on a off e).

Definition new_obs_list (l : list (SpectrumObservation A))
  : M (A:=A) (list loc) :=
  OnHeap.for_each (fun acc o => r <- new_obs o;; ret (acc ++ [r])) l [].

(** Everything an observation holds: its count arrays, quality flags,
    backscal, livetime, thresholds, effective area and energy
    dispersion. *)
Definition read_obs (l : loc) : M (SpectrumObservation A) :=
  v <- OnHeap.load_obs l;;
  on <- OnHeap.read_pha v.1.1.1;;
  a <- OnHeap.read_aeff v.1.1.2;;
  off <- match v.1.2 with
         | None => ret None
         | Some r => p <- OnHeap.read_pha r;; ret (Some p)
         end;;
  e <- match v.2 with
       | None => ret None
       | Some r => m <- OnHeap.read_edisp r;; ret (Some m)
       end;;
  ret {| on_vector := on; aeff := a; off_vector := off; edisp := e |}.

(** A computation that only reads: it leaves the store as it is, and its
    result survives when the store grows. *)
Definition reads {X} (c : M (A:=A) X) : Prop :=
  forall h : gmap loc (obj A),
    (c h).2 = h /\
    (forall h' x, h ⊆ h' -> (c h).1 = Ok x -> (c h').1 = Ok x).

End Store.
End Store.

(** * Well-formed input and what the stacker computes on it *)

(** ** Well-formed observations on a shared grid *)

Section WellFormed.

Context {A : Type} `{Scalar A}.
(** A spectrum over [n] bins: [n + 1] edges, [n] counts, [n] flags and,
    where the backscal is an array, [n] backscal values. *)
Definition valid_pha (n : nat) (v : PHACountsSpectrum A) : Prop :=
  length (energy v) = S n /\ length (data v) = n /\
  length (quality v) = n /\
  match backscal v with
  | Some (BackscalArray bs) => length bs = n
  | _ => True
  end.

Definition valid_aeff (t : nat) (a : EffectiveAreaTable A) : Prop :=
  length (aeff_energy a) = S t /\ length (aeff_data a) = t.

(** The pdf matrix has one row per true bin and one column per reco bin. *)
Definition valid_edisp (n t : nat) (e : EnergyDispersion A) : Prop :=
  length (edisp_data e) = t /\
  Forall (fun row => length row = n) (edisp_data e).

(** An observation with everything the stacker reads, over [n] reco bins
    and [t] true bins. *)
Record complete_obs (n t : nat) (o : SpectrumObservation A) : Prop := {
  complete_on : valid_pha n (on_vector o);
  complete_off : exists off, off_vector o = Some off /\ valid_pha n off
                             /\ is_Some (backscal off);
  complete_backscal : is_Some (backscal (on_vector o));
  complete_livetime : is_Some (livetime (on_vector o));
  complete_aeff : valid_aeff t (aeff o);
  complete_edisp : exists e, edisp o = Some e /\ valid_edisp n t e
}.

(** The observations share the reco and the true energy grid. *)
Definition shared_grids (l : list (SpectrumObservation A)) : Prop :=
  forall o o', o ∈ l -> o' ∈ l ->
    e_reco o = e_reco o' /\ e_true o = e_true o'.

End WellFormed.

Section CountsStage.
Context {A : Type} `{Scalar A}.

(** Sum of arrays of length [n], accumulated in list order from zeros. *)
Definition sum_arrays (n : nat) (ls : list (list A)) : list A :=
  foldl (zip_with fadd) (replicate n fzero) ls.

Definition or_arrays (n : nat) (ls : list (list bool)) : list bool :=
  foldl (zip_with orb) (replicate n false) ls.

Definition stacked_counts (n : nat) (first : PHACountsSpectrum A)
           (l : list (PHACountsSpectrum A)) : PHACountsSpectrum A :=
  {| data := sum_arrays n (counts_in_safe_range <$> l);
     energy := energy first;
     quality := or_arrays n (quality <$> l);
     obs_id := IdNone; livetime := None; backscal := None;
     pha_lo_threshold := None; pha_hi_threshold := None |}.

End CountsStage.

Section Assign.
Context {A : Type} `{Scalar A}.

(** [x[np.where(d == 0)[0]] = v] written position by position. *)
Definition with_sentinel (v : A) (x d : list A) : list A :=
  zip_with (fun a b => if feqb b fzero then v else a) x d.

End Assign.

Section BackscalStage.
Context {A : Type} `{Scalar A}.

Definition backscal_values (v : PHACountsSpectrum A) : list A :=
  match backscal_array v with
  | Ok bs => bs
  | Raise _ => []
  end.

(** The off counts of an observation inside its safe range. *)
Definition off_counts (o : SpectrumObservation A) : list A :=
  match off_vector o with
  | Some v => counts_in_safe_range v
  | None => []
  end.

(** The per-bin weight [backscal * off counts] of one observation. *)
Definition weighted_backscal_on (o : SpectrumObservation A) : list A :=
  zip_with fmul (backscal_values (on_vector o)) (off_counts o).

Definition weighted_backscal_off (o : SpectrumObservation A) : list A :=
  match off_vector o with
  | Some v => zip_with fmul (backscal_values v) (off_counts o)
  | None => []
  end.

(** Weighted mean over the stacked off counts, [-1] where those are 0. *)
Definition stacked_backscal (n : nat) (weights : list (list A))
           (stacked_off : list A) : list A :=
  with_sentinel alpha_correction
    (zip_with fdiv (sum_arrays n weights) stacked_off) stacked_off.

Definition livetime_or_zero (o : SpectrumObservation A) : A :=
  default fzero (livetime (on_vector o)).

End BackscalStage.

Section CountsStageClosed.
Context {A : Type} `{Scalar A}.

Definition stacked_on (n : nat) (o0 : SpectrumObservation A)
           (l : list (SpectrumObservation A)) : PHACountsSpectrum A :=
  stacked_counts n (on_vector o0) (on_vector <$> l).

Definition stacked_off (n : nat) (off0 : PHACountsSpectrum A)
           (l : list (SpectrumObservation A)) : PHACountsSpectrum A :=
  stacked_counts n off0 (omap off_vector l).

Definition bkscal_on_closed (n : nat) (off0 : PHACountsSpectrum A)
           (l : list (SpectrumObservation A)) : list A :=
  stacked_backscal n (weighted_backscal_on <$> l)
                   (data (stacked_off n off0 l)).

Definition bkscal_off_closed (n : nat) (off0 : PHACountsSpectrum A)
           (l : list (SpectrumObservation A)) : list A :=
  stacked_backscal n (weighted_backscal_off <$> l)
                   (data (stacked_off n off0 l)).

(** The stacker after [stack_counts_vectors], on well-formed input. *)
Definition counts_stage (n : nat) (o0 : SpectrumObservation A)
           (off0 : PHACountsSpectrum A)
           (l : list (SpectrumObservation A))
  : SpectrumObservationStacker A :=
  let total := np_sum (livetime_or_zero <$> l) in
  {| obs_list := l;
     stacked_on_vector :=
       Some (with_attrs (stacked_on n o0 l) total
                        (Some (bkscal_on_closed n off0 l))
                        (list_obs_id l));
     stacked_off_vector :=
       Some (with_attrs (stacked_off n off0 l) total
                        (Some (bkscal_off_closed n off0 l))
                        (list_obs_id l));
     stacked_aeff := None; stacked_edisp := None;
     stacked_bkscal_on := Some (bkscal_on_closed n off0 l);
     stacked_bkscal_off := Some (bkscal_off_closed n off0 l);
     stacked_obs := None |}.

End CountsStageClosed.

Section Matrices.
Context {A : Type} `{Scalar A}.

(** [m] has [r] rows of [c] entries each. *)
Definition shape (r c : nat) (m : list (list A)) : Prop :=
  length m = r /\ Forall (fun row => length row = c) m.

End Matrices.

Section ResponseStage.
Context {A : Type} `{Scalar A}.

(** Exposure [aeff * livetime] of one observation per true bin. *)
Definition exposure (o : SpectrumObservation A) : list A :=
  map (fun a => fmul a (livetime_or_zero o)) (evaluate_fill_nan (aeff o)).

Definition total_exposure (t : nat) (l : list (SpectrumObservation A))
  : list A :=
  sum_arrays t (exposure <$> l).

Definition stacked_aeff_closed (t : nat) (o0 : SpectrumObservation A)
           (l : list (SpectrumObservation A)) : EffectiveAreaTable A :=
  {| aeff_energy := e_true o0;
     aeff_data := map (fun x => fdiv x (np_sum (livetime_or_zero <$> l)))
                      (total_exposure t l) |}.

(** [pdf * exposure] of one observation, indexed [reco bin][true bin]. *)
Definition exposed_pdf (o : SpectrumObservation A) : list (list A) :=
  match edisp o with
  | Some e =>
      (fun row => zip_with fmul row (exposure o))
        <$> transpose (pdf_in_safe_range e (lo_threshold o)
                                         (hi_threshold o))
  | None => []
  end.

Definition sum_arrays2 (n t : nat) (ms : list (list (list A)))
  : list (list A) :=
  foldl (zip_with (zip_with fadd)) (replicate n (replicate t fzero)) ms.

Definition stacked_edisp_closed (n t : nat) (o0 : SpectrumObservation A)
           (l : list (SpectrumObservation A)) : EnergyDispersion A :=
  {| edisp_e_true := e_true o0;
     edisp_e_reco := e_reco o0;
     edisp_data :=
       transpose
         (map (map fnan_to_num)
              ((fun row => zip_with fdiv row (total_exposure t l))
                 <$> sum_arrays2 n t (exposed_pdf <$> l))) |}.

End ResponseStage.

Section RunClosed.
Context {A : Type} `{Scalar A}.

(** The stacked observation in closed form. *)
Definition stacked_closed (n t : nat) (o0 : SpectrumObservation A)
           (off0 : PHACountsSpectrum A)
           (l : list (SpectrumObservation A)) : SpectrumObservation A :=
  let total := np_sum (livetime_or_zero <$> l) in
  {| on_vector := with_attrs (stacked_on n o0 l) total
                             (Some (bkscal_on_closed n off0 l))
                             (list_obs_id l);
     aeff := stacked_aeff_closed t o0 l;
     off_vector := Some (with_attrs (stacked_off n off0 l) total
                                    (Some (bkscal_off_closed n off0 l))
                                    (list_obs_id l));
     edisp := Some (stacked_edisp_closed n t o0 l) |}.

End RunClosed.

Section WorkedExample.
Variables (edges : list float) (q : list bool) (lo hi : option float).
Variable as_array : bool.
Variables (a1 a2 : EffectiveAreaTable float).
Variables (e1 e2 : EnergyDispersion float) (i1 i2 : PyId).
Variable t : nat.

(** Backscal 0.1 in every bin, stored as a scalar or as an array. *)
Definition uniform_backscal : Backscal float :=
  if as_array then BackscalArray [0.1; 0.1]%float
  else BackscalScalar 0.1%float.

Definition worked_pha (counts : list float) (livetime : float) (i : PyId)
  : PHACountsSpectrum float :=
  {| data := counts; energy := edges; quality := q;
     obs_id := i; livetime := Some livetime;
     backscal := Some uniform_backscal;
     pha_lo_threshold := lo; pha_hi_threshold := hi |}.

Definition worked_obs1 : SpectrumObservation float :=
  {| on_vector := worked_pha [10; 20]%float 100%float i1; aeff := a1;
     off_vector := Some (worked_pha [5; 5]%float 100%float i1);
     edisp := Some e1 |}.

Definition worked_obs2 : SpectrumObservation float :=
  {| on_vector := worked_pha [30; 40]%float 200%float i2; aeff := a2;
     off_vector := Some (worked_pha [10; 10]%float 200%float i2);
     edisp := Some e2 |}.

End WorkedExample.

(** A concrete instance with thresholds at the outer edges of the grid. *)
Module Example.

Definition edges : list float := [1; 10; 100]%float.

Definition area : EffectiveAreaTable float :=
  {| aeff_energy := edges; aeff_data := [1e9; 2e9]%float |}.

Definition matrix : EnergyDispersion float :=
  {| edisp_e_true := edges; edisp_e_reco := edges;
     edisp_data := [[0.75; 0.25]; [0.5; 0.5]]%float |}.

Definition obs1 : SpectrumObservation float :=
  worked_obs1 edges [false; false] (Some 1%float) (Some 100%float) false
              area matrix (IdInt 1).

Definition obs2 : SpectrumObservation float :=
  worked_obs2 edges [false; false] (Some 1%float) (Some 100%float) false
              area matrix (IdInt 2).

Definition pha (counts : list float) (flags : list bool) (b t : float)
           (i : Z) : PHACountsSpectrum float :=
  {| data := counts; energy := edges; quality := flags;
     obs_id := IdInt i; livetime := Some t;
     backscal := Some (BackscalScalar b);
     pha_lo_threshold := Some 1%float;
     pha_hi_threshold := Some 100%float |}.

Definition obs (on off : list float) (flags : list bool) (b t : float)
           (i : Z) : SpectrumObservation float :=
  {| on_vector := pha on flags b t i; aeff := area;
     off_vector := Some (pha off flags b t i); edisp := Some matrix |}.

(** Two observations without off counts in the first bin. *)
Definition no_off_counts : list (SpectrumObservation float) :=
  [obs [10; 20] [0; 5] [false; false] 0.1 100 1;
   obs [30; 40] [0; 10] [false; false] 0.1 200 2]%float.

(** The second bin is flagged in the first observation only. *)
Definition one_flagged : list (SpectrumObservation float) :=
  [obs [10; 20] [5; 5] [false; true] 0.1 100 1;
   obs [30; 40] [10; 10] [false; false] 0.1 200 2]%float.

End Example.

Section SafeRangeExclusion.
Context {A : Type} `{Scalar A}.

(** What a spectrum adds to bin [k] of the stacked counts. *)
Definition contribution (k : nat) (spec : option (PHACountsSpectrum A)) : A :=
  match spec with
  | Some v => default fzero (counts_in_safe_range v !! k)
  | None => fzero
  end.

Definition on_contribution (k : nat) (o : SpectrumObservation A) : A :=
  contribution k (Some (on_vector o)).

Definition off_contribution (k : nat) (o : SpectrumObservation A) : A :=
  contribution k (off_vector o).

(** Spectra over one grid of [n] bins. *)
Definition on_grid (n : nat) (spec : option (PHACountsSpectrum A)) : Prop :=
  forall v, spec = Some v -> length (energy v) = S n /\ length (data v) = n.

End SafeRangeExclusion.

Module ReadExample.

Definition on_file : PHAFile float :=
  {| pha_spectrum :=
       Example.pha [10; 20]%float [false; false] 0.1%float 100%float 1;
     rmffile := "rmf_obs1.fits"; arffile := "arf_obs1.fits";
     bkgfile := "bkg_obs1.fits" |}.

(** A folder with the PHA file and its ARF file only. *)
Definition with_arf : gmap string (File float) :=
  <["data/arf_obs1.fits" := FileARF Example.area]>
    {["data/pha_obs1.fits" := FilePHA on_file]}.

(** A folder with the PHA file alone. *)
Definition pha_only : gmap string (File float) :=
  {["data/pha_obs1.fits" := FilePHA on_file]}.

End ReadExample.

(** * Exact arithmetic *)

(** The laws of an arithmetic without rounding, infinities and NaN.
    Binary64 has none of them: its addition is not associative, [0 + -0]
    is [+0], and [(x * y) / y] is rounded twice. *)
Class ExactScalar (A : Type) `{Scalar A} : Prop := {
  fadd_comm : forall x y : A, fadd x y = fadd y x;
  fadd_assoc : forall x y z : A, fadd x (fadd y z) = fadd (fadd x y) z;
  fadd_zero_l : forall x : A, fadd fzero x = x;
  fdiv_fmul : forall x y : A, feqb y fzero = false -> fdiv (fmul x y) y = x;
  fisnan_never : forall x : A, fisnan x = false;
  fnan_to_num_id : forall x : A, fnan_to_num x = x
}.

(** Three observations on the grid of [Example], with backscal 0.1, 0.2
    and 0.4 and one off count per bin. *)
Module OrderExample.

Definition A : SpectrumObservation float :=
  Example.obs [10; 20]%float [1; 1]%float [false; false] 0.1 100 1.

Definition B : SpectrumObservation float :=
  Example.obs [30; 40]%float [1; 1]%float [false; false] 0.2 200 2.

Definition C : SpectrumObservation float :=
  Example.obs [50; 60]%float [1; 1]%float [false; false] 0.4 300 3.

Definition first_backscal (r : result (option (SpectrumObservation float)))
  : option float :=
  match r with
  | Ok (Some o) =>
      match backscal (on_vector o) with
      | Some (BackscalArray (x :: _)) => Some x
      | _ => None
      end
  | _ => None
  end.

End OrderExample.

(** The same three observations in exact rational arithmetic. *)
Module ExactExample.

Definition num (a : Z) (b : positive) : Qc := Q2Qc (a # b).

Definition edges : list Qc := [num 1 1; num 10 1; num 100 1].

Definition pha (counts : list Qc) (b t : Qc) (i : Z)
  : PHACountsSpectrum Qc :=
  {| data := counts; energy := edges; quality := [false; false];
     obs_id := IdInt i; livetime := Some t;
     backscal := Some (BackscalScalar b);
     pha_lo_threshold := Some (num 1 1);
     pha_hi_threshold := Some (num 100 1) |}.

Definition obs (on off : list Qc) (b t : Qc) (i : Z)
  : SpectrumObservation Qc :=
  {| on_vector := pha on b t i;
     aeff := {| aeff_energy := edges; aeff_data := [num 5 1; num 7 1] |};
     off_vector := Some (pha off b t i);
     edisp := Some {| edisp_e_true := edges; edisp_e_reco := edges;
                      edisp_data := [[num 3 4; num 1 4];
                                     [num 1 2; num 1 2]] |} |}.

Definition A : SpectrumObservation Qc :=
  obs [num 10 1; num 20 1] [num 1 1; num 1 1] (num 1 10) (num 100 1) 1.

Definition B : SpectrumObservation Qc :=
  obs [num 30 1; num 40 1] [num 1 1; num 1 1] (num 2 10) (num 200 1) 2.

Definition C : SpectrumObservation Qc :=
  obs [num 50 1; num 60 1] [num 1 1; num 1 1] (num 4 10) (num 300 1) 3.

End ExactExample.

Module SingletonExample.





Definition area (r : result (option (SpectrumObservation float)))
  : option (list float) :=
  match r with
  | Ok (Some o) => Some (aeff_data (aeff o))
  | _ => None
  end.


End SingletonExample.

Section FloatFacts.

(** Non-negative values in the specification of binary64: zeros, positive
    finite numbers and [+inf]. *)
Definition SF_nonneg (x : spec_float) : Prop :=
  match x with
  | S754_zero _ => True
  | S754_infinity s => s = false
  | S754_finite s _ _ => s = false
  | S754_nan => False
  end.

(** The result of rounding is of sign [s], or a zero. *)
Definition SF_signed (s : bool) (x : spec_float) : Prop :=
  match x with
  | S754_zero _ => True
  | S754_infinity s' => s' = s
  | S754_finite s' _ _ => s' = s
  | S754_nan => False
  end.

End FloatFacts.

Module NaNExample.

(** Two observations of 1e308 s each: the total livetime overflows. *)
Definition long_obs (i : Z) : SpectrumObservation float :=
  Example.obs [10; 20]%float [5; 5]%float [false; false] 0.1 1e308 i.

Definition area (r : result (option (SpectrumObservation float)))
  : option (list float) :=
  match r with
  | Ok (Some o) => Some (aeff_data (aeff o))
  | _ => None
  end.

Definition livetimes (l : list (SpectrumObservation float))
  : list (option float) :=
  (fun o => livetime (on_vector o)) <$> l.

End NaNExample.

Section Frame.
Context {A : Type} `{Scalar A}.
Import Heap.
Variable D : gset loc.

(** Started on a store that holds the objects of [D], the computation [c]
    leaves each of them as it is, and what it returns satisfies [Q]. *)
Definition frames {X} (c : M (A:=A) X) (Q : X -> Prop) : Prop :=
  forall h : gmap loc (obj A),
    D ⊆ dom h ->
    D ⊆ dom (c h).2 /\
    (forall l, l ∈ D -> (c h).2 !! l = h !! l) /\
    (forall x, (c h).1 = Ok x -> Q x).

End Frame.

Section FrameStacker.
Context {A : Type} `{Scalar A}.
Import Heap.
Variable D : gset loc.

(** The stacked vectors that the stacker refers to are its own. *)
Definition own_vectors (s : stacker_refs) : Prop :=
  (forall l, r_stacked_on_vector s = Some l -> l ∉ D) /\
  (forall l, r_stacked_off_vector s = Some l -> l ∉ D).

End FrameStacker.

(** The two observations of the worked example, built in an empty
    store, and the store after a run of the stacker on them. *)
Module HeapExample.

Definition setup : result (list loc) * gmap loc (obj float) :=
  Store.new_obs_list [Example.obs1; Example.obs2] ∅.

Definition refs : list loc :=
  match setup.1 with Ok l => l | Raise _ => [] end.

Definition first : loc := nth 0 refs 1%positive.

Definition second : loc := nth 1 refs 1%positive.

Definition before : gmap loc (obj float) := setup.2.

Definition after : result stacker_refs * gmap loc (obj float) :=
  OnHeap.run (OnHeap.init refs) before.

Definition stacked : result (option (SpectrumObservation float)) :=
  match after.1 with
  | Ok s => match r_stacked_obs s with
            | Some l => o ← (Store.read_obs l after.2).1; Ok (Some o)
            | None => Ok None
            end
  | Raise e => Raise e
  end.

End HeapExample.

(** * Further code of observation.py and what its properties are stated with *)

Section PerBin.
Context {A : Type} `{Scalar A}.

(** The backscal of a spectrum in bin [k]. *)
Definition backscal_at (v : PHACountsSpectrum A) (k : nat) : A :=
  default fzero (backscal_values v !! k).

(** The off counts of an observation in bin [k], zero outside the safe
    range of its off vector. *)
Definition off_count_at (o : SpectrumObservation A) (k : nat) : A :=
  default fzero (off_counts o !! k).

Definition off_backscal_at (o : SpectrumObservation A) (k : nat) : A :=
  match off_vector o with
  | Some v => backscal_at v k
  | None => fzero
  end.
End PerBin.

(** ** SpectrumObservationList.obs *)

(** [x == y] for observation ids: [None], integers and lists of ids. *)
Fixpoint PyId_eqb (x y : PyId) : bool :=
  match x, y with
  | IdNone, IdNone => true
  | IdInt a, IdInt b => (a =? b)%Z
  | IdList l, IdList k =>
      (fix go (l k : list PyId) : bool :=
         match l, k with
         | [], [] => true
         | a :: l', b :: k' => PyId_eqb a b && go l' k'
         | _, _ => false
         end) l k
  | _, _ => false
  end.

(** [l.index(x)]: the first position that holds a value equal to [x];
    [ValueError] if there is none. *)
Fixpoint list_index (l : list PyId) (x : PyId) : result Z :=
  match l with
  | [] => Raise ValueError
  | y :: l' =>
      if PyId_eqb y x then Ok 0%Z
      else i ← list_index l' x; Ok (i + 1)%Z
  end.

Section ObservationListObs.
Context {A : Type} `{Scalar A}.

(** [SpectrumObservationList.obs]: return one observation. *)
Definition list_obs (l : list (SpectrumObservation A)) (i : PyId)
  : result (SpectrumObservation A) :=
  let obs_id_list := map obs_obs_id l in
  idx ← list_index obs_id_list i;
  py_index l idx.
End ObservationListObs.

(** Further inputs for the properties of the stacker and of the list. *)
Module MoreExamples.
Definition pair : list (SpectrumObservation float) :=
  [Example.obs1; Example.obs2].

(** An observation with three counts on the two-bin grid. *)
Definition three_counts : SpectrumObservation float :=
  Example.obs [1; 2; 3]%float [1; 2; 3]%float [false; false; false]
              0.1 100 3.

(** A stacker that holds a result of an earlier run on another list. *)
Definition stale : SpectrumObservationStacker float :=
  set_stacked_on_vector (Some (on_vector three_counts))
    (set_stacked_bkscal (Some [7; 7]%float) None (init pair)).

(** What [read] makes of the folder without background and RMF file. *)
Definition read_alone : result (SpectrumObservation float) :=
  read ReadExample.with_arf "data" "pha_obs1.fits".
End MoreExamples.

Section PerTrueBin.
Context {A : Type} `{Scalar A}.

(** The effective area of an observation in true bin [j], as the stacker
    reads it. *)
Definition aeff_at (o : SpectrumObservation A) (j : nat) : A :=
  default fzero (evaluate_fill_nan (aeff o) !! j).
End PerTrueBin.

(** ** SpectrumObservation.obs_id in the store *)

Module OnHeapObservation.
Import Heap.
Section OnHeapObservation.
Context {A : Type} `{Scalar A}.
Open Scope heap_scope.

(** The getter: [self.on_vector.obs_id]. *)
Definition obs_id (o : loc) : M (A:=A) PyId :=
  v <- OnHeap.load_obs o;;
  p <- OnHeap.load_pha v.1.1.1;;
  ret (o_obs_id p).

(** The setter: the id is written to the on vector and, if there is one,
    to the off vector. *)
Definition set_obs_id (o : loc) (i : PyId) : M (A:=A) unit :=
  v <- OnHeap.load_obs o;;
  OnHeap.set_attr v.1.1.1 (OnHeap.with_obs_id i);;;
  match v.1.2 with
  | Some off => OnHeap.set_attr off (OnHeap.with_obs_id i)
  | None => ret tt
  end.
End OnHeapObservation.
End OnHeapObservation.

(** ** Which objects refer to which *)

(** The references that an object holds. *)
Definition refs {A} (o : obj A) : list loc :=
  match o with
  | ONdarray _ | OBools _ | OMatrix _ => []
  | OPHA p =>
      o_data p :: o_energy p :: o_quality p
        :: match o_backscal p with
           | Some (inr r) => [r]
           | _ => []
           end
  | OAeff energy data => [energy; data]
  | OEdisp e_true e_reco data => [e_true; e_reco; data]
  | OObs on a off e => on :: a :: option_list off ++ option_list e
  end.


Section Apart.
Context {A : Type} `{Scalar A}.
Import Heap.
Variable D : gset loc.

(** An object that refers to none of the objects of [D]. *)
Definition outside (o : obj A) : Prop := Forall (fun r => r ∉ D) (refs o).

(** The objects that are not of [D] refer to no object of [D]. *)
Definition apart (h : gmap loc (obj A)) : Prop :=
  forall l o, h !! l = Some o -> l ∉ D -> outside o.

(** Started on a store in which the new objects are apart from those of
    [D], the computation [c] leaves it so, and what it returns satisfies
    [Q]. *)
Definition keeps_apart {X} (c : M (A:=A) X) (Q : X -> Prop) : Prop :=
  forall h : gmap loc (obj A),
    D ⊆ dom h -> apart h ->
    D ⊆ dom (c h).2 /\ apart (c h).2 /\
    (forall x, (c h).1 = Ok x -> Q x).

(** A reference of the stacker that, if set, is to a new object. *)
Definition owns (x : option loc) : Prop := forall l, x = Some l -> l ∉ D.
End Apart.

(** ** SpectrumObservation.total_stats_safe_range *)

Section StatsSafeRange.
Context {A : Type} `{Scalar A}.
Variable stack_alpha : list (SpectrumStats A) -> A * A.
(** [PHACountsSpectrum.bins_in_safe_range] lives in
    gammapy/spectrum/core.py; it enters as a parameter, the indices it
    gives for a spectrum. *)
Variable bins_in_safe_range : PHACountsSpectrum A -> list Z.

(** Total stats within the thresholds. *)
Definition total_stats_safe_range (o : SpectrumObservation A)
  : result (SpectrumStats A) :=
  let safe_bins := bins_in_safe_range (on_vector o) in
  first ← py_index safe_bins 0;
  last ← py_index safe_bins (-1);
  stats_in_range stack_alpha o first last.
End StatsSafeRange.

(** ** SpectrumObservation.alpha and background_vector *)

(** [CountsSpectrum(data=..., energy=...)] *)
Record CountsSpectrum (A : Type) : Type := {
  counts_data : list A;
  counts_energy : list A
}.
Arguments counts_data {A} _.
Arguments counts_energy {A} _.

Section Background.
Context {A : Type} `{Scalar A}.
(** How one scalar backscal divides by another depends on the kind of
    number the file reader left there (a Python float raises on a zero
    divisor, a numpy scalar gives inf or NaN); it is a parameter. *)
Variable scalar_div : A -> A -> result A.

(** [x / y] for two backscals, each a scalar or an array. *)
Definition backscal_div (x y : Backscal A) : result (Backscal A) :=
  match x, y with
  | BackscalScalar a, BackscalScalar b =>
      c ← scalar_div a b; Ok (BackscalScalar c)
  | BackscalScalar a, BackscalArray bs =>
      Ok (BackscalArray (map (fdiv a) bs))
  | BackscalArray xs, BackscalScalar b =>
      Ok (BackscalArray (map (fun a => fdiv a b) xs))
  | BackscalArray xs, BackscalArray bs =>
      r ← broadcast fdiv xs bs; Ok (BackscalArray r)
  end.

(** Exposure ratio between signal and background regions: dividing by or
    into a missing backscal is a TypeError. *)
Definition alpha (o : SpectrumObservation A) : result (Backscal A) :=
  let on_backscal := backscal (on_vector o) in
  off ← attr (off_vector o);
  match on_backscal, backscal off with
  | Some x, Some y => backscal_div x y
  | _, _ => Raise TypeError
  end.

(** [bkg = alpha * n_off] *)
Definition background_vector (o : SpectrumObservation A)
  : result (CountsSpectrum A) :=
  off ← attr (off_vector o);
  let energy := energy off in
  a ← alpha o;
  data ← match a with
         | BackscalScalar s => Ok (map (fun d => fmul d s) (data off))
         | BackscalArray xs => broadcast fmul (data off) xs
         end;
  Ok {| counts_data := data; counts_energy := energy |}.
End Background.

(** ** Observations for the livetime and for the safe range of one vector *)

(** The rational number that a finite binary64 value stands for. *)
Definition float_value (x : float) : option Q :=
  match Prim2SF x with
  | S754_zero _ => Some (inject_Z 0)
  | S754_finite s m e =>
      Some (Qmult (inject_Z (if s then Z.neg m else Z.pos m))
                  (Qpower (inject_Z 2) e))
  | _ => None
  end.

(** Three observations on the grid of [Example], with livetimes 0.1 s,
    0.2 s and 0.3 s. *)
Module LivetimeExample.

Definition A : SpectrumObservation float :=
  Example.obs [10; 20]%float [5; 5]%float [false; false] 0.1 0.1 1.

Definition B : SpectrumObservation float :=
  Example.obs [30; 40]%float [5; 5]%float [false; false] 0.1 0.2 2.

Definition C : SpectrumObservation float :=
  Example.obs [50; 60]%float [5; 5]%float [false; false] 0.1 0.3 3.

End LivetimeExample.

Module SafeRangeExample.

(** The second bin is flagged in the on vector and not in the off vector. *)
Definition on_flagged : SpectrumObservation float :=
  {| on_vector :=
       Example.pha [10; 20]%float [false; true] 0.1%float 100%float 1;
     aeff := Example.area;
     off_vector :=
       Some (Example.pha [5; 5]%float [false; false] 0.1%float 100%float 1);
     edisp := Some Example.matrix |}.

Definition unflagged : SpectrumObservation float :=
  Example.obs [30; 40]%float [10; 10]%float [false; false] 0.1 200 2.

End SafeRangeExample.

(** * Properties *)

(** ** The error monad *)

Lemma bind_Ok {A B} (m : result A) (f : A -> result B) (b : B) :
  m ≫= f = Ok b -> exists a, m = Ok a /\ f a = Ok b.
Proof. destruct m as [a|e]; simpl; [eauto | discriminate]. Qed.

Lemma bind_ret {A B} (a : A) (f : A -> result B) : Ok a ≫= f = f a.
Proof. reflexivity. Qed.

Lemma mapM_cons_result {A B} (f : A -> result B) (x : A) (l : list A) :
  mapM f (x :: l) = y ← f x; k ← mapM f l; Ok (y :: k).
Proof. reflexivity. Qed.

Lemma attr_Ok {A} (x : option A) (a : A) : attr x = Ok a -> x = Some a.
Proof. destruct x; simpl; congruence. Qed.

Ltac inv_ok :=
  repeat match goal with
    | H : (_ ≫= _) = Ok _ |- _ =>
        let a := fresh "a" in
        let E := fresh "E" in
        apply bind_Ok in H; destruct H as (a & E & H)
    | H : attr _ = Ok _ |- _ => apply attr_Ok in H
    | H : Ok _ = Ok _ |- _ => injection H as H
    | H : Raise _ = Ok _ |- _ => discriminate H
    | H : mret _ = Ok _ |- _ => injection H as H
    end.

Lemma for_each_app {A B} (body : A -> B -> result A) (l1 l2 : list B)
      (acc : A) :
  for_each body (l1 ++ l2) acc = for_each body l1 acc ≫= for_each body l2.
Proof.
  revert acc; induction l1 as [|x l1 IH]; intros acc; simpl; [done|].
  destruct (body acc x); simpl; auto.
Qed.

(** An invariant of the accumulator holds after the loop. *)
Lemma for_each_inv {A B} (P : A -> Prop) (body : A -> B -> result A)
      (l : list B) (acc acc' : A) :
  (forall a x a', P a -> body a x = Ok a' -> P a') ->
  P acc -> for_each body l acc = Ok acc' -> P acc'.
Proof.
  intros Hstep; revert acc; induction l as [|x l IH]; intros acc HP Hl;
    simpl in Hl.
  - by injection Hl as <-.
  - inv_ok. eauto.
Qed.

(** ** The stages of [run] *)

Section RunStages.
Context {A : Type} `{Scalar A}.

Lemma stack_aeff_sets (s s' : SpectrumObservationStacker A) :
  stack_aeff s = Ok s' -> exists a, s' = set_stacked_aeff (Some a) s.
Proof. unfold stack_aeff; intros Hs; inv_ok; eauto. Qed.

Lemma stack_edisp_sets (s s' : SpectrumObservationStacker A) :
  stack_edisp s = Ok s' -> exists e, s' = set_stacked_edisp (Some e) s.
Proof. unfold stack_edisp; intros Hs; inv_ok; eauto. Qed.

Lemma stack_obs_sets (s s' : SpectrumObservationStacker A) :
  stack_obs s = Ok s' ->
  exists on a,
    stacked_on_vector s = Some on /\ stacked_aeff s = Some a /\
    s' = set_stacked_obs
           (Some {| on_vector := on; aeff := a;
                    off_vector := stacked_off_vector s;
                    edisp := stacked_edisp s |}) s.
Proof. unfold stack_obs; intros Hs; inv_ok; eauto 6. Qed.

(** The later stages leave the counts vectors of the first stage alone,
    and [stack_obs] assembles the four stacked parts. *)
Lemma run_stages (s0 s : SpectrumObservationStacker A) :
  run s0 = Ok s ->
  exists s1 on a e,
    stack_counts_vectors s0 = Ok s1 /\
    stack_aeff s1 = Ok (set_stacked_aeff (Some a) s1) /\
    stack_edisp (set_stacked_aeff (Some a) s1)
    = Ok (set_stacked_edisp (Some e) (set_stacked_aeff (Some a) s1)) /\
    stacked_on_vector s1 = Some on /\
    s = set_stacked_obs
          (Some {| on_vector := on; aeff := a;
                   off_vector := stacked_off_vector s1;
                   edisp := Some e |})
          (set_stacked_edisp (Some e) (set_stacked_aeff (Some a) s1)).
Proof.
  unfold run; intros Hrun.
  apply bind_Ok in Hrun as (s1 & E1 & Hrun).
  apply bind_Ok in Hrun as (s2 & E2 & Hrun).
  apply bind_Ok in Hrun as (s3 & E3 & Hrun).
  destruct (stack_aeff_sets _ _ E2) as (a & ->).
  destruct (stack_edisp_sets _ _ E3) as (e & ->).
  destruct (stack_obs_sets _ _ Hrun) as (on & a' & Hon & Ha & ->).
  simpl in Hon, Ha. injection Ha as <-.
  exists s1, on, a, e. done.
Qed.
End RunStages.

(** ** The safe range *)

Section SafeRangeFacts.
Context {A : Type} `{Scalar A}.

Lemma counts_in_safe_range_length (spec : PHACountsSpectrum A) :
  length (counts_in_safe_range spec) = length (data spec).
Proof. unfold counts_in_safe_range. by rewrite length_imap. Qed.

Lemma counts_in_safe_range_lookup (spec : PHACountsSpectrum A) (k : nat) :
  counts_in_safe_range spec !! k
  = (fun x => if bin_safe spec k then x else fzero) <$> data spec !! k.
Proof. unfold counts_in_safe_range. by rewrite list_lookup_imap. Qed.

(** An unsafe bin holds zero, whatever the raw counts are. *)
Lemma counts_in_safe_range_unsafe (spec : PHACountsSpectrum A) (k : nat) :
  k < length (data spec) -> bin_safe spec k = false ->
  counts_in_safe_range spec !! k = Some fzero.
Proof.
  intros Hk Hun. rewrite counts_in_safe_range_lookup, Hun.
  destruct (lookup_lt_is_Some_2 _ _ Hk) as [x ->]; done.
Qed.

(** Where every bin is safe the raw counts come back. *)
Lemma counts_in_safe_range_all_safe (spec : PHACountsSpectrum A) :
  (forall k, k < length (data spec) -> bin_safe spec k = true) ->
  counts_in_safe_range spec = data spec.
Proof.
  intros Hsafe. apply list_eq; intros k.
  rewrite counts_in_safe_range_lookup.
  destruct (data spec !! k) as [x|] eqn:E; simpl; [|done].
  rewrite Hsafe; [done|]. by eapply lookup_lt_Some.
Qed.
End SafeRangeFacts.

(** ** Shapes *)

Section Shapes.
Context {A : Type} `{Scalar A}.

Lemma py_index_0 {B} (x : B) (l : list B) : py_index (x :: l) 0 = Ok x.
Proof. unfold py_index. repeat case_decide; try lia; done. Qed.

Lemma py_index_nat {B} (l : list B) (k : nat) :
  py_index l (Z.of_nat k)
  = match l !! k with Some x => Ok x | None => Raise IndexError end.
Proof.
  unfold py_index. repeat case_decide; try lia. by rewrite Nat2Z.id.
Qed.

Lemma py_index_0_Ok {B} (l : list B) (x : B) :
  py_index l 0 = Ok x -> exists l', l = x :: l'.
Proof.
  destruct l as [|y l]; [discriminate|].
  rewrite py_index_0. intros [= ->]. eauto.
Qed.

Lemma np_zeros_nbins (edges : list A) (n : nat) :
  length edges = S n -> np_zeros (nbins edges) = Ok (replicate n fzero).
Proof.
  intros Hn. unfold np_zeros, nbins. rewrite Hn.
  rewrite decide_False by lia. do 2 f_equal. lia.
Qed.

Lemma np_zeros_Ok (n : Z) (z : list A) :
  np_zeros n = Ok z -> z = replicate (Z.to_nat n) fzero.
Proof. unfold np_zeros. case_decide; congruence. Qed.

Lemma inplace_same {B C} (f : B -> C -> B) (acc : list B) (y : list C) :
  length y = length acc -> inplace f acc y = Ok (zip_with f acc y).
Proof. intros Hl. unfold inplace. by rewrite decide_True. Qed.

Lemma broadcast_same {B C D} (f : B -> C -> D) (x : list B) (y : list C) :
  length x = length y -> broadcast f x y = Ok (zip_with f x y).
Proof. intros Hl. unfold broadcast. by rewrite decide_True. Qed.

(** An in-place operation keeps the length of its target. *)
Lemma inplace_length {B C} (f : B -> C -> B) (acc acc' : list B)
      (y : list C) :
  inplace f acc y = Ok acc' -> length acc' = length acc.
Proof.
  unfold inplace. case_decide as Hl.
  - intros [= <-]. rewrite length_zip_with. lia.
  - destruct y as [|b [|]]; try discriminate.
    intros [= <-]. by rewrite length_map.
Qed.
End Shapes.

(** ** Loops as folds *)

Lemma for_each_foldl {A B} (I : A -> Prop) (body : A -> B -> result A)
      (step : A -> B -> A) (l : list B) (acc : A) :
  (forall a x, x ∈ l -> I a -> body a x = Ok (step a x) /\ I (step a x)) ->
  I acc ->
  for_each body l acc = Ok (foldl step acc l) /\ I (foldl step acc l).
Proof.
  revert acc; induction l as [|x l IH]; intros acc Hbody HI; simpl; [done|].
  destruct (Hbody acc x) as [-> HI']; [left | done |]. simpl.
  apply IH; [|done]. intros a y Hy. apply Hbody. by right.
Qed.

Lemma foldl_fst {A B C} (f : A -> C -> A) (g : B -> C -> B) (l : list C)
      (a : A) (b : B) :
  (foldl (fun acc x => (f acc.1 x, g acc.2 x)) (a, b) l).1 = foldl f a l.
Proof. revert a b; induction l as [|x l IH]; intros a b; simpl; auto. Qed.

Lemma foldl_snd {A B C} (f : A -> C -> A) (g : B -> C -> B) (l : list C)
      (a : A) (b : B) :
  (foldl (fun acc x => (f acc.1 x, g acc.2 x)) (a, b) l).2 = foldl g b l.
Proof. revert a b; induction l as [|x l IH]; intros a b; simpl; auto. Qed.

Lemma foldl_map {A B C} (f : A -> C -> A) (g : B -> C) (l : list B) (a : A) :
  foldl (fun acc x => f acc (g x)) a l = foldl f a (g <$> l).
Proof. revert a; induction l as [|x l IH]; intros a; simpl; auto. Qed.

(** Folding an elementwise operation over arrays of one length folds the
    operation over each position. *)
Lemma foldl_zip_with_length {A} (f : A -> A -> A) (n : nat)
      (ls : list (list A)) (acc : list A) :
  length acc = n -> Forall (fun y => length y = n) ls ->
  length (foldl (zip_with f) acc ls) = n.
Proof.
  intros Hacc Hls; revert acc Hacc.
  induction Hls as [|y ls Hy _ IH]; intros acc Hacc; simpl; [done|].
  apply IH. rewrite length_zip_with. lia.
Qed.

Lemma foldl_zip_with_lookup {A} (f : A -> A -> A) (d : A) (n k : nat)
      (ls : list (list A)) (acc : list A) (a : A) :
  Forall (fun y => length y = n) ls -> length acc = n ->
  acc !! k = Some a ->
  foldl (zip_with f) acc ls !! k
  = Some (foldl f a ((fun y => default d (y !! k)) <$> ls)).
Proof.
  intros Hls; revert acc a.
  induction Hls as [|y ls Hy _ IH]; intros acc a Hacc Ha; simpl; [done|].
  assert (k < n) as Hk by (rewrite <- Hacc; by eapply lookup_lt_Some).
  destruct (lookup_lt_is_Some_2 y k) as [b Hb]; [lia|].
  rewrite Hb; simpl. apply IH.
  - rewrite length_zip_with. lia.
  - rewrite lookup_zip_with, Ha; simpl. by rewrite Hb.
Qed.

Lemma for_each_fmap {A B C} (body : A -> C -> result A) (g : B -> C)
      (l : list B) (acc : A) :
  for_each body (g <$> l) acc = for_each (fun a x => body a (g x)) l acc.
Proof.
  revert acc; induction l as [|x l IH]; intros acc; simpl; [done|].
  destruct (body acc (g x)); simpl; auto.
Qed.

(** The loop invariant [P] speaks of the elements consumed so far. *)
Lemma for_each_ind {A B} (P : list B -> A -> Prop)
      (body : A -> B -> result A) (l : list B) (acc acc' : A) :
  P [] acc ->
  (forall pre x a a', P pre a -> body a x = Ok a' -> P (pre ++ [x]) a') ->
  for_each body l acc = Ok acc' -> P l acc'.
Proof.
  intros H0 Hstep.
  cut (forall pre a, P pre a -> for_each body l a = Ok acc' ->
                     P (pre ++ l) acc').
  { intros Hcut. apply (Hcut [] acc H0). }
  induction l as [|x l IH]; intros pre a HP Hl; simpl in Hl.
  - injection Hl as <-. by rewrite app_nil_r.
  - inv_ok. replace (pre ++ x :: l) with ((pre ++ [x]) ++ l)
      by (by rewrite <- app_assoc).
    eauto.
Qed.

(** ** What the counts stage computes *)

Section CountsStage.
Context {A : Type} `{Scalar A}.

Lemma sum_arrays_length (n : nat) (ls : list (list A)) :
  Forall (fun y => length y = n) ls -> length (sum_arrays n ls) = n.
Proof.
  intros. apply foldl_zip_with_length; [|done]. by rewrite length_replicate.
Qed.

Lemma stack_counts_spectrum_closed (n : nat)
      (first : PHACountsSpectrum A) (rest : list (PHACountsSpectrum A)) :
  Forall (valid_pha n) (first :: rest) ->
  stack_counts_spectrum (Some <$> first :: rest)
  = Ok (stacked_counts n first (first :: rest)).
Proof.
  intros Hv. pose proof Hv as Hv0. apply Forall_cons in Hv0 as [Hf _].
  destruct Hf as (He & _).
  unfold stack_counts_spectrum.
  assert (py_index (Some <$> first :: rest) 0 = Ok (Some first)) as ->
    by apply py_index_0.
  rewrite bind_ret. simpl attr.
  rewrite bind_ret, (np_zeros_nbins _ n He), bind_ret.
  rewrite for_each_fmap, length_replicate.
  set (step := fun (acc : list A * list bool) (v : PHACountsSpectrum A) =>
                 (zip_with fadd acc.1 (counts_in_safe_range v),
                  zip_with orb acc.2 (quality v))).
  edestruct (for_each_foldl
               (fun acc : list A * list bool =>
                  length acc.1 = n /\ length acc.2 = n)
               (fun a x => stack_counts_step a (Some x)) step
               (first :: rest)) as [-> _].
  - intros [d q] v Hin [Hd Hq]; simpl in Hd, Hq.
    rewrite Forall_forall in Hv. destruct (Hv v Hin) as (_ & Hvd & Hvq & _).
    unfold stack_counts_step; simpl attr. rewrite bind_ret. simpl fst.
    rewrite inplace_same by (rewrite counts_in_safe_range_length; lia).
    rewrite bind_ret. simpl snd. rewrite broadcast_same by lia.
    rewrite bind_ret.
    split; [done|]. unfold step; simpl.
    rewrite !length_zip_with, counts_in_safe_range_length. lia.
  - simpl. by rewrite !length_replicate.
  - rewrite bind_ret. unfold stacked_counts, sum_arrays, or_arrays, step.
    rewrite (foldl_fst (fun a v => zip_with fadd a (counts_in_safe_range v))
               (fun b v => zip_with orb b (quality v))).
    rewrite (foldl_snd (fun a v => zip_with fadd a (counts_in_safe_range v))
               (fun b v => zip_with orb b (quality v))).
    by rewrite (foldl_map (zip_with fadd) counts_in_safe_range),
      (foldl_map (zip_with orb) quality).
Qed.

End CountsStage.

(** ** Index assignment *)

Section Assign.
Context {A : Type} `{Scalar A}.

Lemma elem_of_where_zero_from (k0 k : nat) (d : list A) :
  k ∈ where_zero_from k0 d
  <-> exists x, k0 <= k /\ d !! (k - k0) = Some x /\ feqb x fzero = true.
Proof.
  revert k0; induction d as [|y d IH]; intros k0; simpl.
  - split; [by intros ?%elem_of_nil | by intros (? & _ & ? & _)].
  - assert (k ∈ where_zero_from (S k0) d <->
            exists x, k0 < k /\ d !! (k - S k0) = Some x
                      /\ feqb x fzero = true) as IH'.
    { rewrite IH. split; intros (x & ? & ? & ?); exists x;
        (split; [lia | done]). }
    clear IH. destruct (feqb y fzero) eqn:Ey.
    + rewrite elem_of_cons, IH'. split.
      * intros [-> | (x & Hk & Hx & Hz)].
        -- exists y. rewrite Nat.sub_diag. done.
        -- exists x. split; [lia|].
           replace (k - k0) with (S (k - S k0)) by lia. done.
      * intros (x & Hk & Hx & Hz).
        destruct (decide (k = k0)) as [->|Hne]; [by left | right].
        exists x. split; [lia|].
        replace (k - k0) with (S (k - S k0)) in Hx by lia. done.
    + rewrite IH'. split.
      * intros (x & Hk & Hx & Hz). exists x. split; [lia|].
        replace (k - k0) with (S (k - S k0)) by lia. done.
      * intros (x & Hk & Hx & Hz).
        destruct (decide (k = k0)) as [->|Hne].
        -- rewrite Nat.sub_diag in Hx. simpl in Hx. congruence.
        -- exists x. split; [lia|].
           replace (k - k0) with (S (k - S k0)) in Hx by lia. done.
Qed.

(** The index array of [np.where(d == 0)] holds exactly the positions of
    [d] that compare equal to zero. *)
Lemma elem_of_np_where_zero (k : nat) (d : list A) :
  k ∈ np_where_zero d <-> exists x, d !! k = Some x /\ feqb x fzero = true.
Proof.
  unfold np_where_zero. rewrite elem_of_where_zero_from.
  rewrite Nat.sub_0_r. split.
  - intros (x & _ & ? & ?); eauto.
  - intros (x & ? & ?). exists x. split; [lia | done].
Qed.

Lemma assign_at_spec (idx : list nat) (v : A) (arr arr' : list A) :
  assign_at idx v arr = Ok arr' ->
  length arr' = length arr /\
  (forall k, k ∈ idx -> arr' !! k = Some v) /\
  (forall k, k ∉ idx -> arr' !! k = arr !! k).
Proof.
  unfold assign_at. revert arr; induction idx as [|i idx IH]; intros arr.
  - simpl. intros [= <-]. split; [done|].
    split; [by intros k ?%elem_of_nil | done].
  - simpl. case_decide as Hi; [|discriminate]. rewrite bind_ret.
    intros Harr. destruct (IH _ Harr) as (Hlen & Hin & Hout).
    rewrite length_insert in Hlen. split; [done|]. split.
    + intros k [-> | Hk]%elem_of_cons; [|by apply Hin].
      destruct (decide (i ∈ idx)); [by apply Hin|].
      rewrite Hout by done. by apply list_lookup_insert_eq.
    + intros k Hk. apply not_elem_of_cons in Hk as [Hne Hk].
      rewrite Hout by done. by apply list_lookup_insert_ne.
Qed.

Lemma assign_at_total (idx : list nat) (v : A) (arr : list A) :
  Forall (fun k => k < length arr) idx ->
  exists arr', assign_at idx v arr = Ok arr'.
Proof.
  unfold assign_at. intros Hidx; revert arr Hidx.
  induction idx as [|i idx IH]; intros arr Hidx; simpl; [eauto|].
  apply Forall_cons in Hidx as [Hi Hidx].
  rewrite decide_True by done. rewrite bind_ret. apply IH.
  by rewrite length_insert.
Qed.

Lemma assign_at_where_zero (v : A) (x d : list A) :
  length x = length d ->
  assign_at (np_where_zero d) v x = Ok (with_sentinel v x d).
Proof.
  intros Hl.
  destruct (assign_at_total (np_where_zero d) v x) as [x' Hx'].
  { apply Forall_forall. intros k (b & Hb & _)%elem_of_np_where_zero.
    rewrite Hl. by eapply lookup_lt_Some. }
  rewrite Hx'. f_equal.
  destruct (assign_at_spec _ _ _ _ Hx') as (Hlen & Hin & Hout).
  apply list_eq; intros k. unfold with_sentinel.
  rewrite lookup_zip_with.
  destruct (d !! k) as [b|] eqn:Eb.
  - destruct (lookup_lt_is_Some_2 x k) as [a Ha].
    { rewrite Hl. by eapply lookup_lt_Some. }
    rewrite Ha. simpl. destruct (feqb b fzero) eqn:Ez.
    + apply Hin, elem_of_np_where_zero. eauto.
    + rewrite Hout, Ha; [done|].
      intros (b' & Hb' & Hz)%elem_of_np_where_zero. congruence.
  - apply lookup_ge_None_1 in Eb.
    rewrite (lookup_ge_None_2 x') by lia.
    by rewrite (lookup_ge_None_2 x) by lia.
Qed.

End Assign.

(** ** What [stack_backscal] and [setup_counts_vectors] compute *)

Section BackscalStage.
Context {A : Type} `{Scalar A}.

Lemma backscal_array_valid (n : nat) (v : PHACountsSpectrum A) :
  valid_pha n v -> is_Some (backscal v) ->
  backscal_array v = Ok (backscal_values v)
  /\ length (backscal_values v) = n.
Proof.
  intros (He & _ & _ & Hb) [b Eb].
  unfold backscal_values, backscal_array, nbins. rewrite Eb in *.
  destruct b as [b|bs]; [|done]. split; [done|].
  rewrite length_replicate, He. lia.
Qed.

Lemma total_livetime_complete (n t : nat)
      (l : list (SpectrumObservation A)) :
  Forall (complete_obs n t) l ->
  total_livetime l = Ok (np_sum (livetime_or_zero <$> l)).
Proof.
  intros Hl. unfold total_livetime.
  assert (mapM obs_livetime l = Ok (livetime_or_zero <$> l)) as Hm;
    [|by rewrite Hm].
  induction Hl as [|o l Ho _ IH]; [done|].
  rewrite mapM_cons_result, IH, fmap_cons.
  destruct Ho as [_ _ _ [x Hx] _ _].
  unfold obs_livetime, livetime_or_zero. by rewrite Hx.
Qed.

Lemma off_vectors_complete (n t : nat) (l : list (SpectrumObservation A)) :
  Forall (complete_obs n t) l ->
  off_vector <$> l = Some <$> omap off_vector l
  /\ Forall (valid_pha n) (omap off_vector l)
  /\ counts_in_safe_range <$> omap off_vector l = off_counts <$> l.
Proof.
  induction 1 as [|o l Ho _ (IH1 & IH2 & IH3)]; [done|].
  destruct Ho as [_ (off & Eoff & Hoff & _) _ _ _ _].
  assert (omap off_vector (o :: l) = off :: omap off_vector l) as ->.
  { change (omap off_vector (o :: l))
      with (match off_vector o with
            | Some y => y :: omap off_vector l
            | None => omap off_vector l
            end).
    by rewrite Eoff. }
  assert (off_counts o = counts_in_safe_range off) as Ho
    by (unfold off_counts; by rewrite Eoff).
  rewrite !fmap_cons, IH1, IH3, Eoff, Ho.
  split; [done|]. split; [by constructor | done].
Qed.

Lemma stack_backscal_loop (n t : nat) (l : list (SpectrumObservation A)) :
  Forall (complete_obs n t) l ->
  for_each stack_backscal_step l (replicate n fzero, replicate n fzero)
  = Ok (sum_arrays n (weighted_backscal_on <$> l),
        sum_arrays n (weighted_backscal_off <$> l)).
Proof.
  intros Hl.
  set (step := fun (acc : list A * list A) (o : SpectrumObservation A) =>
                 (zip_with fadd acc.1 (weighted_backscal_on o),
                  zip_with fadd acc.2 (weighted_backscal_off o))).
  edestruct (for_each_foldl
               (fun acc : list A * list A =>
                  length acc.1 = n /\ length acc.2 = n)
               stack_backscal_step step l) as [-> _].
  - intros [a b] o Hin [Ha Hb]; simpl in Ha, Hb.
    rewrite Forall_forall in Hl.
    destruct (Hl o Hin) as [Hon (off & Eoff & Hoff & Hboff) Hbon _ _ _].
    destruct (backscal_array_valid n _ Hon Hbon) as [Eon Lon].
    destruct (backscal_array_valid n _ Hoff Hboff) as [Eof Lof].
    assert (length (counts_in_safe_range off) = n) as Lc.
    { rewrite counts_in_safe_range_length. apply Hoff. }
    unfold stack_backscal_step. rewrite Eon, bind_ret, Eoff. simpl attr.
    rewrite bind_ret, broadcast_same, bind_ret by lia. simpl fst.
    rewrite inplace_same, bind_ret by (rewrite length_zip_with; lia).
    rewrite Eof, bind_ret, broadcast_same, bind_ret by lia. simpl snd.
    rewrite inplace_same, bind_ret by (rewrite length_zip_with; lia).
    unfold step, weighted_backscal_on, weighted_backscal_off, off_counts.
    rewrite Eoff. simpl. split; [done|].
    rewrite !length_zip_with. lia.
  - simpl. by rewrite !length_replicate.
  - unfold step, sum_arrays.
    rewrite <- (foldl_map (zip_with fadd) weighted_backscal_on).
    rewrite <- (foldl_map (zip_with fadd) weighted_backscal_off).
    set (f := fun (a : list A) (o : SpectrumObservation A) =>
                zip_with fadd a (weighted_backscal_on o)).
    set (g := fun (a : list A) (o : SpectrumObservation A) =>
                zip_with fadd a (weighted_backscal_off o)).
    rewrite <- (foldl_fst f g l _ (replicate n fzero)) at 1.
    rewrite <- (foldl_snd f g l (replicate n fzero)) at 1.
    by destruct (foldl _ _ l).
Qed.

End BackscalStage.

Section CountsStageClosed.
Context {A : Type} `{Scalar A}.

Lemma stacked_off_data_length (n t : nat) (off0 : PHACountsSpectrum A)
      (l : list (SpectrumObservation A)) :
  Forall (complete_obs n t) l -> length (data (stacked_off n off0 l)) = n.
Proof.
  intros Hl. destruct (off_vectors_complete n t l Hl) as (_ & Hv & _).
  simpl. apply sum_arrays_length. rewrite Forall_fmap.
  eapply Forall_impl; [exact Hv|]. intros v (_ & Hd & _); simpl.
  by rewrite counts_in_safe_range_length.
Qed.

Lemma weighted_backscal_length (n t : nat)
      (l : list (SpectrumObservation A)) :
  Forall (complete_obs n t) l ->
  Forall (fun y => length y = n) (weighted_backscal_on <$> l)
  /\ Forall (fun y => length y = n) (weighted_backscal_off <$> l).
Proof.
  intros Hl. rewrite !Forall_fmap.
  split; (eapply Forall_impl; [exact Hl|]); intros o Ho; simpl;
    destruct Ho as [Hon (off & Eoff & Hoff & Hboff) Hbon _ _ _];
    destruct (backscal_array_valid n _ Hon Hbon) as [_ Lon];
    destruct (backscal_array_valid n _ Hoff Hboff) as [_ Lof];
    unfold weighted_backscal_on, weighted_backscal_off, off_counts;
    rewrite Eoff, length_zip_with, counts_in_safe_range_length;
    destruct Hoff as (_ & -> & _); lia.
Qed.

Lemma stack_counts_vectors_closed (n t : nat)
      (o0 : SpectrumObservation A) (rest : list (SpectrumObservation A))
      (off0 : PHACountsSpectrum A) :
  Forall (complete_obs n t) (o0 :: rest) ->
  off_vector o0 = Some off0 ->
  stack_counts_vectors (init (o0 :: rest))
  = Ok (counts_stage n o0 off0 (o0 :: rest)).
Proof.
  intros Hl Eoff0.
  assert (length (e_reco o0) = S n) as He.
  { apply Forall_cons in Hl as [[(? & _) _ _ _ _ _] _]. done. }
  remember (o0 :: rest) as l eqn:El.
  destruct (off_vectors_complete n t l Hl) as (Eoffs & Hoffs & _).
  assert (omap off_vector l = off0 :: omap off_vector rest) as Eom.
  { rewrite El.
    change (omap off_vector (o0 :: rest))
      with (match off_vector o0 with
            | Some y => y :: omap off_vector rest
            | None => omap off_vector rest
            end).
    by rewrite Eoff0. }
  assert (Forall (valid_pha n) (on_vector <$> l)) as Hons.
  { rewrite Forall_fmap. eapply Forall_impl; [exact Hl|].
    by intros o [? _ _ _ _ _]. }
  assert (on_vector <$> l = on_vector o0 :: (on_vector <$> rest)) as Eon
    by (by rewrite El).
  pose proof (stacked_off_data_length n t off0 l Hl) as Loff.
  destruct (weighted_backscal_length n t l Hl) as [Lwon Lwoff].
  unfold stack_counts_vectors.
  (* stack_on_vector *)
  unfold stack_on_vector at 1. cbn [obs_list init].
  assert (map (fun o => Some (on_vector o)) l
          = Some <$> (on_vector o0 :: (on_vector <$> rest))) as ->.
  { change (map (fun o => Some (on_vector o)) l)
      with ((Some ∘ on_vector) <$> l).
    by rewrite list_fmap_compose, Eon. }
  rewrite (stack_counts_spectrum_closed n) by (by rewrite <- Eon).
  rewrite !bind_ret, <- Eon. fold (stacked_on n o0 l).
  (* stack_off_vector *)
  unfold stack_off_vector at 1. cbn [obs_list init set_stacked_on_vector].
  assert (map off_vector l = Some <$> off0 :: omap off_vector rest) as ->.
  { rewrite <- Eom. exact Eoffs. }
  rewrite (stack_counts_spectrum_closed n) by (by rewrite <- Eom).
  rewrite !bind_ret, <- Eom. fold (stacked_off n off0 l).
  (* stack_backscal *)
  unfold stack_backscal at 1.
  cbn [obs_list init set_stacked_on_vector set_stacked_off_vector
       stacked_off_vector attr].
  assert (py_index l 0 = Ok o0) as Hidx by (rewrite El; apply py_index_0).
  rewrite Hidx, bind_ret.
  rewrite (np_zeros_nbins _ n He), bind_ret.
  rewrite (stack_backscal_loop n t l Hl), !bind_ret.
  cbn [fst snd].
  rewrite !broadcast_same, !bind_ret
    by (rewrite sum_arrays_length by done; lia).
  rewrite !assign_at_where_zero, !bind_ret
    by (rewrite length_zip_with, sum_arrays_length by done; lia).
  (* setup_counts_vectors *)
  unfold setup_counts_vectors.
  cbn [obs_list init set_stacked_on_vector set_stacked_off_vector
       set_stacked_bkscal stacked_off_vector stacked_on_vector attr
       stacked_bkscal_on stacked_bkscal_off].
  rewrite (total_livetime_complete n t l Hl), !bind_ret.
  reflexivity.
Qed.

End CountsStageClosed.

(** ** 2-d arrays *)

Lemma mapM_Ok_all {A B} (f : A -> result B) (g : A -> B) (l : list A) :
  (forall x, x ∈ l -> f x = Ok (g x)) -> mapM f l = Ok (g <$> l).
Proof.
  induction l as [|x l IH]; intros Hf; [done|].
  rewrite mapM_cons_result, Hf, bind_ret by left.
  rewrite IH; [done|]. intros y Hy. apply Hf. by right.
Qed.

Lemma mapM_Ok_Forall2 {A B} (f : A -> result B) (l : list A) (k : list B) :
  mapM f l = Ok k -> Forall2 (fun x y => f x = Ok y) l k.
Proof.
  revert k; induction l as [|x l IH]; intros k.
  - intros [= <-]. constructor.
  - rewrite mapM_cons_result. intros Hk. inv_ok. subst k.
    constructor; auto.
Qed.

Section Matrices.
Context {A : Type} `{Scalar A}.

Lemma column_length (r c j : nat) (m : list (list A)) :
  shape r c m -> j < c -> length (omap (fun row => row !! j) m) = r.
Proof.
  intros [<- Hrows] Hj. induction Hrows as [|row m Hrow _ IH]; [done|].
  destruct (lookup_lt_is_Some_2 row j) as [x Hx]; [lia|].
  change (omap (fun row => row !! j) (row :: m))
    with (match row !! j with
          | Some y => y :: omap (fun row => row !! j) m
          | None => omap (fun row => row !! j) m
          end).
  rewrite Hx. simpl. by rewrite IH.
Qed.


Lemma ncols_shape (r c : nat) (m : list (list A)) :
  shape r c m -> 0 < r -> ncols m = c.
Proof.
  intros [Hr Hrows] Hpos. destruct m as [|row m]; simpl in *; [lia|].
  by apply Forall_cons in Hrows as [? _].
Qed.

Lemma transpose_shape (r c : nat) (m : list (list A)) :
  shape r c m -> 0 < r -> shape c r (transpose m).
Proof.
  intros Hm Hpos. unfold transpose. rewrite (ncols_shape r c m Hm Hpos).
  split; [by rewrite length_map, length_seq|].
  rewrite Forall_fmap. apply Forall_forall. intros j Hj.
  apply elem_of_seq in Hj. simpl. apply (column_length r c); [done | lia].
Qed.



(** Every entry of the transpose is an entry of the matrix. *)
Lemma transpose_entries (m : list (list A)) (col : list A) (x : A) :
  col ∈ transpose m -> x ∈ col -> exists row, row ∈ m /\ x ∈ row.
Proof.
  unfold transpose. intros (j & -> & _)%list_elem_of_fmap Hx.
  apply list_elem_of_omap in Hx as (row & Hrow & Hx).
  exists row. split; [done|]. by eapply list_elem_of_lookup_2.
Qed.

Lemma broadcast_rows_same (f : A -> A -> A) (r c : nat)
      (m : list (list A)) (v : list A) :
  shape r c m -> length v = c ->
  broadcast_rows f m v = Ok ((fun row => zip_with f row v) <$> m).
Proof.
  intros [_ Hrows] Hv. unfold broadcast_rows. apply mapM_Ok_all.
  intros row Hrow. rewrite Forall_forall in Hrows.
  apply broadcast_same. rewrite (Hrows row Hrow). done.
Qed.

Lemma inplace2_same (f : A -> A -> A) (r c : nat) (acc m : list (list A)) :
  shape r c acc -> shape r c m ->
  inplace2 f acc m = Ok (zip_with (zip_with f) acc m).
Proof.
  intros [La Ha] [Lm Hm]. unfold inplace2.
  rewrite decide_True by lia.
  rewrite (mapM_Ok_all _ (fun p => zip_with f p.1 p.2)).
  - f_equal. clear. revert m; induction acc as [|a acc IH];
      intros [|b m]; simpl; [done..|]. by rewrite IH.
  - intros [a b] Hin. simpl. apply inplace_same.
    rewrite Forall_forall in Ha, Hm.
    apply elem_of_zip_l in Hin as Hina. apply elem_of_zip_r in Hin as Hinb.
    simpl in *. rewrite (Ha a Hina), (Hm b Hinb). done.
Qed.

Lemma zip_with_shape (f : A -> A -> A) (r c : nat) (x y : list (list A)) :
  shape r c x -> shape r c y -> shape r c (zip_with (zip_with f) x y).
Proof.
  intros [Lx Hx] [Ly Hy]. split; [rewrite length_zip_with; lia|].
  apply Forall_forall. intros row Hrow.
  apply list_elem_of_lookup in Hrow as [i Hi].
  apply lookup_zip_with_Some in Hi as (a & b & -> & Ha & Hb).
  rewrite Forall_forall in Hx, Hy. rewrite length_zip_with.
  rewrite (Hx a), (Hy b); [lia | by eapply list_elem_of_lookup_2..].
Qed.

End Matrices.

(** ** What [stack_aeff] and [stack_edisp] compute *)

Section ResponseStage.
Context {A : Type} `{Scalar A}.

Lemma aefft_current_complete (n t : nat) (o : SpectrumObservation A) :
  complete_obs n t o ->
  aefft_current o = Ok (exposure o) /\ length (exposure o) = t.
Proof.
  intros [_ _ _ [x Hx] [_ Ha] _].
  unfold aefft_current, exposure, livetime_or_zero. rewrite Hx.
  split; [done|]. unfold evaluate_fill_nan. by rewrite !length_map.
Qed.

Lemma exposure_lengths (n t : nat) (l : list (SpectrumObservation A)) :
  Forall (complete_obs n t) l ->
  Forall (fun y => length y = t) (exposure <$> l).
Proof.
  intros Hl. rewrite Forall_fmap. eapply Forall_impl; [exact Hl|].
  intros o Ho. by destruct (aefft_current_complete n t o Ho).
Qed.

Lemma stack_aeff_loop (n t : nat) (l : list (SpectrumObservation A)) :
  Forall (complete_obs n t) l ->
  for_each stack_aeff_step l (replicate t fzero)
  = Ok (total_exposure t l).
Proof.
  intros Hl.
  edestruct (for_each_foldl (fun acc : list A => length acc = t)
               stack_aeff_step
               (fun acc o => zip_with fadd acc (exposure o)) l) as [-> _].
  - intros a o Hin Ha. rewrite Forall_forall in Hl.
    destruct (aefft_current_complete n t o (Hl o Hin)) as [Ec Lc].
    unfold stack_aeff_step. rewrite Ec, bind_ret.
    rewrite inplace_same by lia. split; [done|].
    rewrite length_zip_with. lia.
  - by rewrite length_replicate.
  - unfold total_exposure, sum_arrays.
    by rewrite (foldl_map (zip_with fadd) exposure).
Qed.

Lemma stack_aeff_closed (n t : nat) (o0 : SpectrumObservation A)
      (rest : list (SpectrumObservation A))
      (s : SpectrumObservationStacker A) :
  Forall (complete_obs n t) (o0 :: rest) ->
  obs_list s = o0 :: rest ->
  stack_aeff s
  = Ok (set_stacked_aeff
          (Some (stacked_aeff_closed t o0 (o0 :: rest))) s).
Proof.
  intros Hl Es. unfold stack_aeff. rewrite Es, py_index_0, !bind_ret.
  assert (length (e_true o0) = S t) as He.
  { apply Forall_cons in Hl as [[_ _ _ _ [? _] _] _]. done. }
  rewrite (np_zeros_nbins _ t He), bind_ret.
  rewrite (stack_aeff_loop n t _ Hl), bind_ret.
  rewrite (total_livetime_complete n t _ Hl), bind_ret. done.
Qed.

Lemma pdf_in_safe_range_shape (n t : nat) (e : EnergyDispersion A)
      (lo hi : option A) :
  valid_edisp n t e -> shape t n (pdf_in_safe_range e lo hi).
Proof.
  intros [Lt Hrows]. unfold pdf_in_safe_range.
  split; [by rewrite length_map|].
  rewrite Forall_fmap. eapply Forall_impl; [exact Hrows|].
  intros row Hrow. simpl. by rewrite length_imap.
Qed.

Lemma exposed_pdf_shape (n t : nat) (o : SpectrumObservation A) :
  0 < t -> complete_obs n t o -> shape n t (exposed_pdf o).
Proof.
  intros Ht Ho. destruct (aefft_current_complete n t o Ho) as [_ Lc].
  destruct Ho as [_ _ _ _ _ (e & Ee & He)].
  unfold exposed_pdf. rewrite Ee.
  destruct (transpose_shape t n _
              (pdf_in_safe_range_shape n t e (lo_threshold o)
                 (hi_threshold o) He) Ht) as [Lr Hrows].
  split; [by rewrite length_fmap|].
  rewrite Forall_fmap. eapply Forall_impl; [exact Hrows|].
  intros row Hrow. cbv beta in Hrow. unfold compose.
  rewrite length_zip_with. lia.
Qed.

Lemma zeros2_shape (n t : nat) :
  shape n t (replicate n (replicate t (fzero : A))).
Proof.
  split; [by rewrite length_replicate|].
  apply Forall_replicate. by rewrite length_replicate.
Qed.

Lemma sum_arrays2_shape (n t : nat) (ms : list (list (list A))) :
  Forall (shape n t) ms -> shape n t (sum_arrays2 n t ms).
Proof.
  unfold sum_arrays2. generalize (zeros2_shape n t).
  generalize (replicate n (replicate t (fzero : A))).
  intros acc Hacc Hms; revert acc Hacc.
  induction Hms as [|m ms Hm _ IH]; intros acc Hacc; simpl; [done|].
  apply IH. by apply zip_with_shape.
Qed.

Lemma stack_edisp_loop (n t : nat) (l : list (SpectrumObservation A)) :
  0 < t -> Forall (complete_obs n t) l ->
  for_each stack_edisp_step l
           (replicate t fzero, replicate n (replicate t fzero))
  = Ok (total_exposure t l, sum_arrays2 n t (exposed_pdf <$> l)).
Proof.
  intros Ht Hl.
  set (f := fun (a : list A) (o : SpectrumObservation A) =>
              zip_with fadd a (exposure o)).
  set (g := fun (m : list (list A)) (o : SpectrumObservation A) =>
              zip_with (zip_with fadd) m (exposed_pdf o)).
  edestruct (for_each_foldl
               (fun acc : list A * list (list A) =>
                  length acc.1 = t /\ shape n t acc.2)
               stack_edisp_step
               (fun acc o => (f acc.1 o, g acc.2 o)) l) as [-> _].
  - intros [a m] o Hin [La Sm]; simpl in La, Sm.
    rewrite Forall_forall in Hl. pose proof (Hl o Hin) as Ho.
    destruct (aefft_current_complete n t o Ho) as [Ec Lc].
    pose proof (exposed_pdf_shape n t o Ht Ho) as Sp.
    destruct Ho as [_ _ _ _ _ (e & Ee & He)].
    unfold stack_edisp_step. rewrite Ec, bind_ret. cbn [fst snd].
    rewrite inplace_same, bind_ret by lia.
    rewrite Ee. cbn [attr]. rewrite bind_ret.
    rewrite (broadcast_rows_same fmul n t), bind_ret;
      [|apply (transpose_shape t n);
         [by apply pdf_in_safe_range_shape | done] | done].
    assert (exposed_pdf o
            = (fun row => zip_with fmul row (exposure o))
                <$> transpose (pdf_in_safe_range e (lo_threshold o)
                                                 (hi_threshold o))) as Ep
      by (unfold exposed_pdf; by rewrite Ee).
    rewrite <- Ep.
    rewrite (inplace2_same fadd n t), bind_ret by done.
    split; [done|]. unfold f, g; cbn [fst snd]. split.
    + rewrite length_zip_with. lia.
    + by apply zip_with_shape.
  - cbn [fst snd]. split; [by rewrite length_replicate|].
    apply zeros2_shape.
  - unfold total_exposure, sum_arrays, sum_arrays2.
    rewrite <- (foldl_map (zip_with fadd) exposure).
    rewrite <- (foldl_map (zip_with (zip_with fadd)) exposed_pdf).
    fold f g.
    rewrite <- (foldl_fst f g l _ (replicate n (replicate t fzero))) at 1.
    rewrite <- (foldl_snd f g l (replicate t fzero)) at 1.
    by destruct (foldl _ _ l).
Qed.

End ResponseStage.

(** ** What [run] computes on well-formed input *)

Section RunClosed.
Context {A : Type} `{Scalar A}.

Lemma np_zeros2_nbins (reco true : list A) (n t : nat) :
  length reco = S n -> length true = S t ->
  np_zeros2 (nbins reco) (nbins true)
  = Ok (replicate n (replicate t fzero)).
Proof.
  intros Hn Ht. unfold np_zeros2.
  rewrite (np_zeros_nbins _ t Ht), bind_ret.
  unfold nbins. rewrite Hn, decide_False by lia. do 2 f_equal. lia.
Qed.

Lemma stack_edisp_closed (n t : nat) (o0 : SpectrumObservation A)
      (rest : list (SpectrumObservation A))
      (s : SpectrumObservationStacker A) :
  0 < t -> Forall (complete_obs n t) (o0 :: rest) ->
  obs_list s = o0 :: rest ->
  stack_edisp s
  = Ok (set_stacked_edisp
          (Some (stacked_edisp_closed n t o0 (o0 :: rest))) s).
Proof.
  intros Ht Hl Es. unfold stack_edisp. rewrite Es, py_index_0, !bind_ret.
  assert (length (e_reco o0) = S n /\ length (e_true o0) = S t)
    as [Hr Htr].
  { apply Forall_cons in Hl as [[(? & _) _ _ _ [? _] _] _]. done. }
  rewrite (np_zeros_nbins _ t Htr), bind_ret.
  rewrite (np_zeros2_nbins _ _ n t Hr Htr), bind_ret.
  rewrite (stack_edisp_loop n t _ Ht Hl), bind_ret. cbn [fst snd].
  rewrite (broadcast_rows_same fdiv n t), bind_ret; [done| |].
  - apply sum_arrays2_shape. rewrite Forall_fmap.
    eapply Forall_impl; [exact Hl|]. intros o Ho.
    by apply exposed_pdf_shape.
  - apply sum_arrays_length. by apply (exposure_lengths n).
Qed.

Lemma run_closed (n t : nat) (o0 : SpectrumObservation A)
      (rest : list (SpectrumObservation A)) (off0 : PHACountsSpectrum A) :
  0 < t -> Forall (complete_obs n t) (o0 :: rest) ->
  off_vector o0 = Some off0 ->
  run (init (o0 :: rest))
  = Ok (set_stacked_obs
          (Some (stacked_closed n t o0 off0 (o0 :: rest)))
          (set_stacked_edisp
             (Some (stacked_edisp_closed n t o0 (o0 :: rest)))
             (set_stacked_aeff
                (Some (stacked_aeff_closed t o0 (o0 :: rest)))
                (counts_stage n o0 off0 (o0 :: rest))))).
Proof.
  intros Ht Hl Eoff. unfold run.
  rewrite (stack_counts_vectors_closed n t _ _ off0 Hl Eoff), bind_ret.
  rewrite (stack_aeff_closed n t o0 rest) by done. rewrite bind_ret.
  rewrite (stack_edisp_closed n t o0 rest) by done. rewrite bind_ret.
  reflexivity.
Qed.

(** On well-formed input the stacker returns, with the closed form. *)
Lemma stack_closed (n t : nat) (o0 : SpectrumObservation A)
      (rest : list (SpectrumObservation A)) (off0 : PHACountsSpectrum A) :
  0 < t -> Forall (complete_obs n t) (o0 :: rest) ->
  off_vector o0 = Some off0 ->
  stack (o0 :: rest) = Ok (Some (stacked_closed n t o0 off0 (o0 :: rest))).
Proof.
  intros Ht Hl Eoff. unfold stack.
  by rewrite (run_closed n t o0 rest off0 Ht Hl Eoff).
Qed.

End RunClosed.

(** * The worked example of two observations *)

Section WorkedExample.
Variables (edges : list float) (q : list bool) (lo hi : option float).
Variable as_array : bool.
Variables (a1 a2 : EffectiveAreaTable float).
Variables (e1 e2 : EnergyDispersion float) (i1 i2 : PyId).
Variable t : nat.
Local Abbreviation worked_pha := (worked_pha edges q lo hi as_array).
Local Abbreviation worked_obs1 :=
  (worked_obs1 edges q lo hi as_array a1 e1 i1).
Local Abbreviation worked_obs2 :=
  (worked_obs2 edges q lo hi as_array a2 e2 i2).
Hypothesis two_bins : length edges = 3.
Hypothesis two_flags : length q = 2.
Hypothesis all_safe :
  forall k, k < 2 ->
    in_thresholds lo hi edges k && negb (flagged q k) = true.
Hypothesis true_bins : 0 < t.
Hypothesis valid_a1 : valid_aeff t a1.
Hypothesis valid_a2 : valid_aeff t a2.
Hypothesis valid_e1 : valid_edisp 2 t e1.
Hypothesis valid_e2 : valid_edisp 2 t e2.

Lemma worked_counts_in_safe_range (x y l : float) (i : PyId) :
  counts_in_safe_range (worked_pha [x; y] l i) = [x; y].
Proof. by apply counts_in_safe_range_all_safe. Qed.

Lemma worked_pha_valid (x y l : float) (i : PyId) :
  valid_pha 2 (worked_pha [x; y] l i).
Proof.
  unfold valid_pha, worked_pha, uniform_backscal; simpl.
  by destruct as_array.
Qed.

Lemma worked_backscal_values (x y l : float) (i : PyId) :
  backscal_values (worked_pha [x; y] l i) = [0.1; 0.1]%float.
Proof.
  unfold backscal_values, backscal_array, worked_pha, uniform_backscal,
    nbins; simpl.
  destruct as_array; [done|]. by rewrite two_bins.
Qed.

Lemma worked_complete :
  Forall (complete_obs 2 t) [worked_obs1; worked_obs2].
Proof.
  apply Forall_cons; split; [|apply Forall_cons; split; [|constructor]].
  all: constructor; simpl; eauto using worked_pha_valid.
  all: eexists; split; [done|]; split; eauto using worked_pha_valid.
Qed.

(** C1. Stacking obs1 (on [10, 20], off [5, 5], backscal 0.1, 100 s) and
    obs2 (on [30, 40], off [10, 10], backscal 0.1, 200 s), all bins safe,
    returns a stacked observation with on counts [40, 60], off counts
    [15, 15], livetime 300 s and backscal_on 0.1 in both bins. *)
Theorem worked_example_two_observations :
  exists o off,
    stack [worked_obs1; worked_obs2] = Ok (Some o) /\
    off_vector o = Some off /\
    data (on_vector o) = [40; 60]%float /\
    data off = [15; 15]%float /\
    livetime (on_vector o) = Some 300%float /\
    livetime off = Some 300%float /\
    backscal (on_vector o) = Some (BackscalArray [0.1; 0.1]%float).
Proof.
  eexists _, _. split.
  { apply (stack_closed 2 t); [done | apply worked_complete | done]. }
  split; [done|].
  cbn [stacked_closed on_vector off_vector with_attrs data livetime backscal
       stacked_on stacked_off stacked_counts].
  unfold bkscal_on_closed, stacked_backscal.
  cbn [stacked_off stacked_counts data].
  assert (omap off_vector [worked_obs1; worked_obs2]
          = [worked_pha [5; 5]%float 100%float i1;
             worked_pha [10; 10]%float 200%float i2]) as -> by done.
  rewrite !fmap_cons, !fmap_nil.
  unfold weighted_backscal_on, off_counts.
  cbn [worked_obs1 worked_obs2 on_vector off_vector].
  rewrite !worked_counts_in_safe_range, !worked_backscal_values.
  repeat split; vm_compute; reflexivity.
Qed.

End WorkedExample.

Lemma worked_example_two_observations_witness :
  exists o off,
    stack [Example.obs1; Example.obs2] = Ok (Some o) /\
    off_vector o = Some off /\
    data (on_vector o) = [40; 60]%float /\
    data off = [15; 15]%float /\
    livetime (on_vector o) = Some 300%float /\
    livetime off = Some 300%float /\
    backscal (on_vector o) = Some (BackscalArray [0.1; 0.1]%float).
Proof.
  apply (worked_example_two_observations
           Example.edges [false; false] (Some 1%float) (Some 100%float)
           false Example.area Example.area Example.matrix Example.matrix
           (IdInt 1) (IdInt 2) 2).
  - reflexivity.
  - reflexivity.
  - intros [|[|k]] Hk; [reflexivity | reflexivity | lia].
  - lia.
  - split; reflexivity.
  - split; reflexivity.
  - split; [reflexivity | repeat constructor].
  - split; [reflexivity | repeat constructor].
Defined.

(** * The counts stage on arbitrary input *)

Section CountsStageInversion.
Context {A : Type} `{Scalar A}.

(** What a successful [stack_backscal] has done. *)
Lemma stack_backscal_Ok (s s' : SpectrumObservationStacker A) :
  stack_backscal s = Ok s' ->
  exists off don doff bon boff,
    stacked_off_vector s = Some off /\
    assign_at (np_where_zero (data off)) alpha_correction don = Ok bon /\
    assign_at (np_where_zero (data off)) alpha_correction doff = Ok boff /\
    s' = set_stacked_bkscal (Some bon) (Some boff) s.
Proof.
  unfold stack_backscal. intros Hs.
  apply bind_Ok in Hs as (o0 & _ & Hs).
  apply bind_Ok in Hs as (zeros & _ & Hs).
  apply bind_Ok in Hs as (acc & _ & Hs).
  apply bind_Ok in Hs as (off & Eoff%attr_Ok & Hs).
  apply bind_Ok in Hs as (don & _ & Hs).
  apply bind_Ok in Hs as (doff & _ & Hs).
  apply bind_Ok in Hs as (bon & Eon & Hs).
  apply bind_Ok in Hs as (boff & Eof & Hs).
  injection Hs as <-. by exists off, don, doff, bon, boff.
Qed.

(** What a successful [stack_counts_vectors] has done, from a fresh
    stacker. *)
Lemma stack_counts_vectors_Ok (l : list (SpectrumObservation A))
      (s : SpectrumObservationStacker A) :
  stack_counts_vectors (init l) = Ok s ->
  exists on off don doff bon boff total,
    stack_counts_spectrum (map (fun o => Some (on_vector o)) l) = Ok on /\
    stack_counts_spectrum (map off_vector l) = Ok off /\
    assign_at (np_where_zero (data off)) alpha_correction don = Ok bon /\
    assign_at (np_where_zero (data off)) alpha_correction doff = Ok boff /\
    total_livetime l = Ok total /\
    obs_list s = l /\
    stacked_on_vector s
    = Some (with_attrs on total (Some bon) (list_obs_id l)) /\
    stacked_off_vector s
    = Some (with_attrs off total (Some boff) (list_obs_id l)) /\
    stacked_bkscal_on s = Some bon /\ stacked_bkscal_off s = Some boff.
Proof.
  unfold stack_counts_vectors. intros Hs.
  apply bind_Ok in Hs as (s1 & E1 & Hs).
  apply bind_Ok in Hs as (s2 & E2 & Hs).
  apply bind_Ok in Hs as (s3 & E3 & Hs).
  unfold stack_on_vector in E1.
  apply bind_Ok in E1 as (on & Eon & E1). injection E1 as <-.
  unfold stack_off_vector in E2.
  apply bind_Ok in E2 as (off & Eoff & E2). injection E2 as <-.
  apply stack_backscal_Ok in E3
    as (off' & don & doff & bon & boff & Eo & Ebon & Eboff & ->).
  cbn in Eo. injection Eo as <-.
  unfold setup_counts_vectors in Hs.
  apply bind_Ok in Hs as (total & Et & Hs).
  apply bind_Ok in Hs as (on' & Eon'%attr_Ok & Hs).
  apply bind_Ok in Hs as (off' & Eoff'%attr_Ok & Hs).
  cbn in Eon', Eoff', Et, Hs. injection Eon' as <-. injection Eoff' as <-.
  injection Hs as <-.
  exists on, off, don, doff, bon, boff, total. cbn. done.
Qed.

(** The stacked observation returned by [stack], in terms of the counts
    stage. *)
Lemma stack_Ok (l : list (SpectrumObservation A))
      (o : SpectrumObservation A) :
  stack l = Ok (Some o) ->
  exists on off don doff bon boff total,
    stack_counts_spectrum (map (fun o => Some (on_vector o)) l) = Ok on /\
    stack_counts_spectrum (map off_vector l) = Ok off /\
    assign_at (np_where_zero (data off)) alpha_correction don = Ok bon /\
    assign_at (np_where_zero (data off)) alpha_correction doff = Ok boff /\
    total_livetime l = Ok total /\
    on_vector o = with_attrs on total (Some bon) (list_obs_id l) /\
    off_vector o
    = Some (with_attrs off total (Some boff) (list_obs_id l)).
Proof.
  unfold stack. intros Hs. apply bind_Ok in Hs as (s & Hrun & Hs).
  injection Hs as Hs.
  apply run_stages in Hrun as (s1 & on' & a & e & E1 & _ & _ & Eon & ->).
  cbn in Hs. injection Hs as <-.
  apply stack_counts_vectors_Ok in E1
    as (on & off & don & doff & bon & boff & total & ? & ? & ? & ? & ?
        & ? & Eon1 & Eoff1 & _).
  rewrite Eon1 in Eon. injection Eon as <-.
  exists on, off, don, doff, bon, boff, total. cbn. by rewrite Eoff1.
Qed.
End CountsStageInversion.

(** * Backscal sentinel *)

Section Sentinel.
Context {A : Type} `{Scalar A}.

(** C3. Where the stacked off counts of bin [k] compare equal to zero, the
    stacked backscal of the on vector and of the off vector are both [-1]
    at [k]; and on every well-formed list the stacker returns, whatever the
    counts are, so a zero denominator raises nothing. *)
Theorem backscal_sentinel_where_no_off_counts :
  (forall (l : list (SpectrumObservation A)) o off k x,
      stack l = Ok (Some o) -> off_vector o = Some off ->
      data off !! k = Some x -> feqb x fzero = true ->
      exists bon boff,
        backscal (on_vector o) = Some (BackscalArray bon) /\
        backscal off = Some (BackscalArray boff) /\
        bon !! k = Some fneg_one /\ boff !! k = Some fneg_one) /\
  (forall n t (o0 : SpectrumObservation A) rest,
      0 < t -> Forall (complete_obs n t) (o0 :: rest) ->
      exists o, stack (o0 :: rest) = Ok (Some o)).
Proof.
  split.
  - intros l o off k x Hs Hoff Hk Hz.
    apply stack_Ok in Hs
      as (on & off' & don & doff & bon & boff & total & _ & _ & Ebon & Eboff
          & _ & Eon & Eoff).
    rewrite Eoff in Hoff. injection Hoff as <-. cbn in Hk.
    exists bon, boff. rewrite Eon. cbn. split; [done|]. split; [done|].
    assert (k ∈ np_where_zero (data off')) as Hin
      by (apply elem_of_np_where_zero; eauto).
    destruct (assign_at_spec _ _ _ _ Ebon) as (_ & Hon & _).
    destruct (assign_at_spec _ _ _ _ Eboff) as (_ & Hof & _).
    split; [by apply Hon | by apply Hof].
  - intros n t o0 rest Ht Hl.
    pose proof Hl as Hl0. apply Forall_cons in Hl0 as [Ho0 _].
    destruct Ho0 as [_ (off0 & Eoff0 & _) _ _ _ _].
    eexists. by apply (stack_closed n t o0 rest off0).
Qed.
End Sentinel.

(** * The sum of an array *)

Section PairwiseFuel.
Context {A : Type} `{Scalar A}.

(** The fuel of [pairwise_sum] is enough as soon as it is the number of
    values: more fuel gives the same sum. *)
Lemma pairwise_sum_fuel (fuel fuel' : nat) (a : list A) :
  length a <= fuel -> length a <= fuel' ->
  pairwise_sum fuel a = pairwise_sum fuel' a.
Proof.
  revert fuel' a. induction fuel as [|fuel IH]; intros fuel' a Hf Hf'.
  - destruct a; [|cbn in Hf; lia]. by destruct fuel'.
  - destruct fuel' as [|fuel'].
    { destruct a; [done|cbn in Hf'; lia]. }
    cbn [pairwise_sum]. case_decide as Hn; [|done]. cbn zeta.
    assert (0 < length a / 2 - (length a / 2) mod 8 < length a) as Hn2.
    { pose proof (Nat.mod_upper_bound (length a / 2) 8).
      pose proof (Nat.div_mod_eq (length a) 2).
      pose proof (Nat.mod_upper_bound (length a) 2). lia. }
    f_equal; apply IH; rewrite ?length_take, ?length_drop; lia.
Qed.

(** Up to seven values are added one after the other. *)
Lemma np_sum_below_eight (a : list A) :
  length a < 8 -> np_sum a = fadd fzero (loop_sum a).
Proof.
  intros Hn. unfold np_sum. f_equal.
  transitivity (pairwise_block a).
  - destruct (length a) eqn:E; cbn [pairwise_sum]; [done|].
    case_decide; [lia|done].
  - do 8 (destruct a as [|? a]; [done|]). cbn in Hn. lia.
Qed.
End PairwiseFuel.

(** From eight values on [np.sum] adds in another order than a loop. *)
Lemma np_sum_of_eight_values :
  np_sum [0.1; 0.2; 0.3; 0.4; 0.5; 0.6; 0.7; 0.8]%float = 3.6%float /\
  loop_sum [0.1; 0.2; 0.3; 0.4; 0.5; 0.6; 0.7; 0.8]%float
  = 3.5999999999999996%float.
Proof. by vm_compute. Qed.

(** * Safe-range exclusion *)

Section SafeRangeExclusion.
Context {A : Type} `{Scalar A}.

Lemma stack_counts_loop_data (n k : nat)
      (specs : list (option (PHACountsSpectrum A)))
      (d : list A) (q : list bool) (acc : list A * list bool) (a : A) :
  for_each stack_counts_step specs (d, q) = Ok acc ->
  Forall (on_grid n) specs -> length d = n -> d !! k = Some a ->
  acc.1 !! k = Some (foldl fadd a (contribution k <$> specs)).
Proof.
  intros Hloop Hgrid; revert d q a Hloop.
  induction Hgrid as [|spec specs Hspec _ IH]; intros d q a Hloop Hd Ha.
  - injection Hloop as <-. done.
  - simpl in Hloop. apply bind_Ok in Hloop as ([d' q'] & Hstep & Hloop).
    unfold stack_counts_step in Hstep.
    apply bind_Ok in Hstep as (v & ->%attr_Ok & Hstep).
    apply bind_Ok in Hstep as (d1 & Hd1 & Hstep).
    apply bind_Ok in Hstep as (q1 & _ & Hstep).
    injection Hstep as <- <-. cbn in Hd1.
    destruct (Hspec v eq_refl) as [_ Lv].
    rewrite inplace_same in Hd1
      by (rewrite counts_in_safe_range_length; lia).
    injection Hd1 as <-.
    assert (k < n) as Hk by (rewrite <- Hd; by eapply lookup_lt_Some).
    destruct (lookup_lt_is_Some_2 (counts_in_safe_range v) k) as [c Hc].
    { rewrite counts_in_safe_range_length. lia. }
    rewrite fmap_cons. cbn [foldl contribution]. rewrite Hc. cbn [default].
    apply (IH (zip_with fadd d (counts_in_safe_range v)) q1); [done | |].
    + rewrite length_zip_with, counts_in_safe_range_length. lia.
    + by rewrite lookup_zip_with, Ha, Hc.
Qed.

(** Bin [k] of the stacked counts is the sum, in list order, of what each
    spectrum contributes to it. *)
Lemma stack_counts_spectrum_data (n k : nat)
      (specs : list (option (PHACountsSpectrum A)))
      (v : PHACountsSpectrum A) :
  stack_counts_spectrum specs = Ok v ->
  Forall (on_grid n) specs -> k < n ->
  data v !! k = Some (loop_sum (contribution k <$> specs)).
Proof.
  unfold stack_counts_spectrum. intros Hs Hgrid Hk.
  apply bind_Ok in Hs as (first & Hfirst & Hs).
  apply bind_Ok in Hs as (template & ->%attr_Ok & Hs).
  apply bind_Ok in Hs as (zeros & Hz & Hs).
  apply bind_Ok in Hs as (acc & Hloop & Hs). injection Hs as <-. cbn.
  assert (length (energy template) = S n) as He.
  { apply py_index_0_Ok in Hfirst as [rest ->].
    apply Forall_cons in Hgrid as [Hg0 _].
    by destruct (Hg0 template eq_refl). }
  rewrite (np_zeros_nbins _ n He) in Hz. injection Hz as <-.
  apply (stack_counts_loop_data n k _ _ _ _ fzero Hloop Hgrid).
  - by rewrite length_replicate.
  - by apply lookup_replicate_2.
Qed.

(** C4, as amended. With all spectra on one grid of [n] bins, bin [k] of
    the stacked on counts (off counts) is the sum over the observations of
    their on (off) contributions, and the contribution of an observation
    whose on (off) vector has bin [k] outside the safe range of that vector
    is exactly zero, whatever the other observations hold there. *)
Theorem unsafe_bins_contribute_zero (n k : nat)
        (l : list (SpectrumObservation A)) (o : SpectrumObservation A) :
  stack l = Ok (Some o) ->
  Forall (fun a => on_grid n (Some (on_vector a)) /\ on_grid n (off_vector a))
         l ->
  k < n ->
  exists off,
    off_vector o = Some off /\
    data (on_vector o) !! k = Some (loop_sum (on_contribution k <$> l)) /\
    data off !! k = Some (loop_sum (off_contribution k <$> l)) /\
    forall a, a ∈ l ->
      (bin_safe (on_vector a) k = false -> on_contribution k a = fzero) /\
      (forall v, off_vector a = Some v -> bin_safe v k = false ->
                 off_contribution k a = fzero).
Proof.
  intros Hs Hgrid Hk.
  apply stack_Ok in Hs
    as (on & off & don & doff & bon & boff & total & Hon & Hoff & _ & _
        & _ & Eon & Eoff).
  eexists. split; [exact Eoff|]. rewrite Eon. cbn [with_attrs data].
  split; [|split].
  - rewrite (stack_counts_spectrum_data n k _ _ Hon); [| |done].
    + by rewrite <- list_fmap_compose.
    + rewrite Forall_fmap. eapply Forall_impl; [exact Hgrid|].
      by intros a [? _].
  - rewrite (stack_counts_spectrum_data n k _ _ Hoff); [| |done].
    + by rewrite <- list_fmap_compose.
    + rewrite Forall_fmap. eapply Forall_impl; [exact Hgrid|].
      by intros a [_ ?].
  - intros a Ha. rewrite Forall_forall in Hgrid.
    destruct (Hgrid a Ha) as [Gon Goff]. split.
    + intros Hun. unfold on_contribution, contribution.
      destruct (Gon _ eq_refl) as [_ Ld].
      rewrite counts_in_safe_range_unsafe; [done | lia | done].
    + intros v Ev Hun. unfold off_contribution, contribution. rewrite Ev.
      destruct (Goff _ Ev) as [_ Ld].
      rewrite counts_in_safe_range_unsafe; [done | lia | done].
Qed.

End SafeRangeExclusion.

Lemma backscal_sentinel_where_no_off_counts_witness :
  exists o off bon boff,
    stack Example.no_off_counts = Ok (Some o) /\
    off_vector o = Some off /\
    data off !! 0 = Some 0%float /\
    backscal (on_vector o) = Some (BackscalArray bon) /\
    backscal off = Some (BackscalArray boff) /\
    bon !! 0 = Some (-1)%float /\ boff !! 0 = Some (-1)%float.
Proof.
  destruct (proj2 (backscal_sentinel_where_no_off_counts (A:=float))
              2 2 (Example.obs [10; 20] [0; 5] [false; false] 0.1 100 1)%float
              [Example.obs [30; 40] [0; 10] [false; false] 0.1 200 2]%float)
    as [o Ho].
  { lia. }
  { repeat constructor; cbn; eauto.
    all: eexists; split; [reflexivity|]; repeat constructor; eauto. }
  assert (exists off, off_vector o = Some off /\ data off !! 0 = Some 0%float)
    as (off & Eoff & E0).
  { revert Ho. vm_compute. intros [= <-]. eauto. }
  destruct (proj1 (backscal_sentinel_where_no_off_counts (A:=float))
              _ o off 0 0%float Ho Eoff E0 eq_refl)
    as (bon & boff & ? & ? & ? & ?).
  exists o, off, bon, boff. done.
Defined.

Lemma unsafe_bins_contribute_zero_witness :
  exists o off,
    stack Example.one_flagged = Ok (Some o) /\
    off_vector o = Some off /\
    data (on_vector o) !! 1
    = Some (loop_sum (on_contribution 1 <$> Example.one_flagged)) /\
    data off !! 1
    = Some (loop_sum (off_contribution 1 <$> Example.one_flagged)) /\
    forall a, a ∈ Example.one_flagged ->
      (bin_safe (on_vector a) 1 = false -> on_contribution 1 a = 0%float) /\
      (forall v, off_vector a = Some v -> bin_safe v 1 = false ->
                 off_contribution 1 a = 0%float).
Proof.
  eexists.
  assert (stack Example.one_flagged = Ok (Some ?[o])) as Hs
    by (vm_compute; reflexivity).
  destruct (unsafe_bins_contribute_zero 2 1 _ _ Hs)
    as (off & ? & ? & ? & ?).
  { apply Forall_cons; split; [|apply Forall_cons; split; [|constructor]];
      (split; intros v [= <-]; done). }
  { lia. }
  exists off. done.
Defined.

(** C4 as stated fails for the off counts: each vector is masked with its
    own flags and thresholds. With bin 1 flagged in the on vector of an
    observation and not in its off vector, the observation adds nothing to
    bin 1 of the stacked on counts but its 5 off counts to bin 1 of the
    stacked off counts. *)
Lemma off_counts_follow_the_safe_range_of_the_off_vector :
  let l := [SafeRangeExample.on_flagged; SafeRangeExample.unflagged] in
  bin_safe (on_vector SafeRangeExample.on_flagged) 1 = false /\
  on_contribution 1 SafeRangeExample.on_flagged = 0%float /\
  off_contribution 1 SafeRangeExample.on_flagged = 5%float /\
  PrimFloat.eqb 5 0 = false /\
  exists o off,
    stack l = Ok (Some o) /\ off_vector o = Some off /\
    data (on_vector o) = [40; 40]%float /\ data off = [15; 15]%float.
Proof.
  intros l. do 4 (split; [vm_compute; reflexivity|]).
  eexists _, _. split; [vm_compute; reflexivity|].
  repeat split; vm_compute; reflexivity.
Qed.

(** * Statistics over a range of bins *)

Section StatsFacts.
Context {A : Type} `{Scalar A}.
Variable stack_alpha : list (SpectrumStats A) -> A * A.

Lemma elem_of_arange (a b i : Z) :
  i ∈ arange a b <-> (a <= i < b)%Z.
Proof.
  unfold arange. rewrite list_elem_of_fmap. split.
  - intros (k & -> & Hk%elem_of_seq). lia.
  - intros Hi. exists (Z.to_nat (i - a)). split; [lia|].
    apply elem_of_seq. lia.
Qed.

Lemma mapM_fmap_result {B C D} (f : C -> result D) (g : B -> C)
      (l : list B) :
  mapM f (g <$> l) = mapM (fun x => f (g x)) l.
Proof.
  induction l as [|x l IH]; [done|].
  by rewrite fmap_cons, !mapM_cons_result, IH.
Qed.

Lemma mapM_ext_result {B C} (f g : B -> result C) (l : list B) :
  (forall x, x ∈ l -> f x = g x) -> mapM f l = mapM g l.
Proof.
  induction l as [|x l IH]; intros Hfg; [done|].
  rewrite !mapM_cons_result, Hfg, IH; [done | | left].
  intros y Hy. apply Hfg. by right.
Qed.

(** The per-bin stats carry the integer counts of their bin. *)
Lemma stats_counts (o : SpectrumObservation A) (idx : Z)
      (st : SpectrumStats A) :
  stats o idx = Ok st ->
  int_at (data (on_vector o)) idx = Ok (n_on st) /\
  exists off, off_vector o = Some off /\
              int_at (data off) idx = Ok (n_off st).
Proof.
  unfold stats. intros Hs.
  apply bind_Ok in Hs as (e_min & _ & Hs).
  apply bind_Ok in Hs as (e_max & _ & Hs).
  apply bind_Ok in Hs as (non & Hon & Hs).
  apply bind_Ok in Hs as (off & Eoff%attr_Ok & Hs).
  apply bind_Ok in Hs as (noff & Hoff & Hs).
  apply bind_Ok in Hs as (bs_on & _ & Hs).
  apply bind_Ok in Hs as (aon & _ & Hs).
  apply bind_Ok in Hs as (bs_off & _ & Hs).
  apply bind_Ok in Hs as (aoff & _ & Hs).
  injection Hs as <-. cbn. eauto.
Qed.

Lemma stats_list_counts (o : SpectrumObservation A) (idx : list Z)
      (sl : list (SpectrumStats A)) :
  mapM (stats o) idx = Ok sl ->
  mapM (int_at (data (on_vector o))) idx = Ok (n_on <$> sl) /\
  (idx <> [] ->
   exists off, off_vector o = Some off /\
               mapM (int_at (data off)) idx = Ok (n_off <$> sl)).
Proof.
  revert sl; induction idx as [|i idx IH]; intros sl.
  - intros [= <-]. done.
  - rewrite mapM_cons_result. intros Hs.
    apply bind_Ok in Hs as (st & Hst & Hs).
    apply bind_Ok in Hs as (sl' & Hsl' & Hs). injection Hs as <-.
    destruct (stats_counts _ _ _ Hst) as (Hon & off & Eoff & Hoff).
    destruct (IH _ Hsl') as (IHon & IHoff).
    rewrite !mapM_cons_result, Hon, IHon. split; [done|].
    intros _. exists off. split; [done|].
    rewrite !mapM_cons_result, Hoff. rewrite bind_ret.
    destruct idx as [|j idx].
    + injection Hsl' as <-. done.
    + destruct IHoff as (off' & Eoff' & E); [done|].
      rewrite Eoff in Eoff'. injection Eoff' as <-. by rewrite E.
Qed.

(** Converting the counts bin by bin and taking a stretch of the result. *)
Lemma int_at_range (d : list A) (ns : list Z) (k m : nat) :
  mapM fint d = Ok ns -> k + m <= length d ->
  mapM (int_at d) (Z.of_nat <$> seq k m) = Ok (take m (drop k ns)).
Proof.
  intros Hns%mapM_Ok_Forall2. revert k.
  induction m as [|m IH]; intros k Hk; [done|].
  cbn [seq]. rewrite fmap_cons, mapM_cons_result.
  destruct (lookup_lt_is_Some_2 d k) as [x Hx]; [lia|].
  destruct (Forall2_lookup_l _ _ _ _ _ Hns Hx) as (z & Hz & Hxz).
  assert (int_at d (Z.of_nat k) = Ok z) as ->.
  { unfold int_at. by rewrite py_index_nat, Hx. }
  rewrite bind_ret, IH, bind_ret by lia.
  by rewrite (drop_S _ _ _ Hz).
Qed.
Lemma stats_in_range_Ok (o : SpectrumObservation A) (bin_min bin_max : Z)
      (st : SpectrumStats A) :
  stats_in_range stack_alpha o bin_min bin_max = Ok st ->
  exists sl e_min e_max,
    mapM (stats o) (arange bin_min bin_max) = Ok sl /\
    n_on st = sum_Z (n_on <$> sl) /\ n_off st = sum_Z (n_off <$> sl) /\
    py_index (e_reco o) bin_min = Ok e_min /\ energy_min st = Some e_min /\
    py_index (e_reco o) (bin_max + 1) = Ok e_max /\
    energy_max st = Some e_max.
Proof.
  unfold stats_in_range. intros Hs.
  apply bind_Ok in Hs as (sl & Hsl & Hs).
  apply bind_Ok in Hs as (stacked & Hst & Hs).
  apply bind_Ok in Hs as (e_min & Hmin & Hs).
  apply bind_Ok in Hs as (e_max & Hmax & Hs).
  injection Hs as <-. cbn.
  unfold stats_stack in Hst.
  apply bind_Ok in Hst as (lts & _ & Hst). injection Hst as <-. cbn.
  exists sl, e_min, e_max. done.
Qed.

(** C10. [stats_in_range] sums the per-bin statistics of the bins
    [bin_min .. bin_max - 1] only, bin [bin_max] is not among them, while
    the reported energy range runs from [e_reco[bin_min]] to
    [e_reco[bin_max + 1]]; so [total_stats], which is
    [stats_in_range(0, nbins - 1)], leaves out the counts of the last
    bin. *)
Theorem stats_in_range_excludes_bin_max :
  (forall (o : SpectrumObservation A) bin_min bin_max st,
      (bin_min < bin_max)%Z ->
      stats_in_range stack_alpha o bin_min bin_max = Ok st ->
      (forall i, i ∈ arange bin_min bin_max <-> (bin_min <= i < bin_max)%Z) /\
      counts_between (data (on_vector o)) bin_min bin_max = Ok (n_on st) /\
      (exists off, off_vector o = Some off /\
                   counts_between (data off) bin_min bin_max
                   = Ok (n_off st)) /\
      (exists e, py_index (e_reco o) bin_min = Ok e /\
                 energy_min st = Some e) /\
      (exists e, py_index (e_reco o) (bin_max + 1) = Ok e /\
                 energy_max st = Some e)) /\
  (forall (o : SpectrumObservation A) st ns,
      total_stats stack_alpha o = Ok st ->
      mapM fint (data (on_vector o)) = Ok ns ->
      Z.of_nat (length (data (on_vector o))) = obs_nbins o ->
      total_stats stack_alpha o
      = stats_in_range stack_alpha o 0 (obs_nbins o - 1) /\
      n_on st = sum_Z (take (length ns - 1) ns)).
Proof.
  split.
  - intros o bin_min bin_max st Hlt Hs.
    apply stats_in_range_Ok in Hs
      as (sl & e_min & e_max & Hsl & Hon & Hoff & Hmin & Emin & Hmax & Emax).
    destruct (stats_list_counts _ _ _ Hsl) as (Con & Coff).
    split; [apply elem_of_arange|].
    split; [unfold counts_between; by rewrite Con, Hon|].
    split; [|split; eauto].
    destruct Coff as (off & Eoff & Coff).
    { intros Hnil. assert (bin_min ∈ arange bin_min bin_max) as Hin
        by (apply elem_of_arange; lia).
      rewrite Hnil in Hin. by apply elem_of_nil in Hin. }
    exists off. split; [done|]. unfold counts_between. by rewrite Coff, Hoff.
  - intros o st ns Hs Hns Hlen. split; [done|].
    unfold total_stats in Hs.
    apply stats_in_range_Ok in Hs as (sl & _ & _ & Hsl & Hon & _).
    destruct (stats_list_counts _ _ _ Hsl) as (Con & _).
    assert (arange 0 (obs_nbins o - 1)
            = Z.of_nat <$> seq 0 (length ns - 1)) as Ear.
    { unfold arange. apply mapM_Ok_Forall2, Forall2_length in Hns.
      replace (Z.to_nat (obs_nbins o - 1 - 0)) with (length ns - 1) by lia.
      apply list_fmap_ext. intros. lia. }
    rewrite Ear in Con.
    rewrite (int_at_range _ ns 0 (length ns - 1) Hns) in Con.
    + injection Con as Con. by rewrite Hon, <- Con.
    + apply mapM_Ok_Forall2, Forall2_length in Hns. lia.
Qed.
End StatsFacts.

Lemma stats_in_range_excludes_bin_max_witness :
  let alpha := fun _ : list (SpectrumStats float) => (0.1, 0.1)%float in
  exists st off,
    total_stats alpha Example.obs1 = Ok st /\
    total_stats alpha Example.obs1 = stats_in_range alpha Example.obs1 0 1 /\
    (forall i, i ∈ arange 0 1 <-> (0 <= i < 1)%Z) /\
    counts_between (data (on_vector Example.obs1)) 0 1 = Ok (n_on st) /\
    off_vector Example.obs1 = Some off /\
    counts_between (data off) 0 1 = Ok (n_off st) /\
    n_on st = 10%Z /\ n_off st = 5%Z /\
    energy_min st = Some 1%float /\ energy_max st = Some 100%float.
Proof.
  intros alpha.
  assert (total_stats alpha Example.obs1 = Ok ?[st]) as Hs
    by (vm_compute; reflexivity).
  destruct (proj1 (stats_in_range_excludes_bin_max alpha)
              Example.obs1 0%Z 1%Z _ ltac:(lia) Hs)
    as (Har & Hon & (off & Eoff & Hoff) & _ & _).
  destruct (proj2 (stats_in_range_excludes_bin_max alpha)
              Example.obs1 _ [10; 20]%Z Hs eq_refl eq_refl) as (Ht & Hn).
  eexists _, off. split; [exact Hs|]. split; [exact Ht|].
  split; [exact Har|]. split; [exact Hon|]. split; [exact Eoff|].
  split; [exact Hoff|]. repeat split; reflexivity.
Defined.

(** * Reading an observation *)

Section ReadFacts.
Context {A : Type}.

(** C7, as amended. When the PHA file and its ARF file can be read, [read]
    returns an observation whatever becomes of the two other companions,
    provided they are of the right kind when present: a missing background
    file leaves [off_vector] absent and a missing RMF file leaves [edisp]
    absent. *)
Theorem read_recovers_from_missing_companions
        (fs : gmap string (File A)) (dirname name : string)
        (on : PHAFile A) (a : EffectiveAreaTable A) :
  fs !! path_join dirname name = Some (FilePHA on) ->
  fs !! path_join dirname (arffile on) = Some (FileARF a) ->
  (forall f, fs !! path_join dirname (rmffile on) = Some f ->
             exists e, f = FileRMF e) ->
  (forall f, fs !! path_join dirname (bkgfile on) = Some f ->
             exists p, f = FilePHA p) ->
  exists o,
    read fs dirname name = Ok o /\
    on_vector o = pha_spectrum on /\ aeff o = a /\
    (fs !! path_join dirname (rmffile on) = None -> edisp o = None) /\
    (fs !! path_join dirname (bkgfile on) = None -> off_vector o = None).
Proof.
  intros Hpha Harf Hrmf Hbkg.
  assert (read_pha fs (path_join dirname name) = Ok on) as Eon
    by (unfold read_pha; by rewrite Hpha).
  assert (read_arf fs (path_join dirname (arffile on)) = Ok a) as Ea
    by (unfold read_arf; by rewrite Harf).
  assert (exists d, except_IOError
                      (read_rmf fs (path_join dirname (rmffile on))) = Ok d
                    /\ (fs !! path_join dirname (rmffile on) = None ->
                        d = None)) as (d & Ed & Hd).
  { unfold read_rmf.
    destruct (fs !! path_join dirname (rmffile on)) as [f|] eqn:Er.
    - destruct (Hrmf f eq_refl) as [e ->]. by eexists.
    - by eexists. }
  assert (exists p, except_IOError
                      (read_pha fs (path_join dirname (bkgfile on))) = Ok p
                    /\ (fs !! path_join dirname (bkgfile on) = None ->
                        p = None)) as (p & Ep & Hp).
  { unfold read_pha.
    destruct (fs !! path_join dirname (bkgfile on)) as [f|] eqn:Eb.
    - destruct (Hbkg f eq_refl) as [g ->]. by eexists.
    - by eexists. }
  unfold read. rewrite Eon, bind_ret, Ed, bind_ret, Ep, bind_ret, Ea, bind_ret.
  eexists. split; [done|]. cbn. repeat split; [done|].
  intros Hb. by rewrite (Hp Hb).
Qed.
End ReadFacts.

Lemma read_recovers_from_missing_companions_witness :
  exists o,
    read ReadExample.with_arf "data" "pha_obs1.fits" = Ok o /\
    on_vector o = pha_spectrum ReadExample.on_file /\
    aeff o = Example.area /\ edisp o = None /\ off_vector o = None.
Proof.
  destruct (read_recovers_from_missing_companions
              ReadExample.with_arf "data" "pha_obs1.fits"
              ReadExample.on_file Example.area)
    as (o & Ho & Hon & Ha & He & Hoff).
  - vm_compute. reflexivity.
  - vm_compute. reflexivity.
  - intros f Hf. vm_compute in Hf. discriminate.
  - intros f Hf. vm_compute in Hf. discriminate.
  - exists o. repeat split; [done..| |].
    + apply He. vm_compute. reflexivity.
    + apply Hoff. vm_compute. reflexivity.
Defined.

(** C7 as stated fails: with the background file missing and the ARF file
    missing as well, the [IOError] of the ARF reader surfaces. *)
Lemma read_raises_when_arf_is_missing :
  ReadExample.pha_only !! path_join "data" (bkgfile ReadExample.on_file)
  = None /\
  read ReadExample.pha_only "data" "pha_obs1.fits" = Raise IOError.
Proof. split; vm_compute; reflexivity. Qed.

(** * Exact arithmetic *)

#[global] Instance Qc_exact : ExactScalar Qc.
Proof.
  split; cbn.
  - apply Qcplus_comm.
  - apply Qcplus_assoc.
  - apply Qcplus_0_l.
  - intros x y Hy. apply Qcdiv_mult_l. intros ->. discriminate Hy.
  - done.
  - done.
Qed.

(** ** Folds over permuted lists *)

Lemma foldl_permutation {A B} (f : A -> B -> A) (l l' : list B) :
  (forall a x y, f (f a x) y = f (f a y) x) ->
  l ≡ₚ l' -> forall a, foldl f a l = foldl f a l'.
Proof.
  intros Hf. induction 1 as [|x l l' _ IH|x y l|l1 l2 l3 _ IH1 _ IH2];
    intros a; simpl.
  - done.
  - apply IH.
  - by rewrite Hf.
  - by rewrite IH1.
Qed.

Lemma zip_with_right_comm {A} (f : A -> A -> A) (a x y : list A) :
  (forall a x y : A, f (f a x) y = f (f a y) x) ->
  zip_with f (zip_with f a x) y = zip_with f (zip_with f a y) x.
Proof.
  intros Hf. apply list_eq; intros i. rewrite !lookup_zip_with.
  destruct (a !! i), (x !! i), (y !! i); simpl; try done.
  by rewrite Hf.
Qed.

Section Permuted.
Context {A : Type} `{ExactScalar A}.

Lemma fadd_right_comm (a x y : A) :
  fadd (fadd a x) y = fadd (fadd a y) x.
Proof. by rewrite <- !fadd_assoc, (fadd_comm x y). Qed.

Lemma loop_sum_permutation (l l' : list A) :
  l ≡ₚ l' -> loop_sum l = loop_sum l'.
Proof.
  intros Hp. unfold loop_sum.
  apply foldl_permutation; [apply fadd_right_comm | done].
Qed.

Lemma fadd_zero_r (x : A) : fadd x fzero = x.
Proof. by rewrite fadd_comm, fadd_zero_l. Qed.

Lemma foldl_fadd_from (x : A) (l : list A) :
  foldl fadd x l = fadd x (loop_sum l).
Proof.
  unfold loop_sum. revert x.
  induction l as [|y l IH] using rev_ind; intros x.
  - cbn. by rewrite fadd_zero_r.
  - rewrite !foldl_app. cbn. by rewrite fadd_assoc, <- IH.
Qed.

Lemma loop_sum_app (l1 l2 : list A) :
  loop_sum (l1 ++ l2) = fadd (loop_sum l1) (loop_sum l2).
Proof.
  unfold loop_sum at 1. rewrite foldl_app. apply foldl_fadd_from.
Qed.

Lemma loop_sum_cons (x : A) (l : list A) :
  loop_sum (x :: l) = fadd x (loop_sum l).
Proof.
  unfold loop_sum at 1. cbn. by rewrite fadd_zero_l, foldl_fadd_from.
Qed.

Lemma fadd_interchange (a b c d : A) :
  fadd (fadd a b) (fadd c d) = fadd (fadd a c) (fadd b d).
Proof.
  rewrite !fadd_assoc. f_equal. apply fadd_right_comm.
Qed.

Lemma sum_accumulators_exact (r0 r1 r2 r3 r4 r5 r6 r7 : A) :
  sum_accumulators (r0, r1, r2, r3, r4, r5, r6, r7)
  = loop_sum [r0; r1; r2; r3; r4; r5; r6; r7].
Proof.
  unfold sum_accumulators, loop_sum. cbn.
  by rewrite !fadd_assoc, fadd_zero_l.
Qed.

Lemma add_groups_exact (a : list A) :
  forall r r' rest,
    add_groups r a = (r', rest) ->
    fadd (sum_accumulators r') (loop_sum rest)
    = fadd (sum_accumulators r) (loop_sum a).
Proof.
  induction a as [a IH] using (induction_ltof1 _ length).
  unfold ltof in IH.
  intros r r' rest Ea.
  destruct a as [|x0 [|x1 [|x2 [|x3 [|x4 [|x5 [|x6 [|x7 a']]]]]]]];
    try (injection Ea as <- <-; done).
  destruct r as [[[[[[[r0 r1] r2] r3] r4] r5] r6] r7].
  cbn [add_groups] in Ea.
  apply IH in Ea; [|cbn; lia]. rewrite Ea.
  change (x0 :: x1 :: x2 :: x3 :: x4 :: x5 :: x6 :: x7 :: a')
    with ([x0; x1; x2; x3; x4; x5; x6; x7] ++ a').
  rewrite loop_sum_app, fadd_assoc. f_equal.
  rewrite <- (sum_accumulators_exact x0).
  unfold sum_accumulators.
  match goal with |- ?s = _ => set (lhs := s) end.
  rewrite (fadd_interchange (fadd (fadd r0 r1) (fadd r2 r3))).
  rewrite (fadd_interchange (fadd r0 r1)), (fadd_interchange (fadd r4 r5)).
  by rewrite (fadd_interchange r0), (fadd_interchange r2),
    (fadd_interchange r4), (fadd_interchange r6).
Qed.

Lemma pairwise_block_exact (a : list A) : pairwise_block a = loop_sum a.
Proof.
  destruct a as [|x0 [|x1 [|x2 [|x3 [|x4 [|x5 [|x6 [|x7 a']]]]]]]];
    try done.
  unfold pairwise_block.
  destruct (add_groups _ a') as [r rest] eqn:Ea.
  apply add_groups_exact in Ea.
  rewrite foldl_fadd_from, Ea, sum_accumulators_exact.
  change (x0 :: x1 :: x2 :: x3 :: x4 :: x5 :: x6 :: x7 :: a')
    with ([x0; x1; x2; x3; x4; x5; x6; x7] ++ a').
  by rewrite loop_sum_app.
Qed.

Lemma pairwise_sum_exact (fuel : nat) (a : list A) :
  pairwise_sum fuel a = loop_sum a.
Proof.
  revert a. induction fuel as [|fuel IH]; intros a; cbn [pairwise_sum].
  - apply pairwise_block_exact.
  - case_decide; [|apply pairwise_block_exact].
    cbn zeta. rewrite !IH, <- loop_sum_app. by rewrite take_drop.
Qed.

(** In exact arithmetic [np.sum] is the sum in any order. *)
Lemma np_sum_exact (l : list A) : np_sum l = loop_sum l.
Proof. unfold np_sum. by rewrite fadd_zero_l, pairwise_sum_exact. Qed.

Lemma np_sum_permutation (l l' : list A) :
  l ≡ₚ l' -> np_sum l = np_sum l'.
Proof. rewrite !np_sum_exact. apply loop_sum_permutation. Qed.


Lemma sum_arrays_permutation (n : nat) (ls ls' : list (list A)) :
  ls ≡ₚ ls' -> sum_arrays n ls = sum_arrays n ls'.
Proof.
  intros Hp. unfold sum_arrays. apply foldl_permutation; [|done].
  intros. apply zip_with_right_comm, fadd_right_comm.
Qed.

Lemma sum_arrays2_permutation (n t : nat) (ms ms' : list (list (list A))) :
  ms ≡ₚ ms' -> sum_arrays2 n t ms = sum_arrays2 n t ms'.
Proof.
  intros Hp. unfold sum_arrays2. apply foldl_permutation; [|done].
  intros. apply zip_with_right_comm. intros.
  apply zip_with_right_comm, fadd_right_comm.
Qed.
End Permuted.

(** * Livetime *)

Lemma foldr_fadd_exact {A : Type} `{ExactScalar A} (l : list A) :
  loop_sum l = foldr fadd fzero l.
Proof.
  induction l as [|x l IH]; [done|]. by rewrite loop_sum_cons, IH.
Qed.

(** C6, as amended. Whenever the stacker returns, the stacked on vector and
    the stacked off vector carry one livetime, the value that [np.sum]
    returns for the livetimes of the observations in the order of the
    list. In exact arithmetic this value is the sum of the livetimes. *)
Theorem stacked_livetime_is_the_np_sum_of_the_livetimes :
  (forall (A : Type) (SA : Scalar A)
          (l : list (SpectrumObservation A)) (o : SpectrumObservation A),
      stack l = Ok (Some o) ->
      exists livetimes off,
        mapM obs_livetime l = Ok livetimes /\
        off_vector o = Some off /\
        livetime (on_vector o) = Some (np_sum livetimes) /\
        livetime off = Some (np_sum livetimes)) /\
  (forall (A : Type) (SA : Scalar A) (EA : ExactScalar A)
          (l : list (SpectrumObservation A)) (o : SpectrumObservation A),
      stack l = Ok (Some o) ->
      exists livetimes off,
        mapM obs_livetime l = Ok livetimes /\
        off_vector o = Some off /\
        livetime (on_vector o) = Some (foldr fadd fzero livetimes) /\
        livetime off = Some (foldr fadd fzero livetimes)).
Proof.
  assert (forall (A : Type) (SA : Scalar A)
                 (l : list (SpectrumObservation A)) o,
             stack l = Ok (Some o) ->
             exists livetimes off,
               mapM obs_livetime l = Ok livetimes /\
               off_vector o = Some off /\
               livetime (on_vector o) = Some (np_sum livetimes) /\
               livetime off = Some (np_sum livetimes)) as Hnp.
  { intros A SA l o Hs.
    apply stack_Ok in Hs
      as (on & off & don & doff & bon & boff & total & _ & _ & _ & _
          & Et & Eon & Eoff).
    unfold total_livetime in Et.
    apply bind_Ok in Et as (livetimes & Em & Et). injection Et as <-.
    exists livetimes, (with_attrs off (np_sum livetimes) (Some boff)
                                  (list_obs_id l)).
    rewrite Eon. done. }
  split; [exact Hnp|].
  intros A SA EA l o Hs.
  destruct (Hnp A SA l o Hs) as (livetimes & off & Em & Eoff & Eon & Et).
  exists livetimes, off.
  by rewrite <- foldr_fadd_exact, <- np_sum_exact.
Qed.

Lemma stacked_livetime_is_the_np_sum_of_the_livetimes_witness :
  (exists o off,
      stack [Example.obs1; Example.obs2] = Ok (Some o) /\
      off_vector o = Some off /\
      livetime (on_vector o) = Some 300%float /\
      livetime off = Some 300%float) /\
  (exists o off,
      stack [ExactExample.A; ExactExample.B; ExactExample.C] = Ok (Some o) /\
      off_vector o = Some off /\
      livetime (on_vector o) = Some (ExactExample.num 600 1) /\
      livetime off = Some (ExactExample.num 600 1)).
Proof.
  split.
  - eexists.
    assert (stack [Example.obs1; Example.obs2] = Ok (Some ?[o])) as Hs
      by (vm_compute; reflexivity).
    destruct (proj1 stacked_livetime_is_the_np_sum_of_the_livetimes
                _ _ _ _ Hs)
      as (livetimes & off & Em & Eoff & Eon & Et).
    injection Em as <-. exists off. done.
  - eexists.
    assert (stack [ExactExample.A; ExactExample.B; ExactExample.C]
            = Ok (Some ?[o])) as Hs
      by (vm_compute; reflexivity).
    destruct (proj2 stacked_livetime_is_the_np_sum_of_the_livetimes
                _ _ _ _ _ Hs)
      as (livetimes & off & Em & Eoff & Eon & Et).
    injection Em as <-. exists off. done.
Defined.

(** C6 as stated fails in binary64: the stacked livetime is rounded at each
    addition and depends on the order of the observations. For livetimes
    of 0.1 s, 0.2 s and 0.3 s it is 0.6000000000000001 s, for the same
    observations in reverse order it is 0.6 s, and neither is the sum of
    the three livetimes. *)
Lemma stacked_livetime_is_rounded :
  (exists o,
      stack [LivetimeExample.A; LivetimeExample.B; LivetimeExample.C]
      = Ok (Some o) /\
      livetime (on_vector o) = Some 0.6000000000000001%float) /\
  (exists o,
      stack [LivetimeExample.C; LivetimeExample.B; LivetimeExample.A]
      = Ok (Some o) /\
      livetime (on_vector o) = Some 0.6%float) /\
  PrimFloat.eqb 0.6000000000000001 0.6 = false /\
  exists t1 t2 t3 s s',
    float_value 0.1 = Some t1 /\ float_value 0.2 = Some t2 /\
    float_value 0.3 = Some t3 /\
    float_value 0.6000000000000001 = Some s /\
    float_value 0.6 = Some s' /\
    ~ Qeq s (Qplus (Qplus t1 t2) t3) /\
    ~ Qeq s' (Qplus (Qplus t1 t2) t3).
Proof.
  split; [eexists; split; vm_compute; reflexivity|].
  split; [eexists; split; vm_compute; reflexivity|].
  split; [vm_compute; reflexivity|].
  eexists _, _, _, _, _.
  do 5 (split; [vm_compute; reflexivity|]).
  split; intros Hq; apply Qeq_bool_iff in Hq; vm_compute in Hq;
    discriminate.
Qed.

Lemma or_arrays_permutation (n : nat) (ls ls' : list (list bool)) :
  ls ≡ₚ ls' -> or_arrays n ls = or_arrays n ls'.
Proof.
  intros Hp. unfold or_arrays. apply foldl_permutation; [|done].
  intros. apply zip_with_right_comm. by intros [] [] [].
Qed.

(** * Order of the observations *)

Section Order.
Context {A : Type} `{ExactScalar A}.

(** C5, as amended. In exact arithmetic, stacking a permutation of a list
    of well-formed observations on shared grids gives the same stacked on
    counts, off counts, quality flags, backscal arrays, effective area and
    energy dispersion, on the same grids, with the same livetime. *)
Theorem stacking_a_permutation_in_exact_arithmetic
        (n t : nat) (l l' : list (SpectrumObservation A)) :
  0 < t -> l <> [] -> Forall (complete_obs n t) l -> shared_grids l ->
  l ≡ₚ l' ->
  exists o o' off off' e e',
    stack l = Ok (Some o) /\ stack l' = Ok (Some o') /\
    off_vector o = Some off /\ off_vector o' = Some off' /\
    edisp o = Some e /\ edisp o' = Some e' /\
    data (on_vector o) = data (on_vector o') /\
    data off = data off' /\
    quality (on_vector o) = quality (on_vector o') /\
    quality off = quality off' /\
    backscal (on_vector o) = backscal (on_vector o') /\
    backscal off = backscal off' /\
    livetime (on_vector o) = livetime (on_vector o') /\
    aeff_data (aeff o) = aeff_data (aeff o') /\
    edisp_data e = edisp_data e' /\
    e_reco o = e_reco o' /\ e_true o = e_true o'.
Proof.
  intros Ht Hne Hl Hgrid Hp.
  assert (Forall (complete_obs n t) l') as Hl' by (by rewrite <- Hp).
  destruct l as [|o0 rest]; [done|].
  destruct l' as [|o0' rest'].
  { by apply Permutation_nil_r in Hp. }
  pose proof Hl as Hc. apply Forall_cons in Hc as [Hc _].
  destruct Hc as [_ (off0 & Eoff0 & _) _ _ _ _].
  pose proof Hl' as Hc'. apply Forall_cons in Hc' as [Hc' _].
  destruct Hc' as [_ (off0' & Eoff0' & _) _ _ _ _].
  destruct (Hgrid o0 o0') as [Hreco Htrue].
  { left. }
  { rewrite Hp. left. }
  eexists _, _, _, _, _, _.
  split; [by apply (stack_closed n t o0 rest off0)|].
  split; [by apply (stack_closed n t o0' rest' off0')|].
  cbn [stacked_closed off_vector edisp on_vector aeff].
  split; [done|]. split; [done|]. split; [done|]. split; [done|].
  remember (o0 :: rest) as l eqn:El. remember (o0' :: rest') as l' eqn:El'.
  clear El El' Hl Hl' Hgrid Hne.
  assert (np_sum (livetime_or_zero <$> l) = np_sum (livetime_or_zero <$> l'))
    as Elt by (apply np_sum_permutation; by rewrite Hp).
  assert (data (stacked_off n off0 l) = data (stacked_off n off0' l'))
    as Eoffd.
  { cbn. apply sum_arrays_permutation. by rewrite Hp. }
  assert (total_exposure t l = total_exposure t l') as Eexp.
  { apply sum_arrays_permutation. by rewrite Hp. }
  cbn [with_attrs data quality backscal livetime stacked_on stacked_off
       stacked_counts stacked_aeff_closed stacked_edisp_closed aeff_data
       edisp_data e_reco e_true energy aeff_energy].
  repeat split.
  - apply sum_arrays_permutation. by rewrite Hp.
  - apply sum_arrays_permutation. by rewrite Hp.
  - apply or_arrays_permutation. by rewrite Hp.
  - apply or_arrays_permutation. by rewrite Hp.
  - unfold bkscal_on_closed, stacked_backscal. rewrite Eoffd.
    do 4 f_equal. apply sum_arrays_permutation. by rewrite Hp.
  - unfold bkscal_off_closed, stacked_backscal. rewrite Eoffd.
    do 4 f_equal. apply sum_arrays_permutation. by rewrite Hp.
  - by rewrite Elt.
  - by rewrite Elt, Eexp.
  - rewrite Eexp. do 3 f_equal. apply sum_arrays2_permutation.
    by rewrite Hp.
  - done.
  - done.
Qed.
End Order.

Lemma exact_example_complete (on off : list Qc) (b t : Qc) (i : Z) :
  length on = 2 -> length off = 2 -> complete_obs 2 2 (ExactExample.obs on off b t i).
Proof.
  intros Hon Hoff. constructor; cbn; eauto.
  - by repeat split.
  - eexists. split; [done|]. split; [by repeat split | eauto].
  - by split.
  - eexists. split; [done|]. split; [done | by repeat constructor].
Qed.

Lemma stacking_a_permutation_in_exact_arithmetic_witness :
  let l := [ExactExample.A; ExactExample.B; ExactExample.C] in
  let l' := [ExactExample.C; ExactExample.A; ExactExample.B] in
  exists o o' off off' e e',
    stack l = Ok (Some o) /\ stack l' = Ok (Some o') /\
    off_vector o = Some off /\ off_vector o' = Some off' /\
    edisp o = Some e /\ edisp o' = Some e' /\
    data (on_vector o) = data (on_vector o') /\
    data off = data off' /\
    quality (on_vector o) = quality (on_vector o') /\
    quality off = quality off' /\
    backscal (on_vector o) = backscal (on_vector o') /\
    backscal off = backscal off' /\
    livetime (on_vector o) = livetime (on_vector o') /\
    aeff_data (aeff o) = aeff_data (aeff o') /\
    edisp_data e = edisp_data e' /\
    e_reco o = e_reco o' /\ e_true o = e_true o'.
Proof.
  intros l l'.
  apply (stacking_a_permutation_in_exact_arithmetic 2 2 l l').
  - lia.
  - discriminate.
  - repeat apply Forall_cons_2; [apply exact_example_complete; reflexivity..|].
    constructor.
  - intros o o' Ho Ho'. unfold l in Ho, Ho'.
    rewrite !elem_of_cons, elem_of_nil in Ho, Ho'.
    destruct Ho as [-> | [-> | [-> | []]]],
             Ho' as [-> | [-> | [-> | []]]]; split; reflexivity.
  - symmetry.
    apply (Permutation_cons_append [ExactExample.A; ExactExample.B]).
Defined.

(** C5 as stated fails in binary64: the sums are accumulated in list order
    and rounded at every step, so the stacked backscal of [A, B, C] and of
    [C, A, B] differ in the last bit. *)
Lemma stacking_order_matters_in_binary64 :
  let l := [OrderExample.A; OrderExample.B; OrderExample.C] in
  let l' := [OrderExample.C; OrderExample.A; OrderExample.B] in
  l ≡ₚ l' /\ shared_grids l /\
  OrderExample.first_backscal (stack l) = Some 0.23333333333333336%float /\
  OrderExample.first_backscal (stack l') = Some 0.23333333333333331%float /\
  PrimFloat.eqb 0.23333333333333336 0.23333333333333331 = false.
Proof.
  intros l l'. split; [|split].
  - symmetry.
    apply (Permutation_cons_append [OrderExample.A; OrderExample.B]).
  - intros o o' Ho Ho'. unfold l in Ho, Ho'.
    rewrite !elem_of_cons, elem_of_nil in Ho, Ho'.
    destruct Ho as [-> | [-> | [-> | []]]],
             Ho' as [-> | [-> | [-> | []]]]; split; reflexivity.
  - repeat split; vm_compute; reflexivity.
Qed.

(** * Stacking a single observation *)

Section Singleton.
Context {A : Type} `{ExactScalar A}.





End Singleton.



(** * Binary64 facts *)

Section FloatFacts.

Lemma iter_pos_invariant {B} (P : B -> Prop) (f : B -> B) (p : positive)
      (x : B) :
  (forall y, P y -> P (f y)) -> P x -> P (SpecFloat.iter_pos f p x).
Proof.
  intros Hf. revert x. induction p as [p IH|p IH|]; intros x Hx; cbn; auto.
Qed.

Lemma shr_1_nonneg (mrs : shr_record) :
  (0 <= shr_m mrs)%Z -> (0 <= shr_m (shr_1 mrs))%Z.
Proof.
  destruct mrs as [m r s]. cbn. intros Hm.
  destruct m as [|[p|p|]|p]; cbn; lia.
Qed.

Lemma shr_fexp_nonneg (prec emax m e : Z) (l : location) :
  (0 <= m)%Z -> (0 <= shr_m (shr_fexp prec emax m e l).1)%Z.
Proof.
  intros Hm. unfold shr_fexp, shr.
  assert (0 <= shr_m (shr_record_of_loc m l))%Z as H0
    by (destruct l as [|[]]; done).
  destruct (fexp prec emax (Zdigits2 m + e) - e)%Z as [|p|p]; cbn; try done.
  apply (iter_pos_invariant (fun mrs => (0 <= shr_m mrs)%Z));
    [apply shr_1_nonneg | done].
Qed.

Lemma round_nearest_even_nonneg (m : Z) (l : location) :
  (0 <= m)%Z -> (0 <= round_nearest_even m l)%Z.
Proof.
  intros Hm. destruct l as [|[]]; cbn; try lia.
  destruct (Z.even m); lia.
Qed.

(** Rounding a non-negative mantissa never produces NaN. *)
Lemma binary_round_aux_signed (prec emax : Z) (s : bool) (m e : Z)
      (l : location) :
  (0 <= m)%Z -> SF_signed s (binary_round_aux prec emax s m e l).
Proof.
  intros Hm. unfold binary_round_aux.
  pose proof (shr_fexp_nonneg prec emax m e l Hm) as H1.
  destruct (shr_fexp prec emax m e l) as [mrs' e'] eqn:E1. cbn in H1.
  pose proof (shr_fexp_nonneg prec emax
                (round_nearest_even (shr_m mrs') (loc_of_shr_record mrs'))
                e' loc_Exact
                (round_nearest_even_nonneg _ _ H1)) as H2.
  destruct (shr_fexp prec emax
              (round_nearest_even (shr_m mrs') (loc_of_shr_record mrs'))
              e' loc_Exact) as [mrs'' e''] eqn:E2. cbn in H2.
  destruct (shr_m mrs'') as [|p|p]; cbn; [done | | lia].
  destruct (e'' <=? emax - prec)%Z; done.
Qed.

Lemma binary_normalize_nonneg (prec emax m e : Z) :
  (0 <= m)%Z -> SF_nonneg (binary_normalize prec emax m e false).
Proof.
  intros Hm. unfold binary_normalize.
  destruct m as [|p|p]; [done| |lia].
  unfold binary_round.
  destruct (shl_align p e _) as [mz ez].
  pose proof (binary_round_aux_signed prec emax false (Zpos mz) ez loc_Exact
                ltac:(lia)) as Hs.
  by destruct (binary_round_aux _ _ _ _ _ _) as [| | |[]].
Qed.

Lemma SFadd_nonneg (prec emax : Z) (x y : spec_float) :
  SF_nonneg x -> SF_nonneg y -> SF_nonneg (SFadd prec emax x y).
Proof.
  destruct x as [sx|sx| |sx mx ex], y as [sy|sy| |sy my ey]; cbn;
    try done; try (by intros -> ->); try (by destruct sx, sy).
  intros -> ->. apply binary_normalize_nonneg. cbn. lia.
Qed.

(** A non-negative value times a positive finite one. *)
Lemma SFmul_nonneg (prec emax : Z) (x : spec_float) (m : positive) (e : Z) :
  SF_nonneg x -> SF_nonneg (SFmul prec emax x (S754_finite false m e)).
Proof.
  destruct x as [sx|sx| |sx mx ex]; cbn; try done.
  - by intros ->.
  - intros ->. cbn.
    pose proof (binary_round_aux_signed prec emax false
                  (Zpos (mx * m)) (ex + e) loc_Exact ltac:(lia)) as Hs.
    by destruct (binary_round_aux _ _ _ _ _ _) as [| | |[]].
Qed.

Lemma SFdiv_core_binary_nonneg (prec emax : Z) (m1 m2 : positive)
      (e1 e2 : Z) :
  (0 <= (SFdiv_core_binary prec emax (Zpos m1) e1 (Zpos m2) e2).1.1)%Z.
Proof.
  unfold SFdiv_core_binary.
  set (s := (e1 - e2 - _)%Z).
  set (m' := match s with Zpos _ => _ | Z0 => _ | Zneg _ => _ end).
  assert (0 <= m')%Z as Hm'.
  { unfold m'. destruct s; [lia | | lia]. apply Z.shiftl_nonneg. lia. }
  pose proof (Z_div_mod m' (Zpos m2) ltac:(lia)) as Hdiv.
  destruct (Z.div_eucl m' (Zpos m2)) as [q r]. cbn.
  destruct Hdiv as [Hq Hr]. nia.
Qed.

(** A value that is not NaN divided by a finite non-zero one is not NaN. *)
Lemma SFdiv_not_nan (prec emax : Z) (x : spec_float) (s : bool)
      (m : positive) (e : Z) :
  x <> S754_nan -> SFdiv prec emax x (S754_finite s m e) <> S754_nan.
Proof.
  destruct x as [sx|sx| |sx mx ex]; cbn; try done.
  intros _.
  pose proof (SFdiv_core_binary_nonneg prec emax mx m ex e) as Hq.
  destruct (SFdiv_core_binary prec emax (Zpos mx) ex (Zpos m) e)
    as [[mz ez] lz]. cbn in Hq.
  pose proof (binary_round_aux_signed prec emax (xorb sx s) mz ez lz Hq)
    as Hs.
  by destruct (binary_round_aux _ _ _ _ _ _).
Qed.

End FloatFacts.

Section PrimFloatFacts.
Open Scope float_scope.

Lemma SFcompare_refl (x : spec_float) :
  x <> S754_nan -> SFcompare x x = Some Eq.
Proof.
  destruct x as [s|s| |s m e]; cbn; try done.
  - by destruct s.
  - intros _. rewrite Z.compare_refl, Pos.compare_cont_refl. by destruct s.
Qed.

Lemma is_nan_Prim2SF (x : float) :
  is_nan x = true <-> Prim2SF x = S754_nan.
Proof.
  unfold is_nan. rewrite FloatAxioms.eqb_spec. unfold SFeqb. split.
  - intros Hx. destruct (Prim2SF x) as [s|s| |s m e] eqn:E; [| |done|];
      by rewrite SFcompare_refl in Hx.
  - by intros ->.
Qed.

Lemma is_nan_false_Prim2SF (x : float) :
  is_nan x = false <-> Prim2SF x <> S754_nan.
Proof.
  split.
  - intros Hf Hn. apply is_nan_Prim2SF in Hn. congruence.
  - intros Hne. destruct (is_nan x) eqn:E; [|done].
    by apply is_nan_Prim2SF in E.
Qed.

Lemma leb_zero_nonneg (x : float) :
  (0 <=? x) = true -> SF_nonneg (Prim2SF x).
Proof.
  rewrite FloatAxioms.leb_spec. change (Prim2SF 0) with (S754_zero false).
  unfold SFleb. destruct (Prim2SF x) as [s|s| |s m e]; cbn; try done.
  - by destruct s.
  - by destruct s.
Qed.

Lemma is_finite_Prim2SF (x : float) :
  is_finite x = true ->
  match Prim2SF x with
  | S754_zero _ | S754_finite _ _ _ => True
  | _ => False
  end.
Proof.
  unfold is_finite, is_infinity. intros Hf.
  apply negb_true_iff, orb_false_iff in Hf as [Hn Hi].
  apply is_nan_false_Prim2SF in Hn.
  rewrite FloatAxioms.eqb_spec, FloatAxioms.abs_spec in Hi.
  change (Prim2SF infinity) with (S754_infinity false) in Hi.
  by destruct (Prim2SF x) as [s|s| |s m e].
Qed.

Lemma finite_nonzero_Prim2SF (x : float) :
  is_finite x = true -> (x =? 0) = false ->
  exists s m e, Prim2SF x = S754_finite s m e.
Proof.
  intros Hf%is_finite_Prim2SF Hz. rewrite FloatAxioms.eqb_spec in Hz.
  change (Prim2SF 0) with (S754_zero false) in Hz.
  destruct (Prim2SF x) as [s|s| |s m e]; try done. eauto.
Qed.

Lemma finite_positive_Prim2SF (x : float) :
  is_finite x = true -> (0 <? x) = true ->
  exists m e, Prim2SF x = S754_finite false m e.
Proof.
  intros Hf%is_finite_Prim2SF Hp. rewrite FloatAxioms.ltb_spec in Hp.
  change (Prim2SF 0) with (S754_zero false) in Hp. unfold SFltb in Hp.
  destruct (Prim2SF x) as [s|s| |s m e]; try done.
  destruct s; [done | eauto].
Qed.

Lemma SF_nonneg_not_nan (x : spec_float) : SF_nonneg x -> x <> S754_nan.
Proof. by destruct x. Qed.

(** Adding non-negative floats gives a non-negative float, [+inf] on
    overflow. *)
Lemma add_nonneg (x y : float) :
  SF_nonneg (Prim2SF x) -> SF_nonneg (Prim2SF y) ->
  SF_nonneg (Prim2SF (x + y)).
Proof. rewrite FloatAxioms.add_spec. apply SFadd_nonneg. Qed.

Lemma mul_nonneg (x y : float) :
  SF_nonneg (Prim2SF x) -> is_finite y = true -> (0 <? y) = true ->
  SF_nonneg (Prim2SF (x * y)).
Proof.
  intros Hx Hf Hp. rewrite FloatAxioms.mul_spec.
  destruct (finite_positive_Prim2SF y Hf Hp) as (m & e & ->).
  by apply SFmul_nonneg.
Qed.

(** Dividing by a finite non-zero float produces NaN from NaN only. *)
Lemma div_not_nan (x y : float) :
  is_nan x = false -> is_finite y = true -> (y =? 0) = false ->
  is_nan (x / y) = false.
Proof.
  intros Hx%is_nan_false_Prim2SF Hf Hz.
  apply is_nan_false_Prim2SF. rewrite FloatAxioms.div_spec.
  destruct (finite_nonzero_Prim2SF y Hf Hz) as (s & m & e & ->).
  by apply SFdiv_not_nan.
Qed.

(** [np.nan_to_num] leaves no NaN. *)
Lemma float_nan_to_num_not_nan (x : float) :
  is_nan (float_nan_to_num x) = false.
Proof.
  unfold float_nan_to_num.
  destruct (is_nan x) eqn:En; [done|].
  destruct (x =? infinity); [done|].
  by destruct (x =? neg_infinity).
Qed.
End PrimFloatFacts.

(** * NaN in the stacked responses *)

Section NoNaN.
Open Scope float_scope.

Lemma foldl_add_nonneg (ys : list float) (acc : float) :
  Forall (fun y => SF_nonneg (Prim2SF y)) ys -> SF_nonneg (Prim2SF acc) ->
  SF_nonneg (Prim2SF (foldl PrimFloat.add acc ys)).
Proof.
  intros Hys; revert acc. induction Hys as [|y ys Hy _ IH]; intros acc Hacc;
    cbn; [done|].
  apply IH. by apply add_nonneg.
Qed.

(** What a successful [stack_edisp] stores went through [nan_to_num]. *)
Lemma stack_edisp_Ok {A} `{Scalar A} (s s' : SpectrumObservationStacker A) :
  stack_edisp s = Ok s' ->
  exists e q, stacked_edisp s' = Some e /\
              edisp_data e = transpose (map (map fnan_to_num) q).
Proof.
  unfold stack_edisp. intros Hs.
  apply bind_Ok in Hs as (o0 & _ & Hs).
  apply bind_Ok in Hs as (o0' & _ & Hs).
  apply bind_Ok in Hs as (aefft & _ & Hs).
  apply bind_Ok in Hs as (aefftedisp & _ & Hs).
  apply bind_Ok in Hs as (acc & _ & Hs).
  apply bind_Ok in Hs as (q & _ & Hs).
  apply bind_Ok in Hs as (o0'' & _ & Hs).
  injection Hs as <-. cbn. eauto.
Qed.

Lemma stacked_edisp_entries {A} `{Scalar A}
      (l : list (SpectrumObservation A)) (o : SpectrumObservation A)
      (e : EnergyDispersion A) (row : list A) (x : A) :
  stack l = Ok (Some o) -> edisp o = Some e ->
  row ∈ edisp_data e -> x ∈ row -> exists y, x = fnan_to_num y.
Proof.
  unfold stack. intros Hs Ee Hrow Hx.
  apply bind_Ok in Hs as (s & Hrun & Hs). injection Hs as Hs.
  apply run_stages in Hrun as (s1 & on & a & e' & _ & _ & Hed & _ & ->).
  cbn in Hs. injection Hs as <-. cbn in Ee. injection Ee as ->.
  apply stack_edisp_Ok in Hed as (e'' & q & Ee & Eq).
  cbn in Ee. injection Ee as <-. rewrite Eq in Hrow.
  destruct (transpose_entries _ _ _ Hrow Hx) as (row' & Hrow' & Hx').
  apply list_elem_of_fmap in Hrow' as (r & -> & _).
  apply list_elem_of_fmap in Hx' as (y & -> & _). eauto.
Qed.

Lemma exposure_nonneg (o : SpectrumObservation float) (x : float) :
  (forall T, livetime (on_vector o) = Some T ->
             is_finite T = true /\ (0 <? T) = true) ->
  (forall a, a ∈ aeff_data (aeff o) -> is_nan a = true \/ (0 <=? a) = true) ->
  is_Some (livetime (on_vector o)) ->
  x ∈ exposure o -> SF_nonneg (Prim2SF x).
Proof.
  intros HT Ha [T ET] Hx. destruct (HT T ET) as [Hf Hp].
  unfold exposure, livetime_or_zero, evaluate_fill_nan in Hx.
  rewrite ET in Hx. cbn in Hx.
  apply list_elem_of_fmap in Hx as (a' & -> & Ha').
  apply list_elem_of_fmap in Ha' as (a & -> & Hin).
  apply mul_nonneg; [|done..].
  destruct (Ha a Hin) as [Hn | Hpos].
  - by rewrite Hn.
  - destruct (is_nan a); [done | by apply leb_zero_nonneg].
Qed.

(** C9, as amended. Every entry of a stacked energy dispersion went
    through [nan_to_num] and is not NaN. For well-formed observations with
    finite positive livetimes and effective areas that are non-negative
    or NaN, the stacked effective area has no NaN provided the total
    livetime, as [np.sum] returns it in binary64, is finite and not
    zero. *)
Theorem stacked_responses_have_no_nan :
  (forall (l : list (SpectrumObservation float)) o e row x,
      stack l = Ok (Some o) -> edisp o = Some e ->
      row ∈ edisp_data e -> x ∈ row -> is_nan x = false) /\
  (forall (n t : nat) (l : list (SpectrumObservation float)),
      (0 < t)%nat -> l <> [] -> Forall (complete_obs n t) l ->
      (forall o T, o ∈ l -> livetime (on_vector o) = Some T ->
                   is_finite T = true /\ (0 <? T) = true) ->
      (forall o a, o ∈ l -> a ∈ aeff_data (aeff o) ->
                   is_nan a = true \/ (0 <=? a) = true) ->
      is_finite (np_sum (livetime_or_zero <$> l)) = true ->
      (np_sum (livetime_or_zero <$> l) =? 0) = false ->
      exists o, stack l = Ok (Some o) /\
                forall x, x ∈ aeff_data (aeff o) -> is_nan x = false).
Proof.
  split.
  - intros l o e row x Hs Ee Hrow Hx.
    destruct (stacked_edisp_entries l o e row x Hs Ee Hrow Hx) as [y ->].
    apply float_nan_to_num_not_nan.
  - intros n t l Ht Hne Hl HT Ha Hfin Hnz.
    destruct l as [|o0 rest]; [done|].
    pose proof Hl as Hc. apply Forall_cons in Hc as [Hc _].
    destruct Hc as [_ (off0 & Eoff0 & _) _ _ _ _].
    eexists. split; [by apply (stack_closed n t o0 rest off0)|].
    cbn [stacked_closed aeff stacked_aeff_closed aeff_data].
    remember (o0 :: rest) as l eqn:El. clear El Eoff0.
    intros x (y & -> & Hy)%list_elem_of_fmap.
    apply div_not_nan; [|done..].
    apply is_nan_false_Prim2SF, SF_nonneg_not_nan.
    apply list_elem_of_lookup in Hy as [k Hk].
    pose proof (exposure_lengths n t _ Hl) as Hlen.
    assert (k < t)%nat as Hkt.
    { apply lookup_lt_Some in Hk.
      unfold total_exposure in Hk. by rewrite sum_arrays_length in Hk. }
    unfold total_exposure, sum_arrays in Hk.
    rewrite (foldl_zip_with_lookup fadd fzero t k _ _ fzero Hlen) in Hk;
      [|by rewrite length_replicate | by apply lookup_replicate_2].
    injection Hk as <-. apply foldl_add_nonneg; [|by vm_compute].
    rewrite !Forall_fmap. apply Forall_forall. intros o Ho.
    unfold compose.
    destruct (exposure o !! k) as [z|] eqn:Ez; [|done]. cbn.
    rewrite Forall_forall in Hl.
    apply (exposure_nonneg o); eauto using list_elem_of_lookup_2.
    by destruct (Hl o Ho).
Qed.
End NoNaN.

Lemma example_complete (on off : list float) (flags : list bool)
      (b t : float) (i : Z) :
  length on = 2 -> length off = 2 -> length flags = 2 ->
  complete_obs 2 2 (Example.obs on off flags b t i).
Proof.
  intros Hon Hoff Hfl. constructor; cbn; eauto.
  - by repeat split.
  - eexists. split; [done|]. split; [by repeat split | eauto].
  - by split.
  - eexists. split; [done|]. split; [done | by repeat constructor].
Qed.

Lemma stacked_responses_have_no_nan_witness :
  let l := [Example.obs [10; 20] [5; 5] [false; false] 0.1 100 1;
            Example.obs [30; 40] [10; 10] [false; false] 0.1 200 2]%float in
  exists o e,
    stack l = Ok (Some o) /\ edisp o = Some e /\
    (forall x, x ∈ aeff_data (aeff o) -> is_nan x = false) /\
    (forall row x, row ∈ edisp_data e -> x ∈ row -> is_nan x = false).
Proof.
  intros l.
  destruct (proj2 stacked_responses_have_no_nan 2 2 l) as (o & Hs & Ha).
  - lia.
  - discriminate.
  - repeat apply Forall_cons_2; [apply example_complete; reflexivity..|].
    constructor.
  - intros o T Ho. unfold l in Ho.
    rewrite !elem_of_cons, elem_of_nil in Ho.
    destruct Ho as [-> | [-> | []]]; intros [= <-]; split; reflexivity.
  - intros o a Ho. unfold l in Ho.
    rewrite !elem_of_cons, elem_of_nil in Ho.
    destruct Ho as [-> | [-> | []]]; cbn;
      rewrite !elem_of_cons, elem_of_nil;
      (intros [-> | [-> | []]]; right; reflexivity).
  - reflexivity.
  - reflexivity.
  - assert (exists e, edisp o = Some e) as [e Ee].
    { revert Hs. vm_compute. intros [= <-]. eauto. }
    exists o, e. split; [done|]. split; [done|]. split; [done|].
    intros row x. by apply (proj1 stacked_responses_have_no_nan l o e).
Defined.

(** C9 as stated fails: with shared grids and positive finite livetimes the
    total livetime and the summed exposure can both overflow to [+inf], and
    their quotient is NaN. *)
Lemma stacked_effective_area_can_be_nan :
  let l := [NaNExample.long_obs 1; NaNExample.long_obs 2] in
  shared_grids l /\
  NaNExample.livetimes l = [Some 1e308; Some 1e308]%float /\
  (0 <? 1e308)%float = true /\ is_finite 1e308 = true /\
  NaNExample.area (stack l) = Some [nan; nan] /\
  is_nan nan = true.
Proof.
  intros l. split.
  - intros o o' Ho Ho'. unfold l in Ho, Ho'.
    rewrite !elem_of_cons, elem_of_nil in Ho, Ho'.
    destruct Ho as [-> | [-> | []]], Ho' as [-> | [-> | []]];
      split; reflexivity.
  - repeat split; vm_compute; reflexivity.
Qed.

(** * The stacker does not write to its inputs *)

Section Frame.
Context {A : Type} `{Scalar A}.
Import Heap.
(** The objects that exist before the stacker runs. *)
Variable D : gset loc.
Local Abbreviation frames := (frames (A:=A) D).

Lemma frames_ret {X} (x : X) (Q : X -> Prop) : Q x -> frames (ret x) Q.
Proof. intros HQ h Hh. cbn. split; [done|]. split; [done|]. by intros ? [= <-]. Qed.

Lemma frames_lift {X} (r : result X) (Q : X -> Prop) :
  (forall x, r = Ok x -> Q x) -> frames (lift r) Q.
Proof. intros HQ h Hh. cbn. auto. Qed.

Lemma frames_bind {X Y} (c : M X) (f : X -> M Y) (P : X -> Prop)
      (Q : Y -> Prop) :
  frames c P -> (forall x, P x -> frames (f x) Q) -> frames (bind c f) Q.
Proof.
  intros Hc Hf h Hh. destruct (Hc h Hh) as (Hd & Hk & HP).
  unfold bind. destruct (c h) as [[x|e] h'] eqn:E; cbn in *.
  - destruct (Hf x (HP x eq_refl) h' Hd) as (Hd' & Hk' & HQ).
    split; [done|]. split; [|done].
    intros l Hl. by rewrite Hk', Hk.
  - split; [done|]. split; [done|]. discriminate.
Qed.

Lemma frames_weaken {X} (c : M X) (P Q : X -> Prop) :
  frames c P -> (forall x, P x -> Q x) -> frames c Q.
Proof.
  intros Hc HPQ h Hh. destruct (Hc h Hh) as (Hd & Hk & HP). auto.
Qed.

(** A new object is none of the objects of [D]. *)
Lemma frames_alloc (o : obj A) : frames (alloc o) (fun l => l ∉ D).
Proof.
  intros h Hh. unfold alloc. cbn.
  pose proof (is_fresh (dom h)) as Hf.
  split; [|split].
  - rewrite dom_insert_L. set_solver.
  - intros l Hl. apply lookup_insert_ne. set_solver.
  - intros x [= <-]. set_solver.
Qed.

Lemma frames_load (l : loc) : frames (load l) (fun _ => True).
Proof.
  intros h Hh. unfold load. by destruct (h !! l).
Qed.

(** Writing to an object outside of [D]. *)
Lemma frames_store (l : loc) (o : obj A) :
  l ∉ D -> frames (store l o) (fun _ => True).
Proof.
  intros Hl h Hh. unfold store. cbn. split; [|split; [|done]].
  - rewrite dom_insert_L. set_solver.
  - intros l' Hl'. apply lookup_insert_ne. set_solver.
Qed.

Lemma frames_for_each {X Y} (I : X -> Prop) (body : X -> Y -> M X)
      (l : list Y) (acc : X) :
  (forall a x, I a -> frames (body a x) I) -> I acc ->
  frames (OnHeap.for_each body l acc) I.
Proof.
  intros Hbody. revert acc. induction l as [|x l IH]; intros acc Hacc; cbn.
  - by apply frames_ret.
  - eapply frames_bind; [by apply Hbody|]. intros a Ha. by apply IH.
Qed.

End Frame.

Create HintDb frames.

#[global] Hint Resolve frames_alloc frames_load frames_store : frames.

Ltac frames_auto :=
  lazymatch goal with
  | |- frames _ (Heap.ret _) _ => apply frames_ret; auto
  | |- frames _ (Heap.lift _) _ => apply frames_lift; intros; auto
  | |- frames _ (Heap.bind (match ?x with _ => _ end) _) _ =>
      destruct x; frames_auto
  | |- frames _ (Heap.bind (OnHeap.for_each _ _ _) _) _ =>
      eapply (frames_bind _ _ _ (fun _ => True));
      [ apply (frames_for_each _ (fun _ => True));
        [cbv beta; intros; frames_auto | done]
      | cbv beta; intros; frames_auto ]
  | |- frames _ (Heap.bind _ _) _ =>
      first
        [ eapply frames_bind;
          [solve [eauto with frames] | cbv beta; intros; frames_auto]
        | eapply (frames_bind _ _ _ (fun _ => True));
          [frames_auto | cbv beta; intros; frames_auto] ]
  | |- frames _ (match ?x with _ => _ end) _ => destruct x; frames_auto
  | |- frames _ _ _ =>
      first
        [ solve [eauto with frames]
        | eapply frames_weaken;
          [solve [eauto with frames] | cbv beta; intros; auto]
        | idtac ]
  end.

Section FrameStacker.
Context {A : Type} `{Scalar A}.
Import Heap.
Variable D : gset loc.
Local Abbreviation own_vectors := (own_vectors D).

Lemma frames_load_array (l : loc) :
  frames (A:=A) D (OnHeap.load_array l) (fun _ => True).
Proof. unfold OnHeap.load_array. frames_auto. Qed.

Lemma frames_load_bools (l : loc) :
  frames (A:=A) D (OnHeap.load_bools l) (fun _ => True).
Proof. unfold OnHeap.load_bools. frames_auto. Qed.

Lemma frames_load_matrix (l : loc) :
  frames (A:=A) D (OnHeap.load_matrix l) (fun _ => True).
Proof. unfold OnHeap.load_matrix. frames_auto. Qed.

Lemma frames_load_pha (l : loc) :
  frames (A:=A) D (OnHeap.load_pha l) (fun _ => True).
Proof. unfold OnHeap.load_pha. frames_auto. Qed.

Lemma frames_load_obs (l : loc) :
  frames (A:=A) D (OnHeap.load_obs l) (fun _ => True).
Proof. unfold OnHeap.load_obs. frames_auto. Qed.

Lemma frames_load_aeff (l : loc) :
  frames (A:=A) D (OnHeap.load_aeff l) (fun _ => True).
Proof. unfold OnHeap.load_aeff. frames_auto. Qed.

Lemma frames_load_edisp (l : loc) :
  frames (A:=A) D (OnHeap.load_edisp l) (fun _ => True).
Proof. unfold OnHeap.load_edisp. frames_auto. Qed.

Hint Resolve frames_load_array frames_load_bools frames_load_matrix
  frames_load_pha frames_load_obs frames_load_aeff frames_load_edisp
  : frames.

Lemma frames_read_pha (l : loc) :
  frames (A:=A) D (OnHeap.read_pha l) (fun _ => True).
Proof. unfold OnHeap.read_pha. frames_auto. Qed.

Lemma frames_read_aeff (l : loc) :
  frames (A:=A) D (OnHeap.read_aeff l) (fun _ => True).
Proof. unfold OnHeap.read_aeff. frames_auto. Qed.

Lemma frames_read_edisp (l : loc) :
  frames (A:=A) D (OnHeap.read_edisp l) (fun _ => True).
Proof. unfold OnHeap.read_edisp. frames_auto. Qed.

Hint Resolve frames_read_pha frames_read_aeff frames_read_edisp : frames.

Lemma frames_new_pha (v : PHACountsSpectrum A) :
  frames (A:=A) D (OnHeap.new_pha v) (fun l => l ∉ D).
Proof. unfold OnHeap.new_pha. frames_auto. Qed.

Hint Resolve frames_new_pha : frames.

Lemma frames_copy_pha (l : loc) :
  frames (A:=A) D (OnHeap.copy_pha l) (fun l => l ∉ D).
Proof. unfold OnHeap.copy_pha. frames_auto. Qed.

Lemma frames_counts_in_safe_range (l : loc) :
  frames (A:=A) D (OnHeap.counts_in_safe_range l) (fun l => l ∉ D).
Proof. unfold OnHeap.counts_in_safe_range. frames_auto. Qed.

Lemma frames_backscal_array_copy (l : loc) :
  frames (A:=A) D (OnHeap.backscal_array_copy l) (fun l => l ∉ D).
Proof. unfold OnHeap.backscal_array_copy. frames_auto. Qed.

Lemma frames_binop (f : A -> A -> A) (x y : loc) :
  frames (A:=A) D (OnHeap.binop f x y) (fun l => l ∉ D).
Proof. unfold OnHeap.binop. frames_auto. Qed.

Lemma frames_logical_or (x y : loc) :
  frames (A:=A) D (OnHeap.logical_or x y) (fun l => l ∉ D).
Proof. unfold OnHeap.logical_or. frames_auto. Qed.

(** The in-place operations write to their target only. *)
Lemma frames_iadd (target source : loc) :
  target ∉ D -> frames (A:=A) D (OnHeap.iadd target source) (fun _ => True).
Proof. intros Ht. unfold OnHeap.iadd. frames_auto. Qed.

Lemma frames_iadd2 (target source : loc) :
  target ∉ D -> frames (A:=A) D (OnHeap.iadd2 target source) (fun _ => True).
Proof. intros Ht. unfold OnHeap.iadd2. frames_auto. Qed.

Lemma frames_assign_where_zero (target d : loc) (v : A) :
  target ∉ D ->
  frames (A:=A) D (OnHeap.assign_where_zero target d v) (fun _ => True).
Proof.
  intros Ht. unfold OnHeap.assign_where_zero. frames_auto.
Qed.

Lemma frames_set_attr (l : loc) (f : pha_obj A -> pha_obj A) :
  l ∉ D -> frames (A:=A) D (OnHeap.set_attr l f) (fun _ => True).
Proof. intros Hl. unfold OnHeap.set_attr. frames_auto. Qed.

Hint Resolve frames_copy_pha frames_counts_in_safe_range
  frames_backscal_array_copy frames_binop frames_logical_or
  frames_iadd frames_iadd2 frames_assign_where_zero frames_set_attr
  : frames.

Lemma frames_stack_counts_spectrum (specs : list (option loc)) :
  frames (A:=A) D (OnHeap.stack_counts_spectrum specs) (fun l => l ∉ D).
Proof. unfold OnHeap.stack_counts_spectrum. frames_auto. Qed.

Lemma frames_map_obs {X} (f : loc * loc * option loc * option loc -> X)
      (l : list loc) :
  frames (A:=A) D (OnHeap.map_obs f l) (fun _ => True).
Proof.
  unfold OnHeap.map_obs.
  apply (frames_for_each _ (fun _ => True)); [|done].
  intros. frames_auto.
Qed.

Lemma frames_total_livetime (l : list loc) :
  frames (A:=A) D (OnHeap.total_livetime l) (fun _ => True).
Proof. unfold OnHeap.total_livetime. frames_auto. Qed.

Lemma frames_list_obs_id (l : list loc) :
  frames (A:=A) D (OnHeap.list_obs_id l) (fun _ => True).
Proof. unfold OnHeap.list_obs_id. frames_auto. Qed.

Lemma frames_reco_edges (o : loc) :
  frames (A:=A) D (OnHeap.reco_edges o) (fun _ => True).
Proof. unfold OnHeap.reco_edges. frames_auto. Qed.

Lemma frames_true_edges (o : loc) :
  frames (A:=A) D (OnHeap.true_edges o) (fun _ => True).
Proof. unfold OnHeap.true_edges. frames_auto. Qed.

Hint Resolve frames_stack_counts_spectrum frames_map_obs
  frames_total_livetime frames_list_obs_id frames_reco_edges
  frames_true_edges : frames.

Lemma frames_stack_on_vector (s : stacker_refs) :
  frames (A:=A) D (OnHeap.stack_on_vector s)
         (fun s' => forall l, r_stacked_on_vector s' = Some l -> l ∉ D).
Proof.
  unfold OnHeap.stack_on_vector. frames_auto.
  cbn. by intros l [= <-].
Qed.

Lemma frames_stack_off_vector (s : stacker_refs) :
  (forall l, r_stacked_on_vector s = Some l -> l ∉ D) ->
  frames (A:=A) D (OnHeap.stack_off_vector s) own_vectors.
Proof.
  intros Hon. unfold OnHeap.stack_off_vector. frames_auto.
  split; cbn; [done|]. by intros l [= <-].
Qed.

Lemma frames_stack_backscal_step (bkscal_on bkscal_off o : loc) :
  bkscal_on ∉ D -> bkscal_off ∉ D ->
  frames (A:=A) D (OnHeap.stack_backscal_step bkscal_on bkscal_off o)
         (fun _ => True).
Proof. intros Hon Hoff. unfold OnHeap.stack_backscal_step. frames_auto. Qed.

Hint Resolve frames_stack_backscal_step : frames.

Lemma frames_stack_backscal (s : stacker_refs) :
  own_vectors s ->
  frames (A:=A) D (OnHeap.stack_backscal s) own_vectors.
Proof. intros Hs. unfold OnHeap.stack_backscal. frames_auto. Qed.

Lemma frames_setup_counts_vectors (s : stacker_refs) :
  own_vectors s ->
  frames (A:=A) D (OnHeap.setup_counts_vectors s) (fun _ => True).
Proof.
  intros [Hon Hoff]. unfold OnHeap.setup_counts_vectors.
  eapply frames_bind; [apply frames_total_livetime|]. intros total _.
  apply (frames_bind _ _ _ (fun l => l ∉ D)).
  { apply frames_lift. intros l Hl. apply Hon.
    by destruct (r_stacked_on_vector s); inversion Hl. }
  intros on Hn.
  eapply frames_bind; [by apply frames_set_attr|]. intros _ _.
  apply (frames_bind _ _ _ (fun l => l ∉ D)).
  { apply frames_lift. intros l Hl. apply Hoff.
    by destruct (r_stacked_off_vector s); inversion Hl. }
  intros off Hf.
  frames_auto; by apply frames_set_attr.
Qed.

Lemma frames_stack_counts_vectors (s : stacker_refs) :
  frames (A:=A) D (OnHeap.stack_counts_vectors s) (fun _ => True).
Proof.
  unfold OnHeap.stack_counts_vectors.
  eapply frames_bind; [apply frames_stack_on_vector|]. intros s1 H1.
  eapply frames_bind; [by apply frames_stack_off_vector|]. intros s2 H2.
  eapply frames_bind; [by apply frames_stack_backscal|]. intros s3 H3.
  by apply frames_setup_counts_vectors.
Qed.

Lemma frames_aefft_current (o : loc) :
  frames (A:=A) D (OnHeap.aefft_current o) (fun l => l ∉ D).
Proof. unfold OnHeap.aefft_current. frames_auto. Qed.

Hint Resolve frames_aefft_current : frames.

Lemma frames_stack_aeff (s : stacker_refs) :
  frames (A:=A) D (OnHeap.stack_aeff s) (fun _ => True).
Proof. unfold OnHeap.stack_aeff. frames_auto. Qed.

Lemma frames_stack_edisp_step (aefft aefftedisp o : loc) :
  aefft ∉ D -> aefftedisp ∉ D ->
  frames (A:=A) D (OnHeap.stack_edisp_step aefft aefftedisp o)
         (fun _ => True).
Proof. intros Ha He. unfold OnHeap.stack_edisp_step. frames_auto. Qed.

Hint Resolve frames_stack_edisp_step : frames.

Lemma frames_stack_edisp (s : stacker_refs) :
  frames (A:=A) D (OnHeap.stack_edisp s) (fun _ => True).
Proof. unfold OnHeap.stack_edisp. frames_auto. Qed.

Lemma frames_stack_obs (s : stacker_refs) :
  frames (A:=A) D (OnHeap.stack_obs s) (fun _ => True).
Proof. unfold OnHeap.stack_obs. frames_auto. Qed.

Lemma frames_run (s : stacker_refs) :
  frames (A:=A) D (OnHeap.run s) (fun _ => True).
Proof.
  unfold OnHeap.run.
  eapply frames_bind; [apply frames_stack_counts_vectors|]. intros s1 _.
  eapply frames_bind; [apply frames_stack_aeff|]. intros s2 _.
  eapply frames_bind; [apply frames_stack_edisp|]. intros s3 _.
  apply frames_stack_obs.
Qed.

End FrameStacker.

(** ** Computations that only read *)

Section Reads.
Context {A : Type} `{Scalar A}.
Import Heap.

Lemma reads_ret {X} (x : X) : Store.reads (A:=A) (ret x).
Proof. intros h. by split. Qed.

Lemma reads_lift {X} (r : result X) : Store.reads (A:=A) (lift r).
Proof. intros h. by split. Qed.

Lemma reads_load (l : loc) : Store.reads (A:=A) (load l).
Proof.
  intros h. unfold load. split.
  - by destruct (h !! l).
  - intros h' x Hh. destruct (h !! l) as [o|] eqn:E; cbn; [|done].
    intros [= <-]. by rewrite (lookup_weaken _ _ _ _ E Hh).
Qed.

Lemma reads_bind {X Y} (c : M (A:=A) X) (f : X -> M (A:=A) Y) :
  Store.reads c -> (forall x, Store.reads (f x)) -> Store.reads (bind c f).
Proof.
  intros Hc Hf h. destruct (Hc h) as [Hs Hr]. unfold bind.
  destruct (c h) as [[x|e] h1] eqn:E; cbn in *; subst h1.
  - destruct (Hf x h) as [Hs' Hr']. split; [done|].
    intros h' y Hh Hy. specialize (Hr h' x Hh eq_refl).
    destruct (Hc h') as [Hs2 _].
    destruct (c h') as [r2 h2]; cbn in *; subst. by apply Hr'.
  - by split.
Qed.
End Reads.

Create HintDb reads.

#[global] Hint Resolve reads_ret reads_lift reads_load : reads.

Ltac reads_auto :=
  lazymatch goal with
  | |- Store.reads (Heap.bind _ _) =>
      apply reads_bind; [reads_auto | intros; reads_auto]
  | |- Store.reads (match ?x with _ => _ end) => destruct x; reads_auto
  | |- Store.reads _ => solve [eauto with reads]
  end.

Section ReadsObservation.
Context {A : Type} `{Scalar A}.

Lemma reads_load_array (l : loc) : Store.reads (A:=A) (OnHeap.load_array l).
Proof. unfold OnHeap.load_array. reads_auto. Qed.

Lemma reads_load_bools (l : loc) : Store.reads (A:=A) (OnHeap.load_bools l).
Proof. unfold OnHeap.load_bools. reads_auto. Qed.

Lemma reads_load_matrix (l : loc) : Store.reads (A:=A) (OnHeap.load_matrix l).
Proof. unfold OnHeap.load_matrix. reads_auto. Qed.

Lemma reads_load_pha (l : loc) : Store.reads (A:=A) (OnHeap.load_pha l).
Proof. unfold OnHeap.load_pha. reads_auto. Qed.

Lemma reads_load_obs (l : loc) : Store.reads (A:=A) (OnHeap.load_obs l).
Proof. unfold OnHeap.load_obs. reads_auto. Qed.

Lemma reads_load_aeff (l : loc) : Store.reads (A:=A) (OnHeap.load_aeff l).
Proof. unfold OnHeap.load_aeff. reads_auto. Qed.

Lemma reads_load_edisp (l : loc) : Store.reads (A:=A) (OnHeap.load_edisp l).
Proof. unfold OnHeap.load_edisp. reads_auto. Qed.

Hint Resolve reads_load_array reads_load_bools reads_load_matrix
  reads_load_pha reads_load_obs reads_load_aeff reads_load_edisp : reads.

Lemma reads_read_pha (l : loc) : Store.reads (A:=A) (OnHeap.read_pha l).
Proof. unfold OnHeap.read_pha. reads_auto. Qed.

Lemma reads_read_aeff (l : loc) : Store.reads (A:=A) (OnHeap.read_aeff l).
Proof. unfold OnHeap.read_aeff. reads_auto. Qed.

Lemma reads_read_edisp (l : loc) : Store.reads (A:=A) (OnHeap.read_edisp l).
Proof. unfold OnHeap.read_edisp. reads_auto. Qed.

Hint Resolve reads_read_pha reads_read_aeff reads_read_edisp : reads.

Lemma reads_read_obs (l : loc) : Store.reads (A:=A) (Store.read_obs l).
Proof. unfold Store.read_obs. reads_auto. Qed.
End ReadsObservation.

Section InputsUnchanged.
Context {A : Type} `{Scalar A}.

(** C8. Running the stacker leaves every object that is in the store
    before the run as it is, so all it writes to is newly constructed;
    in particular, whatever an input observation holds before [run()]
    (on and off counts, quality flags, backscal, livetime, effective
    area, energy dispersion), it holds after it. *)
Theorem stacker_run_leaves_the_inputs_unchanged
        (s : stacker_refs) (h : gmap loc (obj A)) :
  let h' := (OnHeap.run s h).2 in
  (forall l o, h !! l = Some o -> h' !! l = Some o) /\
  (forall o v, (Store.read_obs o h).1 = Ok v ->
               (Store.read_obs o h').1 = Ok v).
Proof.
  intros h'.
  destruct (frames_run (dom h) s h) as (_ & Hk & _); [done|].
  assert (Hsub : forall l o, h !! l = Some o -> h' !! l = Some o).
  { intros l o Hl. unfold h'. rewrite Hk; [done|]. by eapply elem_of_dom_2. }
  split; [done|].
  intros o v Hv. destruct (reads_read_obs o h) as [_ Hr].
  apply Hr; [|done]. apply map_subseteq_spec. exact Hsub.
Qed.
End InputsUnchanged.

(** On the worked example the stacker on the store computes what
    [stack] computes on values, out of 62 new objects. *)
Lemma store_run_agrees_with_stack :
  HeapExample.stacked = stack [Example.obs1; Example.obs2] /\
  is_ok HeapExample.stacked = true /\
  size HeapExample.before = 32%nat /\
  size HeapExample.after.2 = 94%nat.
Proof. vm_compute. repeat split; reflexivity. Qed.

Lemma stacker_run_leaves_the_inputs_unchanged_witness :
  ((Store.read_obs HeapExample.first HeapExample.before).1
   = Ok Example.obs1 /\
   (Store.read_obs HeapExample.second HeapExample.before).1
   = Ok Example.obs2) /\
  (Store.read_obs HeapExample.first HeapExample.after.2).1
  = Ok Example.obs1 /\
  (Store.read_obs HeapExample.second HeapExample.after.2).1
  = Ok Example.obs2 /\
  HeapExample.after.2 !! 1%positive
  = Some (ONdarray (data (on_vector Example.obs1))).
Proof.
  assert (H1 : (Store.read_obs HeapExample.first HeapExample.before).1
               = Ok Example.obs1) by (vm_compute; reflexivity).
  assert (H2 : (Store.read_obs HeapExample.second HeapExample.before).1
               = Ok Example.obs2) by (vm_compute; reflexivity).
  assert (H3 : HeapExample.before !! 1%positive
               = Some (ONdarray (data (on_vector Example.obs1))))
    by (vm_compute; reflexivity).
  destruct (stacker_run_leaves_the_inputs_unchanged
              (OnHeap.init HeapExample.refs) HeapExample.before)
    as [Hk Hr].
  split; [by split|].
  split; [exact (Hr _ _ H1)|].
  split; [exact (Hr _ _ H2)|].
  exact (Hk _ _ H3).
Defined.

(** * What the stacker requires of its input *)

Lemma for_each_Ok_each {A B} (body : A -> B -> result A) (l : list B)
      (acc acc' : A) (x : B) :
  for_each body l acc = Ok acc' -> x ∈ l -> exists a a', body a x = Ok a'.
Proof.
  revert acc. induction l as [|y l IH]; intros acc Hl Hx.
  - by apply elem_of_nil in Hx.
  - simpl in Hl. apply bind_Ok in Hl as (a & Ea & Hl).
    apply elem_of_cons in Hx as [-> | Hx]; eauto.
Qed.

Section StackerNeeds.
Context {A : Type} `{Scalar A}.

Lemma stack_counts_spectrum_all_present
      (specs : list (option (PHACountsSpectrum A)))
      (v : PHACountsSpectrum A) (x : option (PHACountsSpectrum A)) :
  stack_counts_spectrum specs = Ok v -> x ∈ specs -> is_Some x.
Proof.
  unfold stack_counts_spectrum. intros Hs Hx. inv_ok.
  destruct (for_each_Ok_each _ _ _ _ _ E2 Hx) as (acc & acc' & Hstep).
  unfold stack_counts_step in Hstep. inv_ok. eauto.
Qed.

(** X1. On an empty list of observations the stacker raises [IndexError]:
    [stack], [run] and each of the stages that index the first observation
    ([stack_on_vector], [stack_off_vector], [stack_backscal], [stack_aeff],
    [stack_edisp]) do, whatever the stacker holds besides the list. *)
Theorem stacking_no_observations_raises_IndexError
        (s : SpectrumObservationStacker A) :
  obs_list s = [] ->
  stack (A:=A) [] = Raise IndexError /\
  run s = Raise IndexError /\
  stack_counts_vectors s = Raise IndexError /\
  stack_on_vector s = Raise IndexError /\
  stack_off_vector s = Raise IndexError /\
  stack_backscal s = Raise IndexError /\
  stack_aeff s = Raise IndexError /\
  stack_edisp s = Raise IndexError.
Proof.
  intros Hl.
  assert (stack_on_vector s = Raise IndexError) as Hon
    by (unfold stack_on_vector; by rewrite Hl).
  split; [reflexivity|].
  split; [unfold run, stack_counts_vectors; by rewrite Hon|].
  split; [unfold stack_counts_vectors; by rewrite Hon|].
  split; [exact Hon|].
  split; [unfold stack_off_vector; by rewrite Hl|].
  split; [unfold stack_backscal; by rewrite Hl|].
  split; [unfold stack_aeff; by rewrite Hl|].
  unfold stack_edisp; by rewrite Hl.
Qed.

Lemma stack_Ok_off_edisp (l : list (SpectrumObservation A))
      (r : option (SpectrumObservation A)) (o : SpectrumObservation A) :
  stack l = Ok r -> o ∈ l -> is_Some (off_vector o) /\ is_Some (edisp o).
Proof.
  unfold stack. intros Hs Ho. inv_ok.
  destruct (run_stages _ _ E) as (s1 & on & ar & e & Hc & Ha & He & Hon & ->).
  destruct (stack_counts_vectors_Ok _ _ Hc)
    as (von & voff & don & doff & bon & boff & total
        & Son & Soff & _ & _ & Ht & Hl & _).
  split.
  - apply (stack_counts_spectrum_all_present _ _ _ Soff).
    apply list_elem_of_fmap. eauto.
  - unfold stack_edisp in He. cbn [obs_list set_stacked_aeff] in He.
    rewrite Hl in He. inv_ok.
    destruct (for_each_Ok_each _ _ _ _ _ E4 Ho) as (acc & acc' & Hstep).
    unfold stack_edisp_step in Hstep. inv_ok. eauto.
Qed.

(** X2. When [stack] returns, it returns an observation (never [None]),
    the list is not empty, and every observation of the list has an off
    vector, an energy dispersion and a livetime: a list with an
    observation that lacks one of them makes the stacker raise. *)
Theorem stack_returns_only_on_complete_lists
        (l : list (SpectrumObservation A))
        (r : option (SpectrumObservation A)) :
  stack l = Ok r ->
  (exists o, r = Some o) /\ l <> [] /\
  forall o, o ∈ l ->
    is_Some (off_vector o) /\ is_Some (edisp o) /\
    is_Some (livetime (on_vector o)).
Proof.
  intros Hs. pose proof (fun o => stack_Ok_off_edisp l r o Hs) as Hoe.
  unfold stack in Hs. inv_ok. subst r.
  destruct (run_stages _ _ E) as (s1 & on & ar & e & Hc & _ & _ & _ & ->).
  destruct (stack_counts_vectors_Ok _ _ Hc)
    as (von & voff & don & doff & bon & boff & total
        & Son & _ & _ & _ & Ht & _).
  split; [cbn; eauto|]. split.
  { intros ->. discriminate Son. }
  intros o Ho. destruct (Hoe o Ho) as [Hoff Hed].
  split; [done|]. split; [done|].
  unfold total_livetime in Ht. inv_ok.
  apply mapM_Ok_Forall2 in E0.
  apply list_elem_of_lookup_1 in Ho as [i Hi].
  destruct (Forall2_lookup_l _ _ _ _ _ E0 Hi) as (y & _ & Hy).
  unfold obs_livetime in Hy. apply attr_Ok in Hy. eauto.
Qed.

(** X3. An observation that [read] returned from a folder in which its
    background file or its RMF file is missing cannot be stacked: on every
    list that contains it the stacker raises. *)
Theorem an_observation_read_without_a_companion_cannot_be_stacked
        (fs : gmap string (File A)) (dirname name : string)
        (on : PHAFile A) (o : SpectrumObservation A)
        (l : list (SpectrumObservation A)) :
  fs !! path_join dirname name = Some (FilePHA on) ->
  read fs dirname name = Ok o ->
  fs !! path_join dirname (bkgfile on) = None \/
  fs !! path_join dirname (rmffile on) = None ->
  o ∈ l ->
  exists e, stack l = Raise e.
Proof.
  intros Hpha Hr Hmiss Ho.
  assert (off_vector o = None \/ edisp o = None) as Hnone.
  { assert (read_pha fs (path_join dirname name) = Ok on) as Eon
      by (unfold read_pha; by rewrite Hpha).
    unfold read in Hr. rewrite Eon, bind_ret in Hr. inv_ok. subst o. cbn.
    destruct Hmiss as [Hb | Hm].
    - left. unfold read_pha in E0. rewrite Hb in E0.
      injection E0 as <-. done.
    - right. unfold read_rmf in E. rewrite Hm in E.
      injection E as <-. done. }
  destruct (stack l) as [r|e] eqn:Hs; [|eauto].
  destruct (stack_Ok_off_edisp _ _ _ Hs Ho) as ([off Hoff] & [ed Hed]).
  destruct Hnone; congruence.
Qed.
End StackerNeeds.

(** * What the stacked observation is made of *)

Lemma foldl_orb_true (a : bool) (bs : list bool) :
  foldl orb a bs = true <-> a = true \/ true ∈ bs.
Proof.
  revert a. induction bs as [|b bs IH]; intros a; simpl.
  - rewrite elem_of_nil. tauto.
  - rewrite IH, elem_of_cons, orb_true_iff. intuition congruence.
Qed.

Lemma or_arrays_lookup (n k : nat) (qs : list (list bool)) :
  Forall (fun q => length q = n) qs -> k < n ->
  (or_arrays n qs !! k = Some true \/ or_arrays n qs !! k = Some false) /\
  (or_arrays n qs !! k = Some true <-> exists q, q ∈ qs /\ q !! k = Some true).
Proof.
  intros Hqs Hk. unfold or_arrays.
  rewrite (foldl_zip_with_lookup orb false n k qs (replicate n false) false
             Hqs (length_replicate _ _) (lookup_replicate_2 _ _ _ Hk)).
  split; [destruct (foldl _ _ _); auto|].
  split.
  - intros [= Hf]. apply foldl_orb_true in Hf as [|Hf]; [done|].
    apply list_elem_of_fmap in Hf as (q & Hq & Hin).
    exists q. split; [done|].
    destruct (q !! k) as [[]|]; done.
  - intros (q & Hin & Hq). f_equal. apply foldl_orb_true. right.
    apply list_elem_of_fmap. exists q. by rewrite Hq.
Qed.

Section StackedParts.
Context {A : Type} `{Scalar A}.

(** X4. The quality flags of the stacked vectors are the union of the
    flags of the observations: bin [k] of the stacked on (off) vector is
    flagged exactly when the on (off) vector of some observation flags
    it. *)
Theorem stacked_quality_flags_are_the_union
        (n t k : nat) (o0 : SpectrumObservation A)
        (rest : list (SpectrumObservation A)) (off0 : PHACountsSpectrum A) :
  0 < t -> Forall (complete_obs n t) (o0 :: rest) ->
  off_vector o0 = Some off0 -> k < n ->
  exists o off,
    stack (o0 :: rest) = Ok (Some o) /\ off_vector o = Some off /\
    length (quality (on_vector o)) = n /\ length (quality off) = n /\
    (quality (on_vector o) !! k = Some true <->
     exists a, a ∈ o0 :: rest /\ quality (on_vector a) !! k = Some true) /\
    (quality off !! k = Some true <->
     exists a v, a ∈ o0 :: rest /\ off_vector a = Some v /\
                 quality v !! k = Some true).
Proof.
  intros Ht Hl Eoff Hk.
  eexists _, _. split; [by apply (stack_closed n t o0 rest off0)|].
  split; [reflexivity|].
  unfold stacked_closed, stacked_on, stacked_off, stacked_counts, with_attrs.
  cbn [on_vector off_vector quality].
  assert (Forall (fun q => length q = n)
                 (quality <$> (on_vector <$> o0 :: rest))) as Hon.
  { apply Forall_fmap, Forall_fmap. eapply Forall_impl; [exact Hl|].
    intros a Ha. by destruct Ha as [(_ & _ & Hq & _) _ _ _ _ _]. }
  destruct (off_vectors_complete n t _ Hl) as (Hmap & Hvalid & _).
  assert (Forall (fun q => length q = n)
                 (quality <$> omap off_vector (o0 :: rest))) as Hoff.
  { apply Forall_fmap. eapply Forall_impl; [exact Hvalid|].
    by intros v (_ & _ & Hq & _). }
  split; [|split; [|split]].
  - unfold or_arrays. by apply foldl_zip_with_length;
                        [apply length_replicate|].
  - unfold or_arrays. by apply foldl_zip_with_length;
                        [apply length_replicate|].
  - destruct (or_arrays_lookup n k _ Hon Hk) as [_ ->]. split.
    + intros (q & Hq & Hqk).
      apply list_elem_of_fmap in Hq as (v & -> & Hv).
      apply list_elem_of_fmap in Hv as (a & -> & Ha). eauto.
    + intros (a & Ha & Hqk). eexists. split; [|exact Hqk].
      apply list_elem_of_fmap. eexists. split; [done|].
      by apply list_elem_of_fmap_2.
  - destruct (or_arrays_lookup n k _ Hoff Hk) as [_ ->]. split.
    + intros (q & Hq & Hqk).
      apply list_elem_of_fmap in Hq as (v & -> & Hv).
      apply list_elem_of_omap in Hv as (a & Ha & Hav). eauto.
    + intros (a & v & Ha & Hav & Hqk). eexists. split; [|exact Hqk].
      apply list_elem_of_fmap. eexists. split; [done|].
      apply list_elem_of_omap. eauto.
Qed.
End StackedParts.

Section StackedGrids.
Context {A : Type} `{Scalar A}.

Lemma stack_counts_spectrum_first
      (specs : list (option (PHACountsSpectrum A)))
      (v : PHACountsSpectrum A) :
  stack_counts_spectrum specs = Ok v ->
  exists first rest,
    specs = Some first :: rest /\ energy v = energy first.
Proof.
  unfold stack_counts_spectrum. intros Hs. inv_ok.
  apply py_index_0_Ok in E as [rest ->]. subst v a. cbn. eauto.
Qed.

(** X5. The stacker compares no grids: whenever it returns, the stacked
    observation carries the reco grid of the on vector of the first
    observation, the grid of the off vector of the first observation, the
    true grid of the effective area of the first observation (also in the
    stacked energy dispersion), and the list of all observation ids in the
    order of the list. *)
Theorem stacked_observation_takes_the_grids_of_the_first
        (l : list (SpectrumObservation A)) (o : SpectrumObservation A) :
  stack l = Ok (Some o) ->
  exists o0 rest off off0 e,
    l = o0 :: rest /\
    e_reco o = e_reco o0 /\ e_true o = e_true o0 /\
    off_vector o = Some off /\ off_vector o0 = Some off0 /\
    energy off = energy off0 /\
    edisp o = Some e /\
    edisp_e_true e = e_true o0 /\ edisp_e_reco e = e_reco o0 /\
    obs_obs_id o = IdList (obs_obs_id <$> l) /\
    obs_id off = IdList (obs_obs_id <$> l).
Proof.
  unfold stack. intros Hs. inv_ok.
  destruct (run_stages _ _ E) as (s1 & on & ar & e & Hc & Ha & He & Hon & ->).
  cbn in Hs. injection Hs as <-.
  destruct (stack_counts_vectors_Ok _ _ Hc)
    as (von & voff & don & doff & bon & boff & total
        & Son & Soff & _ & _ & _ & Hl & Eon & Eoff & _).
  rewrite Eon in Hon. injection Hon as <-.
  destruct (stack_counts_spectrum_first _ _ Son)
    as (f & r & Hf & Een).
  destruct (stack_counts_spectrum_first _ _ Soff)
    as (f' & r' & Hf' & Een').
  destruct l as [|o0 rest]; [discriminate|].
  cbn in Hf, Hf'. injection Hf as <- _. injection Hf' as Hoff0 _.
  unfold stack_aeff in Ha. rewrite Hl in Ha. inv_ok.
  unfold stack_edisp in He. cbn [obs_list set_stacked_aeff] in He.
  rewrite Hl in He. inv_ok.
  repeat match goal with
         | Hi : py_index (_ :: _) 0 = Ok _ |- _ =>
             rewrite py_index_0 in Hi; injection Hi as <-
         end.
  subst ar e.
  exists o0, rest, (with_attrs voff total (Some boff) (list_obs_id (o0 :: rest))),
    f'.
  eexists. cbn. rewrite Eoff. repeat split; try done.
Qed.
End StackedGrids.

Section StackedBackscal.
Context {A : Type} `{Scalar A}.

Lemma stacked_backscal_lookup (n k : nat) (weights : list (list A))
      (stacked_off : list A) (c : A) :
  Forall (fun y => length y = n) weights -> length stacked_off = n ->
  stacked_off !! k = Some c -> feqb c fzero = false ->
  stacked_backscal n weights stacked_off !! k
  = Some (fdiv (loop_sum ((fun w => default fzero (w !! k)) <$> weights)) c).
Proof.
  intros Hw Hn Hc Hz.
  assert (k < n) as Hk by (rewrite <- Hn; by eapply lookup_lt_Some).
  unfold stacked_backscal, with_sentinel, sum_arrays.
  rewrite !lookup_zip_with, Hc.
  rewrite (foldl_zip_with_lookup fadd fzero n k weights (replicate n fzero)
             fzero Hw (length_replicate _ _) (lookup_replicate_2 _ _ _ Hk)).
  cbn. by rewrite Hz.
Qed.

(** X6. Where the stacked off counts of bin [k] are not zero, the stacked
    backscal of the on vector is the mean of the on backscals of the
    observations weighted with their off counts in the safe range of the
    off vector, divided by the stacked off counts; the stacked backscal of
    the off vector is the same mean of the off backscals. *)
Theorem stacked_backscal_is_the_mean_weighted_with_off_counts
        (n t k : nat) (o0 : SpectrumObservation A)
        (rest : list (SpectrumObservation A)) (off0 : PHACountsSpectrum A) :
  0 < t -> Forall (complete_obs n t) (o0 :: rest) ->
  off_vector o0 = Some off0 ->
  exists o off bon boff,
    stack (o0 :: rest) = Ok (Some o) /\ off_vector o = Some off /\
    backscal (on_vector o) = Some (BackscalArray bon) /\
    backscal off = Some (BackscalArray boff) /\
    forall c, data off !! k = Some c -> feqb c fzero = false ->
      bon !! k
      = Some (fdiv (loop_sum ((fun a => fmul (backscal_at (on_vector a) k)
                                           (off_count_at a k))
                              <$> o0 :: rest)) c) /\
      boff !! k
      = Some (fdiv (loop_sum ((fun a => fmul (off_backscal_at a k)
                                           (off_count_at a k))
                              <$> o0 :: rest)) c).
Proof.
  intros Ht Hl Eoff.
  eexists _, _, _, _. split; [by apply (stack_closed n t o0 rest off0)|].
  split; [reflexivity|]. split; [reflexivity|]. split; [reflexivity|].
  intros c Hc Hz. cbn [data with_attrs] in Hc.
  destruct (weighted_backscal_length n t _ Hl) as [Hwon Hwoff].
  pose proof (stacked_off_data_length n t off0 _ Hl) as Hn.
  assert (k < n) as Hk by (rewrite <- Hn; by eapply lookup_lt_Some).
  unfold bkscal_on_closed, bkscal_off_closed.
  rewrite (stacked_backscal_lookup n k _ _ c Hwon Hn Hc Hz).
  rewrite (stacked_backscal_lookup n k _ _ c Hwoff Hn Hc Hz).
  rewrite <- !list_fmap_compose.
  assert (forall a, a ∈ o0 :: rest ->
            default fzero (weighted_backscal_on a !! k)
            = fmul (backscal_at (on_vector a) k) (off_count_at a k) /\
            default fzero (weighted_backscal_off a !! k)
            = fmul (off_backscal_at a k) (off_count_at a k)) as Hbin.
  { intros a Ha. rewrite Forall_forall in Hl.
    destruct (Hl a Ha) as [Hon (off & Ea & Hoff & Hb) Hbon _ _ _].
    destruct (backscal_array_valid n _ Hon Hbon) as [_ Lon].
    destruct (backscal_array_valid n _ Hoff Hb) as [_ Loff].
    assert (length (off_counts a) = n) as Lc.
    { unfold off_counts. rewrite Ea, counts_in_safe_range_length.
      by destruct Hoff as (_ & ? & _). }
    destruct (lookup_lt_is_Some_2 (backscal_values (on_vector a)) k)
      as [x Hx]; [lia|].
    destruct (lookup_lt_is_Some_2 (backscal_values off) k)
      as [y Hy]; [lia|].
    destruct (lookup_lt_is_Some_2 (off_counts a) k) as [z Hz']; [lia|].
    unfold weighted_backscal_on, weighted_backscal_off, off_backscal_at,
      backscal_at, off_count_at.
    rewrite Ea, !lookup_zip_with, Hx, Hy, Hz'. done. }
  split; do 3 f_equal; apply list_fmap_ext; intros i a Ha;
    apply list_elem_of_lookup_2 in Ha; cbn; by destruct (Hbin a Ha).
Qed.
End StackedBackscal.

Ltac first_bound t :=
  lazymatch t with
  | (?m ≫= _) => first_bound m
  | _ => t
  end.

Section StackerErrors.
Context {A : Type} `{Scalar A}.

(** X7. Spectra with different numbers of bins are not stacked: if the on
    vector of the second observation has [m] counts where the first has
    [n], with [m] neither [n] nor 1 (a single value would be broadcast),
    the in-place sum raises [ValueError]. *)
Theorem stacking_spectra_of_different_lengths_raises_ValueError
        (n m : nat) (o1 o2 : SpectrumObservation A)
        (rest : list (SpectrumObservation A)) :
  valid_pha n (on_vector o1) ->
  length (data (on_vector o2)) = m -> m <> n -> m <> 1 ->
  stack (o1 :: o2 :: rest) = Raise ValueError.
Proof.
  intros (He & Hd & Hq & _) Hm Hn H1.
  assert (stack_counts_step (replicate n fzero, replicate n false)
                            (Some (on_vector o1))
          = Ok (zip_with fadd (replicate n fzero)
                         (counts_in_safe_range (on_vector o1)),
                zip_with orb (replicate n false) (quality (on_vector o1))))
    as S1.
  { unfold stack_counts_step. cbn [attr fst snd]. rewrite bind_ret.
    rewrite inplace_same
      by (rewrite counts_in_safe_range_length, length_replicate; done).
    rewrite bind_ret, broadcast_same by (rewrite length_replicate; done).
    done. }
  assert (forall q,
            stack_counts_step
              (zip_with fadd (replicate n fzero)
                        (counts_in_safe_range (on_vector o1)), q)
              (Some (on_vector o2)) = Raise ValueError) as S2.
  { intros q. unfold stack_counts_step. cbn [attr fst snd].
    rewrite bind_ret. unfold inplace. rewrite decide_False.
    - pose proof (counts_in_safe_range_length (on_vector o2)) as Hc.
      destruct (counts_in_safe_range (on_vector o2)) as [|b [|b' y]];
        cbn in Hc; [done | lia | done].
    - rewrite counts_in_safe_range_length, length_zip_with, length_replicate,
        counts_in_safe_range_length. lia. }
  unfold stack, run, stack_counts_vectors, stack_on_vector,
    stack_counts_spectrum.
  cbn [obs_list init map].
  rewrite py_index_0, bind_ret. cbn [attr]. rewrite bind_ret.
  rewrite (np_zeros_nbins _ n He), bind_ret.
  cbn [for_each]. rewrite length_replicate, S1, bind_ret, S2.
  reflexivity.
Qed.

Lemma run_init (s : SpectrumObservationStacker A) :
  run s = run (init (obs_list s)).
Proof.
  unfold run, stack_counts_vectors, stack_on_vector, stack_off_vector,
    stack_backscal, setup_counts_vectors, stack_aeff, stack_edisp, stack_obs.
  repeat
    (cbn [obs_list init attr
          set_stacked_on_vector set_stacked_off_vector set_stacked_bkscal
          set_stacked_aeff set_stacked_edisp set_stacked_obs
          stacked_on_vector stacked_off_vector stacked_bkscal_on
          stacked_bkscal_off stacked_aeff stacked_edisp stacked_obs];
     rewrite ?bind_ret;
     try match goal with
         | |- ?l = _ =>
             let m := first_bound l in
             lazymatch m with
             | Ok _ => fail
             | _ => destruct m; [|reflexivity]
             end
         end).
  reflexivity.
Qed.

(** X8. A run of the stacker reads nothing but the list of observations:
    whatever results an earlier run left in the stacker are overwritten,
    so that two stackers with the same list run to the same result and a
    second [run()] changes nothing. *)
Theorem run_depends_on_the_observation_list_only
        (s s' s1 : SpectrumObservationStacker A) :
  obs_list s = obs_list s' -> run s = Ok s1 ->
  run s' = Ok s1 /\ run s1 = Ok s1 /\ obs_list s1 = obs_list s.
Proof.
  intros Hl Hr.
  assert (obs_list s1 = obs_list s) as Hl1.
  { destruct (run_stages _ _ Hr) as (s2 & on & a & e & Hc & _ & _ & _ & ->).
    cbn. rewrite run_init in Hr.
    unfold stack_counts_vectors in Hc. inv_ok.
    unfold stack_on_vector in E. unfold stack_off_vector in E0.
    apply stack_backscal_Ok in E1 as (? & ? & ? & ? & ? & _ & _ & _ & ->).
    unfold setup_counts_vectors in Hc. inv_ok. subst. reflexivity. }
  split; [|split; [|done]].
  - by rewrite (run_init s'), <- Hl, <- run_init.
  - by rewrite (run_init s1), Hl1, <- run_init.
Qed.
End StackerErrors.

(** * Looking an observation up by its id *)

Lemma PyId_nested_ind (P : PyId -> Prop) :
  P IdNone -> (forall n, P (IdInt n)) ->
  (forall l, Forall P l -> P (IdList l)) -> forall x, P x.
Proof.
  intros HN HI HL. fix ind 1. intros [| n | l]; [done | done |].
  apply HL. induction l as [|a l IH]; constructor; [apply ind | exact IH].
Qed.

Lemma PyId_eqb_eq (x y : PyId) : PyId_eqb x y = true <-> x = y.
Proof.
  revert y. induction x as [| a | l IH] using PyId_nested_ind; intros y.
  - destruct y; simpl; split; congruence.
  - destruct y as [| b |]; simpl; try (split; congruence).
    rewrite Z.eqb_eq. split; congruence.
  - destruct y as [| | k]; simpl; try (split; congruence).
    revert k. induction IH as [|a l Ha _ IHl]; intros [|b k];
      try (split; congruence).
    rewrite andb_true_iff, Ha, IHl. split.
    + intros [-> [= ->]]. done.
    + intros [= -> ->]. done.
Qed.

Lemma list_index_Ok (l : list PyId) (x : PyId) (i : Z) :
  list_index l x = Ok i ->
  exists k, i = Z.of_nat k /\ l !! k = Some x /\
            forall j y, j < k -> l !! j = Some y -> y <> x.
Proof.
  revert i. induction l as [|y l IH]; intros i; simpl; [discriminate|].
  destruct (PyId_eqb y x) eqn:E.
  - intros [= <-]. apply PyId_eqb_eq in E as ->.
    exists 0. split; [done|]. split; [done|]. intros; lia.
  - intros Hi. inv_ok. destruct (IH _ E0) as (k & -> & Hk & Hfirst).
    exists (S k). split; [lia|]. split; [done|].
    intros [|j] z Hj Hz.
    + injection Hz as <-. intros ->.
      by rewrite (proj2 (PyId_eqb_eq x x) eq_refl) in E.
    + apply (Hfirst j); [lia | done].
Qed.

Lemma list_index_Raise (l : list PyId) (x : PyId) :
  x ∉ l <-> list_index l x = Raise ValueError.
Proof.
  induction l as [|y l IH]; simpl.
  - split; [done|]. intros _. apply not_elem_of_nil.
  - rewrite not_elem_of_cons. destruct (PyId_eqb y x) eqn:E.
    + apply PyId_eqb_eq in E as ->. split; [tauto | discriminate].
    + assert (x <> y) by (intros ->;
        by rewrite (proj2 (PyId_eqb_eq y y) eq_refl) in E).
      rewrite IH. destruct (list_index l x) as [i|e]; simpl.
      * split; [intros [_ ?]; discriminate | discriminate].
      * split; [by intros [_ ->] | by intros ->].
Qed.

Section ObsLookup.
Context {A : Type} `{Scalar A}.

Lemma list_obs_Ok (l : list (SpectrumObservation A)) (i : PyId)
      (o : SpectrumObservation A) :
  list_obs l i = Ok o ->
  exists k, l !! k = Some o /\ obs_obs_id o = i /\
            forall j o', j < k -> l !! j = Some o' -> obs_obs_id o' <> i.
Proof.
  unfold list_obs. intros Ho. inv_ok.
  apply list_index_Ok in E as (k & -> & Hk & Hfirst).
  rewrite py_index_nat in Ho. rewrite list_lookup_fmap in Hk.
  destruct (l !! k) as [o'|] eqn:Ek; [|discriminate].
  injection Ho as ->. injection Hk as Hk.
  exists k. split; [done|]. split; [done|].
  intros j o' Hj Ej. apply (Hfirst j); [done|].
  by rewrite list_lookup_fmap, Ej.
Qed.

Lemma list_obs_Raise (l : list (SpectrumObservation A)) (i : PyId)
      (e : exn) :
  list_obs l i = Raise e ->
  e = ValueError /\ forall o, o ∈ l -> obs_obs_id o <> i.
Proof.
  unfold list_obs. intros Hr.
  destruct (list_index (map obs_obs_id l) i) as [idx|e'] eqn:E.
  - apply list_index_Ok in E as (k & -> & Hk & _).
    rewrite bind_ret, py_index_nat in Hr.
    rewrite list_lookup_fmap in Hk.
    destruct (l !! k); [discriminate Hr | discriminate Hk].
  - cbn in Hr. injection Hr as ->.
    assert (i ∉ map obs_obs_id l) as Hi.
    { apply list_index_Raise. revert E. clear.
      induction (map obs_obs_id l) as [|y ids IH]; simpl; [done|].
      destruct (PyId_eqb y i); [discriminate|].
      destruct (list_index ids i); [discriminate|]. cbn. intros [= <-].
      by rewrite IH. }
    split.
    + apply list_index_Raise in Hi. congruence.
    + intros o Ho Hid. apply Hi. apply list_elem_of_fmap. eauto.
Qed.

(** X9. [obs(obs_id)] returns the first observation of the list whose id
    equals [obs_id], and raises [ValueError] exactly when no observation
    has that id. *)
Theorem obs_returns_the_first_observation_with_the_id
        (l : list (SpectrumObservation A)) (i : PyId) :
  (forall o, list_obs l i = Ok o ->
     exists k, l !! k = Some o /\ obs_obs_id o = i /\
               forall j o', j < k -> l !! j = Some o' -> obs_obs_id o' <> i) /\
  (list_obs l i = Raise ValueError <->
   forall o, o ∈ l -> obs_obs_id o <> i).
Proof.
  split; [apply list_obs_Ok|]. split.
  - intros Hr. by destruct (list_obs_Raise _ _ _ Hr).
  - intros Hall.
    assert (i ∉ map obs_obs_id l) as Hi.
    { intros Hin. apply list_elem_of_fmap in Hin as (o & -> & Ho).
      by apply (Hall o Ho). }
    apply list_index_Raise in Hi. unfold list_obs. by rewrite Hi.
Qed.

(** X10. In a list whose observation ids are pairwise different, looking
    an observation of the list up by its own id returns that
    observation. *)
Theorem obs_finds_each_observation_by_its_id
        (l : list (SpectrumObservation A)) (o : SpectrumObservation A) :
  NoDup (obs_obs_id <$> l) -> o ∈ l -> list_obs l (obs_obs_id o) = Ok o.
Proof.
  intros Hnd Ho.
  destruct (list_obs l (obs_obs_id o)) as [o'|e] eqn:E.
  - apply list_obs_Ok in E as (k' & Hk' & Hid & _).
    apply list_elem_of_lookup_1 in Ho as [k Hk].
    assert (k' = k) as ->.
    { eapply NoDup_lookup; [exact Hnd | |];
        rewrite list_lookup_fmap; [rewrite Hk' | rewrite Hk]; cbn;
        [by rewrite Hid | done]. }
    congruence.
  - exfalso. destruct (list_obs_Raise _ _ _ E) as [_ Hall].
    by apply (Hall o Ho).
Qed.
End ObsLookup.

(** * Statistics of one bin *)

Lemma py_index_Ok {B} (l : list B) (i : Z) (x : B) :
  py_index l i = Ok x ->
  (- Z.of_nat (length l) <= i < Z.of_nat (length l))%Z /\
  l !! Z.to_nat (if decide (i < 0)%Z then Z.of_nat (length l) + i else i)%Z
  = Some x.
Proof.
  unfold py_index. intros Hx.
  destruct (decide (i < 0)%Z) as [Hi|Hi].
  - case_decide as Hj; [|discriminate].
    destruct (l !! Z.to_nat _) as [y|] eqn:E; [|discriminate].
    injection Hx as ->. split; [|done].
    apply lookup_lt_Some in E. lia.
  - case_decide as Hj; [|discriminate].
    destruct (l !! Z.to_nat i) as [y|] eqn:E; [|discriminate].
    injection Hx as ->. split; [|done].
    apply lookup_lt_Some in E. lia.
Qed.

Lemma py_index_Raise {B} (l : list B) (i : Z) (e : exn) :
  py_index l i = Raise e ->
  e = IndexError /\
  (i < - Z.of_nat (length l) \/ Z.of_nat (length l) <= i)%Z.
Proof.
  unfold py_index. intros He.
  destruct (decide (i < 0)%Z) as [Hi|Hi].
  - case_decide as Hj.
    + destruct (l !! Z.to_nat _) as [y|] eqn:E; [discriminate|].
      injection He as <-. split; [done|].
      apply lookup_ge_None in E. lia.
    + injection He as <-. split; [done|]. lia.
  - case_decide as Hj; [|lia].
    destruct (l !! Z.to_nat i) as [y|] eqn:E; [discriminate|].
    injection He as <-. split; [done|].
    apply lookup_ge_None in E. lia.
Qed.

Section StatsBounds.
Context {A : Type} `{Scalar A}.

(** X11. For an observation with [n] reco bins, [stats(idx)] raises
    [IndexError] for every index outside [-n .. n - 1], whatever else the
    observation holds. *)
Theorem stats_raises_IndexError_outside_the_bins
        (o : SpectrumObservation A) (n : nat) (idx : Z) :
  length (e_reco o) = S n -> length (data (on_vector o)) = n ->
  (idx < - Z.of_nat n \/ Z.of_nat n <= idx)%Z ->
  stats o idx = Raise IndexError.
Proof.
  intros He Hd Hout. unfold stats.
  destruct (py_index (e_reco o) idx) as [e_min|e] eqn:E1.
  2:{ by apply py_index_Raise in E1 as [-> _]. }
  rewrite bind_ret.
  destruct (py_index (e_reco o) (idx + 1)) as [e_max|e] eqn:E2.
  2:{ by apply py_index_Raise in E2 as [-> _]. }
  rewrite bind_ret.
  apply py_index_Ok in E1 as [R1 _]. apply py_index_Ok in E2 as [R2 _].
  rewrite He in R1, R2. unfold int_at.
  destruct (py_index (data (on_vector o)) idx) as [x|e] eqn:E3.
  - apply py_index_Ok in E3 as [R3 _]. rewrite Hd in R3. lia.
  - by apply py_index_Raise in E3 as [-> _].
Qed.

(** X12. When [stats(idx)] returns for an index [0 <= idx], it reports the
    counts of bin [idx] with the edges of bin [idx].  When it returns for
    a negative index, it reports the counts of bin [n + idx] but takes
    the energy range one edge higher, since the edges are one more than
    the bins: [energy_min] is the upper edge [e_reco[n + idx + 1]] of the
    counted bin, and for [idx = -1] the range runs from the last edge to
    the first. *)
Theorem stats_energy_range_at_negative_indices
        (o : SpectrumObservation A) (n : nat) (idx : Z)
        (s : SpectrumStats A) :
  length (e_reco o) = S n -> length (data (on_vector o)) = n ->
  stats o idx = Ok s ->
  let bin := Z.to_nat (if decide (idx < 0)%Z then Z.of_nat n + idx else idx)
  in
  (exists x, data (on_vector o) !! bin = Some x /\ fint x = Ok (n_on s)) /\
  ((0 <= idx)%Z ->
   energy_min s = e_reco o !! bin /\ energy_max s = e_reco o !! S bin) /\
  ((idx < 0)%Z ->
   energy_min s = e_reco o !! S bin /\
   energy_max s = e_reco o !! (if decide (idx = -1)%Z then 0 else S (S bin))).
Proof.
  intros He Hd Hs bin. unfold stats in Hs. inv_ok. subst s. cbn.
  apply py_index_Ok in E as [R1 L1]. apply py_index_Ok in E0 as [R2 L2].
  unfold int_at in E1. inv_ok.
  apply py_index_Ok in E as [R3 L3].
  rewrite He in *. rewrite Hd in *. subst bin.
  split; [eauto|]. split.
  - intros Hi. rewrite decide_False in L1, L3 |- * by lia.
    rewrite decide_False in L2 by lia.
    rewrite <- L1, <- L2. split; [done|]. do 2 f_equal. lia.
  - intros Hi. rewrite decide_True in L1, L3 |- * by lia.
    rewrite <- L1, <- L2. split; [f_equal; lia|].
    destruct (decide (idx = -1)%Z) as [->|Hn].
    + rewrite decide_False by lia. done.
    + rewrite decide_True by lia. f_equal. lia.
Qed.
End StatsBounds.

(** * The properties above on concrete observations *)

Lemma stacking_no_observations_raises_IndexError_witness :
  stack (A:=float) [] = Raise IndexError /\
  run (init (A:=float) []) = Raise IndexError.
Proof.
  destruct (stacking_no_observations_raises_IndexError
              (A:=float) (init []) eq_refl) as (H1 & H2 & _).
  split; [exact H1 | exact H2].
Defined.

Lemma stack_returns_only_on_complete_lists_witness :
  exists o,
    stack MoreExamples.pair = Ok (Some o) /\
    MoreExamples.pair <> [] /\
    forall a, a ∈ MoreExamples.pair ->
      is_Some (off_vector a) /\ is_Some (edisp a) /\
      is_Some (livetime (on_vector a)).
Proof.
  eexists.
  assert (stack MoreExamples.pair = Ok (Some ?[o])) as Hs
    by (vm_compute; reflexivity).
  destruct (stack_returns_only_on_complete_lists _ _ Hs) as (_ & Hne & Hall).
  split; [exact Hs|]. split; [exact Hne | exact Hall].
Defined.

Lemma an_observation_read_without_a_companion_cannot_be_stacked_witness :
  exists o e,
    MoreExamples.read_alone = Ok o /\
    stack [Example.obs1; o] = Raise e.
Proof.
  eexists.
  assert (MoreExamples.read_alone = Ok ?[o]) as Hr
    by (vm_compute; reflexivity).
  destruct (an_observation_read_without_a_companion_cannot_be_stacked
              ReadExample.with_arf "data" "pha_obs1.fits"
              ReadExample.on_file _ [Example.obs1; _]
              ltac:(vm_compute; reflexivity) Hr
              ltac:(left; vm_compute; reflexivity)
              ltac:(apply list_elem_of_further, list_elem_of_here))
    as [e He].
  exists e. split; [exact Hr | exact He].
Defined.

Lemma stacked_quality_flags_are_the_union_witness :
  exists o off,
    stack Example.one_flagged = Ok (Some o) /\ off_vector o = Some off /\
    length (quality (on_vector o)) = 2 /\ length (quality off) = 2 /\
    (quality (on_vector o) !! 1 = Some true <->
     exists a, a ∈ Example.one_flagged /\
               quality (on_vector a) !! 1 = Some true) /\
    (quality off !! 1 = Some true <->
     exists a v, a ∈ Example.one_flagged /\ off_vector a = Some v /\
                 quality v !! 1 = Some true).
Proof.
  apply (stacked_quality_flags_are_the_union (A:=float) 2 2 1
           (Example.obs [10; 20] [5; 5] [false; true] 0.1 100 1)%float
           [Example.obs [30; 40] [10; 10] [false; false] 0.1 200 2]%float
           (Example.pha [5; 5] [false; true] 0.1 100 1)%float).
  - lia.
  - repeat apply Forall_cons_2; [apply example_complete; reflexivity..|].
    apply Forall_nil_2.
  - reflexivity.
  - lia.
Defined.

Lemma stacked_observation_takes_the_grids_of_the_first_witness :
  exists o o0 rest off off0 e,
    stack MoreExamples.pair = Ok (Some o) /\
    MoreExamples.pair = o0 :: rest /\
    e_reco o = e_reco o0 /\ e_true o = e_true o0 /\
    off_vector o = Some off /\ off_vector o0 = Some off0 /\
    energy off = energy off0 /\
    edisp o = Some e /\
    edisp_e_true e = e_true o0 /\ edisp_e_reco e = e_reco o0 /\
    obs_obs_id o = IdList (obs_obs_id <$> MoreExamples.pair) /\
    obs_id off = IdList (obs_obs_id <$> MoreExamples.pair).
Proof.
  eexists.
  assert (stack MoreExamples.pair = Ok (Some ?[o])) as Hs
    by (vm_compute; reflexivity).
  destruct (stacked_observation_takes_the_grids_of_the_first _ _ Hs)
    as (o0 & rest & off & off0 & e & Hall).
  exists o0, rest, off, off0, e. split; [exact Hs | exact Hall].
Defined.

Lemma stacked_backscal_is_the_mean_weighted_with_off_counts_witness :
  exists o off bon boff,
    stack MoreExamples.pair = Ok (Some o) /\ off_vector o = Some off /\
    backscal (on_vector o) = Some (BackscalArray bon) /\
    backscal off = Some (BackscalArray boff) /\
    data off !! 0 = Some 15%float /\
    bon !! 0
    = Some (((0 + 0.1 * 5) + 0.1 * 10) / 15)%float.
Proof.
  destruct (stacked_backscal_is_the_mean_weighted_with_off_counts
              (A:=float) 2 2 0
              (Example.obs [10; 20] [5; 5] [false; false] 0.1 100 1)%float
              [Example.obs [30; 40] [10; 10] [false; false] 0.1 200 2]%float
              (Example.pha [5; 5] [false; false] 0.1 100 1)%float)
    as (o & off & bon & boff & Hs & Hoff & Hbon & Hboff & Hk).
  { lia. }
  { repeat apply Forall_cons_2; [apply example_complete; reflexivity..|].
    apply Forall_nil_2. }
  { reflexivity. }
  assert (data off !! 0 = Some 15%float) as Hc.
  { revert Hs Hoff. vm_compute. intros [= <-] [= <-]. reflexivity. }
  destruct (Hk 15%float Hc eq_refl) as [Hon _].
  exists o, off, bon, boff.
  split; [exact Hs|]. split; [exact Hoff|]. split; [exact Hbon|].
  split; [exact Hboff|]. split; [exact Hc|]. exact Hon.
Defined.

Lemma stacking_spectra_of_different_lengths_raises_ValueError_witness :
  stack [Example.obs1; MoreExamples.three_counts; Example.obs2]
  = Raise ValueError.
Proof.
  apply (stacking_spectra_of_different_lengths_raises_ValueError
           (A:=float) 2 3).
  - repeat split; reflexivity.
  - reflexivity.
  - lia.
  - lia.
Defined.

Lemma run_depends_on_the_observation_list_only_witness :
  exists s1,
    run (init MoreExamples.pair) = Ok s1 /\
    run MoreExamples.stale = Ok s1 /\ run s1 = Ok s1 /\
    obs_list s1 = MoreExamples.pair.
Proof.
  eexists.
  assert (run (init MoreExamples.pair) = Ok ?[s1]) as Hr
    by (vm_compute; reflexivity).
  destruct (run_depends_on_the_observation_list_only
              (init MoreExamples.pair) MoreExamples.stale _ eq_refl Hr)
    as (H1 & H2 & H3).
  split; [exact Hr|]. split; [exact H1|]. split; [exact H2 | exact H3].
Defined.

Lemma obs_returns_the_first_observation_with_the_id_witness :
  (exists k, MoreExamples.pair !! k = Some Example.obs2 /\
             obs_obs_id Example.obs2 = IdInt 2 /\
             forall j o', j < k -> MoreExamples.pair !! j = Some o' ->
                          obs_obs_id o' <> IdInt 2) /\
  list_obs MoreExamples.pair (IdInt 3) = Raise ValueError.
Proof.
  split.
  - apply (proj1 (obs_returns_the_first_observation_with_the_id
                    MoreExamples.pair (IdInt 2))).
    vm_compute. reflexivity.
  - apply (proj2 (obs_returns_the_first_observation_with_the_id
                    MoreExamples.pair (IdInt 3))).
    intros o Ho. unfold MoreExamples.pair in Ho.
    rewrite !elem_of_cons, elem_of_nil in Ho.
    destruct Ho as [-> | [-> | []]]; discriminate.
Defined.

Lemma obs_finds_each_observation_by_its_id_witness :
  list_obs MoreExamples.pair (obs_obs_id Example.obs2) = Ok Example.obs2.
Proof.
  apply obs_finds_each_observation_by_its_id.
  - cbn. repeat constructor; rewrite ?elem_of_cons, ?elem_of_nil;
      intros H; decompose [or] H; discriminate || done.
  - apply list_elem_of_further, list_elem_of_here.
Defined.

Lemma stats_raises_IndexError_outside_the_bins_witness :
  stats Example.obs1 2 = Raise IndexError /\
  stats Example.obs1 (-3) = Raise IndexError.
Proof.
  split; apply (stats_raises_IndexError_outside_the_bins _ 2);
    try reflexivity; lia.
Defined.

Lemma stats_energy_range_at_negative_indices_witness :
  exists s,
    stats Example.obs1 (-2) = Ok s /\
    (exists x, data (on_vector Example.obs1) !! 0 = Some x /\
               fint x = Ok (n_on s)) /\
    energy_min s = e_reco Example.obs1 !! 1 /\
    energy_max s = e_reco Example.obs1 !! 2.
Proof.
  eexists.
  assert (stats Example.obs1 (-2) = Ok ?[s]) as Hs
    by (vm_compute; reflexivity).
  destruct (stats_energy_range_at_negative_indices
              Example.obs1 2 (-2) _ eq_refl eq_refl Hs)
    as (Hn & _ & Hneg).
  split; [exact Hs|]. split; [exact Hn|]. apply Hneg. lia.
Defined.

(** * The upper end of a range of bins *)

Section StatsRange.
Context {A : Type} `{Scalar A}.
Variable stack_alpha : list (SpectrumStats A) -> A * A.

(** X13. [stats_in_range(bin_min, bin_max)] never returns when [bin_max]
    is the number of reco bins or more: the upper edge of the range,
    [e_reco[bin_max + 1]], does not exist.  As the bins that are summed
    end at [bin_max - 1], no call with indices counted from the front
    includes the last bin. *)
Theorem stats_in_range_raises_at_the_last_bin
        (o : SpectrumObservation A) (n : nat) (bin_min bin_max : Z) :
  length (e_reco o) = S n -> (Z.of_nat n <= bin_max)%Z ->
  exists e, stats_in_range stack_alpha o bin_min bin_max = Raise e.
Proof.
  intros He Hmax. unfold stats_in_range.
  destruct (mapM (stats o) (arange bin_min bin_max)) as [stats_list|e];
    [rewrite bind_ret | by eexists].
  destruct (stats_stack stack_alpha stats_list) as [stacked|e];
    [rewrite bind_ret | by eexists].
  destruct (py_index (e_reco o) bin_min) as [e_min|e];
    [rewrite bind_ret | by eexists].
  destruct (py_index (e_reco o) (bin_max + 1)) as [e_max|e] eqn:E;
    [|by eexists].
  apply py_index_Ok in E as [R _]. rewrite He in R. lia.
Qed.
End StatsRange.

Lemma stats_in_range_raises_at_the_last_bin_witness :
  exists e,
    stats_in_range (fun _ => (0, 0)%float) Example.obs1 0 2 = Raise e.
Proof.
  apply (stats_in_range_raises_at_the_last_bin _ _ 2).
  - reflexivity.
  - lia.
Defined.

(** * The stacked effective area *)

Section StackedAeff.
Context {A : Type} `{Scalar A}.

(** X14. On a list of complete observations the stacked effective area in
    true bin [j] is the sum of [aeff * livetime] over the observations,
    accumulated in list order, divided by the total livetime that
    [total_livetime] returns. *)
Theorem stacked_effective_area_is_the_mean_weighted_with_livetime
        (n t j : nat) (o0 : SpectrumObservation A)
        (rest : list (SpectrumObservation A)) (off0 : PHACountsSpectrum A) :
  Forall (complete_obs n t) (o0 :: rest) ->
  off_vector o0 = Some off0 -> j < t ->
  exists o total,
    stack (o0 :: rest) = Ok (Some o) /\
    total_livetime (o0 :: rest) = Ok total /\
    aeff_data (aeff o) !! j
    = Some (fdiv (loop_sum ((fun a => fmul (aeff_at a j) (livetime_or_zero a))
                            <$> o0 :: rest))
                 total).
Proof.
  intros Hl Eoff Hj.
  eexists _, _. split; [apply (stack_closed n t o0 rest off0); [lia|done..]|].
  split; [by apply (total_livetime_complete n t)|].
  cbn [aeff stacked_closed stacked_aeff_closed aeff_data].
  rewrite list_lookup_fmap. unfold total_exposure, sum_arrays.
  rewrite (foldl_zip_with_lookup fadd fzero t j _ (replicate t fzero) fzero
             (exposure_lengths n t _ Hl) (length_replicate _ _)
             (lookup_replicate_2 _ _ _ Hj)).
  cbn [fmap option_fmap option_map]. do 2 f_equal.
  unfold loop_sum. f_equal. rewrite <- list_fmap_compose.
  apply list_fmap_ext. intros i a Ha. cbn.
  unfold exposure, aeff_at. rewrite list_lookup_fmap.
  apply list_elem_of_lookup_2 in Ha. rewrite Forall_forall in Hl.
  destruct (Hl a Ha) as [_ _ _ _ [_ Hd] _].
  destruct (lookup_lt_is_Some_2 (evaluate_fill_nan (aeff a)) j) as [x Hx].
  { unfold evaluate_fill_nan. rewrite length_map. lia. }
  by rewrite Hx.
Qed.
End StackedAeff.

Lemma stacked_effective_area_is_the_mean_weighted_with_livetime_witness :
  exists o,
    stack MoreExamples.pair = Ok (Some o) /\
    total_livetime MoreExamples.pair = Ok 300%float /\
    aeff_data (aeff o) !! 1
    = Some (((0 + 2e9 * 100) + 2e9 * 200) / 300)%float.
Proof.
  destruct (stacked_effective_area_is_the_mean_weighted_with_livetime
              (A:=float) 2 2 1
              (Example.obs [10; 20] [5; 5] [false; false] 0.1 100 1)%float
              [Example.obs [30; 40] [10; 10] [false; false] 0.1 200 2]%float
              (Example.pha [5; 5] [false; false] 0.1 100 1)%float)
    as (o & total & Hs & Ht & Ha).
  { repeat apply Forall_cons_2; [apply example_complete; reflexivity..|].
    apply Forall_nil_2. }
  { reflexivity. }
  { lia. }
  assert (total = 300%float) as ->.
  { revert Ht. vm_compute. by intros [= <-]. }
  exists o. split; [exact Hs|]. split; [exact Ht | exact Ha].
Defined.

(** * Setting the id of an observation *)

Section SetObsId.
Context {A : Type} `{Scalar A}.
Import Heap.

Lemma set_attr_Ok (l : loc) (f : pha_obj A -> pha_obj A)
      (h : gmap loc (obj A)) :
  (OnHeap.set_attr l f h).1 = Ok tt ->
  exists p, h !! l = Some (OPHA p) /\
            (OnHeap.set_attr l f h).2 = <[l := OPHA (f p)]> h.
Proof.
  unfold OnHeap.set_attr, OnHeap.load_pha, bind, load, store, ret, lift.
  destruct (h !! l) as [[]|]; cbn; try discriminate. eauto.
Qed.

Lemma set_obs_id_Ok (o on a : loc) (off e : option loc) (i : PyId)
      (h : gmap loc (obj A)) :
  h !! o = Some (OObs on a off e) ->
  (OnHeapObservation.set_obs_id o i h).1 = Ok tt ->
  exists p,
    h !! on = Some (OPHA p) /\
    let h1 := <[on := OPHA (OnHeap.with_obs_id i p)]> h in
    match off with
    | None => (OnHeapObservation.set_obs_id o i h).2 = h1
    | Some r =>
        exists p', h1 !! r = Some (OPHA p') /\
                   (OnHeapObservation.set_obs_id o i h).2
                   = <[r := OPHA (OnHeap.with_obs_id i p')]> h1
    end.
Proof.
  intros Ho.
  assert (OnHeapObservation.set_obs_id o i h
          = bind (OnHeap.set_attr on (OnHeap.with_obs_id i))
                 (fun _ => match off with
                           | Some r => OnHeap.set_attr r (OnHeap.with_obs_id i)
                           | None => ret tt
                           end) h) as ->.
  { unfold OnHeapObservation.set_obs_id, OnHeap.load_obs, bind, load.
    by rewrite Ho. }
  unfold bind.
  destruct (OnHeap.set_attr on (OnHeap.with_obs_id i) h) as [[[]|ex] h1] eqn:E1;
    [|discriminate].
  assert ((OnHeap.set_attr on (OnHeap.with_obs_id i) h).1 = Ok tt) as E1'
    by (by rewrite E1).
  destruct (set_attr_Ok _ _ _ E1') as (p & Hp & Eh1).
  rewrite E1 in Eh1. cbn in Eh1. subst h1.
  intros Hs. exists p. split; [done|]. destruct off as [r|]; [|done].
  destruct (set_attr_Ok _ _ _ Hs) as (p' & Hp' & Eh'). eauto.
Qed.

(** X15. Setting the id of an observation writes it to the on vector and
    to the off vector and to nothing else: afterwards the getter returns
    the new id, both vectors carry it with their other attributes as they
    were, and every other object in the store is unchanged. *)
Theorem set_obs_id_writes_both_vectors
        (o on a : loc) (off e : option loc) (i : PyId)
        (h : gmap loc (obj A)) :
  h !! o = Some (OObs on a off e) ->
  (OnHeapObservation.set_obs_id o i h).1 = Ok tt ->
  let h' := (OnHeapObservation.set_obs_id o i h).2 in
  (OnHeapObservation.obs_id o h').1 = Ok i /\
  (exists p, h !! on = Some (OPHA p) /\
             h' !! on = Some (OPHA (OnHeap.with_obs_id i p))) /\
  (forall r, off = Some r ->
     exists p, h !! r = Some (OPHA p) /\
               h' !! r = Some (OPHA (OnHeap.with_obs_id i p))) /\
  (forall l, l <> on -> Some l <> off -> h' !! l = h !! l).
Proof.
  intros Ho Hs h'. subst h'.
  destruct (set_obs_id_Ok _ _ _ _ _ _ _ Ho Hs) as (p & Hp & Hh).
  assert (o <> on) as Hne by (intros ->; congruence).
  destruct off as [r|]; cbn zeta in Hh.
  - destruct Hh as (p' & Hp' & ->).
    assert (o <> r) as Hne'.
    { intros ->. rewrite lookup_insert_ne in Hp' by done. congruence. }
    assert (<[r:=OPHA (OnHeap.with_obs_id i p')]>
              (<[on:=OPHA (OnHeap.with_obs_id i p)]> h) !! on
            = Some (OPHA (OnHeap.with_obs_id i p))) as Hon'.
    { destruct (decide (r = on)) as [->|Hr].
      - rewrite lookup_insert_eq in Hp'. injection Hp' as <-.
        by rewrite lookup_insert_eq.
      - by rewrite lookup_insert_ne, lookup_insert_eq. }
    split; [|split; [|split]].
    + unfold OnHeapObservation.obs_id, OnHeap.load_obs, OnHeap.load_pha,
        bind, load, ret.
      rewrite !lookup_insert_ne, Ho by done. cbn. by rewrite Hon'.
    + eauto.
    + intros r' [= <-]. destruct (decide (r = on)) as [->|Hr].
      * exists p. split; [done|]. exact Hon'.
      * rewrite lookup_insert_ne in Hp' by done.
        exists p'. split; [done|]. by rewrite lookup_insert_eq.
    + intros l Hl Hl'.
      rewrite !lookup_insert_ne; [done | congruence | congruence].
  - rewrite Hh. split; [|split; [|split]].
    + unfold OnHeapObservation.obs_id, OnHeap.load_obs, OnHeap.load_pha,
        bind, load, ret.
      rewrite lookup_insert_ne, Ho by done. cbn.
      by rewrite lookup_insert_eq.
    + exists p. split; [done|]. by rewrite lookup_insert_eq.
    + intros r [=].
    + intros l Hl _. by rewrite lookup_insert_ne.
Qed.
End SetObsId.

Lemma set_obs_id_writes_both_vectors_witness :
  exists on a off e,
    HeapExample.before !! HeapExample.first = Some (OObs on a off e) /\
    let h' := (OnHeapObservation.set_obs_id HeapExample.first (IdInt 7)
                 HeapExample.before).2 in
    (OnHeapObservation.obs_id HeapExample.first h').1 = Ok (IdInt 7) /\
    (Store.read_obs HeapExample.second h').1 = Ok Example.obs2.
Proof.
  eexists _, _, _, _.
  assert (HeapExample.before !! HeapExample.first
          = Some (OObs ?[on] ?[a] ?[off] ?[e])) as Ho
    by (vm_compute; reflexivity).
  destruct (set_obs_id_writes_both_vectors
              HeapExample.first _ _ _ _ (IdInt 7) HeapExample.before Ho
              ltac:(vm_compute; reflexivity))
    as (Hget & _).
  split; [exact Ho|]. split; [exact Hget|].
  vm_compute. reflexivity.
Defined.

(** * The stacked observation shares no object with the inputs *)

Section ApartRules.
Context {A : Type} `{Scalar A}.
Import Heap.
Variable D : gset loc.
Local Abbreviation keeps_apart := (keeps_apart (A:=A) D).
Local Abbreviation outside := (outside (A:=A) D).

Lemma apart_ret {X} (x : X) (Q : X -> Prop) : Q x -> keeps_apart (ret x) Q.
Proof. intros HQ h Hh Ha. cbn. split; [done|]. split; [done|]. by intros ? [= <-]. Qed.

Lemma apart_lift {X} (r : result X) (Q : X -> Prop) :
  (forall x, r = Ok x -> Q x) -> keeps_apart (lift r) Q.
Proof. intros HQ h Hh Ha. cbn. auto. Qed.

Lemma apart_bind {X Y} (c : M X) (f : X -> M Y) (P : X -> Prop)
      (Q : Y -> Prop) :
  keeps_apart c P -> (forall x, P x -> keeps_apart (f x) Q) ->
  keeps_apart (bind c f) Q.
Proof.
  intros Hc Hf h Hh Ha. destruct (Hc h Hh Ha) as (Hd & Hk & HP).
  unfold bind. destruct (c h) as [[x|e] h'] eqn:E; cbn in *.
  - by apply Hf; [apply HP| |].
  - split; [done|]. split; [done|]. discriminate.
Qed.

Lemma apart_weaken {X} (c : M X) (P Q : X -> Prop) :
  keeps_apart c P -> (forall x, P x -> Q x) -> keeps_apart c Q.
Proof.
  intros Hc HPQ h Hh Ha. destruct (Hc h Hh Ha) as (Hd & Hk & HP). auto.
Qed.

(** A new object that refers to new objects only. *)
Lemma apart_alloc (o : obj A) :
  outside o -> keeps_apart (alloc o) (fun l => l ∉ D).
Proof.
  intros Ho h Hh Ha. unfold alloc. cbn.
  pose proof (is_fresh (dom h)) as Hf.
  split; [|split].
  - rewrite dom_insert_L. set_solver.
  - intros l o' Hl Hout. destruct (decide (l = fresh (dom h))) as [->|Hne].
    + rewrite lookup_insert_eq in Hl. by injection Hl as <-.
    + rewrite lookup_insert_ne in Hl by done. by eapply Ha.
  - intros x [= <-]. set_solver.
Qed.

(** What is read from a new object refers to new objects only. *)
Lemma apart_load (l : loc) :
  keeps_apart (load l) (fun o => l ∉ D -> outside o).
Proof.
  intros h Hh Ha. unfold load. destruct (h !! l) as [o|] eqn:E; cbn.
  - split; [done|]. split; [done|]. intros x [= <-] Hl. by eapply Ha.
  - split; [done|]. split; [done|]. discriminate.
Qed.

Lemma apart_store (l : loc) (o : obj A) :
  l ∉ D -> outside o -> keeps_apart (store l o) (fun _ => True).
Proof.
  intros Hl Ho h Hh Ha. unfold store. cbn. split; [|split; [|done]].
  - rewrite dom_insert_L. set_solver.
  - intros l' o' Hl' Hout. destruct (decide (l' = l)) as [->|Hne].
    + rewrite lookup_insert_eq in Hl'. by injection Hl' as <-.
    + rewrite lookup_insert_ne in Hl' by done. by eapply Ha.
Qed.

Lemma apart_for_each {X Y} (I : X -> Prop) (body : X -> Y -> M X)
      (l : list Y) (acc : X) :
  (forall a x, I a -> keeps_apart (body a x) I) -> I acc ->
  keeps_apart (OnHeap.for_each body l acc) I.
Proof.
  intros Hbody. revert acc. induction l as [|x l IH]; intros acc Hacc; cbn.
  - by apply apart_ret.
  - eapply apart_bind; [by apply Hbody|]. intros a Ha. by apply IH.
Qed.

Lemma outside_ndarray (d : list A) : outside (ONdarray d).
Proof. constructor. Qed.

Lemma outside_bools (q : list bool) : outside (OBools q).
Proof. constructor. Qed.

Lemma outside_matrix (m : list (list A)) : outside (OMatrix m).
Proof. constructor. Qed.
End ApartRules.

Create HintDb apart.

#[global] Hint Resolve apart_alloc apart_store outside_ndarray outside_bools
  outside_matrix : apart.

Ltac apart_auto :=
  lazymatch goal with
  | |- keeps_apart _ (Heap.ret _) _ => apply apart_ret; auto
  | |- keeps_apart _ (Heap.lift _) _ => apply apart_lift; intros; auto
  | |- keeps_apart _ (Heap.bind (match ?x with _ => _ end) _) _ =>
      destruct x; apart_auto
  | |- keeps_apart _ (Heap.bind (OnHeap.for_each _ _ _) _) _ =>
      eapply (apart_bind _ _ _ (fun _ => True));
      [ apply (apart_for_each _ (fun _ => True));
        [cbv beta; intros; apart_auto | done]
      | cbv beta; intros; apart_auto ]
  | |- keeps_apart _ (Heap.bind _ _) _ =>
      first
        [ eapply apart_bind;
          [solve [eauto with apart] | cbv beta; intros; apart_auto]
        | eapply (apart_bind _ _ _ (fun _ => True));
          [apart_auto | cbv beta; intros; apart_auto] ]
  | |- keeps_apart _ (match ?x with _ => _ end) _ => destruct x; apart_auto
  | |- keeps_apart _ _ _ =>
      first
        [ solve [eauto with apart]
        | eapply apart_weaken;
          [solve [eauto with apart] | cbv beta; intros; auto]
        | idtac ]
  end.

Section ApartStacker.
Context {A : Type} `{Scalar A}.
Import Heap.
Variable D : gset loc.
Local Abbreviation owns := (owns D).

Lemma apart_load_any (l : loc) :
  keeps_apart (A:=A) D (load l) (fun _ => True).
Proof. eapply apart_weaken; [apply apart_load | done]. Qed.

Hint Resolve apart_load_any : apart.

Lemma apart_load_array (l : loc) :
  keeps_apart (A:=A) D (OnHeap.load_array l) (fun _ => True).
Proof. unfold OnHeap.load_array. apart_auto. Qed.

Lemma apart_load_bools (l : loc) :
  keeps_apart (A:=A) D (OnHeap.load_bools l) (fun _ => True).
Proof. unfold OnHeap.load_bools. apart_auto. Qed.

Lemma apart_load_matrix (l : loc) :
  keeps_apart (A:=A) D (OnHeap.load_matrix l) (fun _ => True).
Proof. unfold OnHeap.load_matrix. apart_auto. Qed.

(** The arrays of a new spectrum object are new. *)
Lemma apart_load_pha (l : loc) :
  keeps_apart (A:=A) D (OnHeap.load_pha l)
              (fun p => l ∉ D -> outside D (OPHA p)).
Proof.
  unfold OnHeap.load_pha.
  eapply apart_bind; [apply apart_load|]. intros o Ho.
  destruct o; try (apply apart_lift; intros; discriminate).
  apply apart_ret. exact Ho.
Qed.

Lemma apart_load_pha_any (l : loc) :
  keeps_apart (A:=A) D (OnHeap.load_pha l) (fun _ => True).
Proof. eapply apart_weaken; [apply apart_load_pha | done]. Qed.

Lemma apart_load_obs (l : loc) :
  keeps_apart (A:=A) D (OnHeap.load_obs l) (fun _ => True).
Proof. unfold OnHeap.load_obs. apart_auto. Qed.

Lemma apart_load_aeff (l : loc) :
  keeps_apart (A:=A) D (OnHeap.load_aeff l) (fun _ => True).
Proof. unfold OnHeap.load_aeff. apart_auto. Qed.

Lemma apart_load_edisp (l : loc) :
  keeps_apart (A:=A) D (OnHeap.load_edisp l) (fun _ => True).
Proof. unfold OnHeap.load_edisp. apart_auto. Qed.

Hint Resolve apart_load_array apart_load_bools apart_load_matrix
  apart_load_pha_any apart_load_obs apart_load_aeff apart_load_edisp
  : apart.

Lemma apart_read_pha (l : loc) :
  keeps_apart (A:=A) D (OnHeap.read_pha l) (fun _ => True).
Proof. unfold OnHeap.read_pha. apart_auto. Qed.

Lemma apart_read_aeff (l : loc) :
  keeps_apart (A:=A) D (OnHeap.read_aeff l) (fun _ => True).
Proof. unfold OnHeap.read_aeff. apart_auto. Qed.

Lemma apart_read_edisp (l : loc) :
  keeps_apart (A:=A) D (OnHeap.read_edisp l) (fun _ => True).
Proof. unfold OnHeap.read_edisp. apart_auto. Qed.

Hint Resolve apart_read_pha apart_read_aeff apart_read_edisp : apart.

Lemma outside_pha (p : pha_obj A) :
  o_data p ∉ D -> o_energy p ∉ D -> o_quality p ∉ D ->
  (forall r, o_backscal p = Some (inr r) -> r ∉ D) ->
  outside D (OPHA p).
Proof.
  intros Hd He Hq Hb. unfold outside. cbn.
  repeat (apply Forall_cons; split; [done|]).
  destruct (o_backscal p) as [[x|r]|]; [constructor | | constructor].
  apply Forall_cons. split; [by apply Hb | constructor].
Qed.

Lemma outside_pha_inv (p : pha_obj A) :
  outside D (OPHA p) ->
  (o_data p ∉ D) /\ (o_energy p ∉ D) /\ (o_quality p ∉ D) /\
  (forall r, o_backscal p = Some (inr r) -> r ∉ D).
Proof.
  unfold outside. cbn. intros Hp.
  apply Forall_cons in Hp as [Hd Hp]. apply Forall_cons in Hp as [He Hp].
  apply Forall_cons in Hp as [Hq Hp].
  repeat split; [done..|]. intros r Hr. rewrite Hr in Hp.
  by apply Forall_cons in Hp as [? _].
Qed.

Lemma apart_new_pha (v : PHACountsSpectrum A) :
  keeps_apart (A:=A) D (OnHeap.new_pha v) (fun l => l ∉ D).
Proof.
  unfold OnHeap.new_pha.
  eapply apart_bind; [apply apart_alloc, outside_ndarray|]. intros d Hd.
  eapply apart_bind; [apply apart_alloc, outside_ndarray|]. intros e He.
  eapply apart_bind; [apply apart_alloc, outside_bools|]. intros q Hq.
  apply (apart_bind _ _ _
           (fun b => forall r, b = Some (inr r) -> r ∉ D)).
  - destruct (backscal v) as [[x|bs]|].
    + apply apart_ret. intros r [=].
    + eapply apart_bind; [apply apart_alloc, outside_ndarray|].
      intros r Hr. apply apart_ret. by intros r' [= <-].
    + apply apart_ret. intros r [=].
  - intros b Hb. apply apart_alloc. by apply outside_pha.
Qed.

Hint Resolve apart_new_pha : apart.

Lemma apart_copy_pha (l : loc) :
  keeps_apart (A:=A) D (OnHeap.copy_pha l) (fun l => l ∉ D).
Proof. unfold OnHeap.copy_pha. apart_auto. Qed.

Lemma apart_counts_in_safe_range (l : loc) :
  keeps_apart (A:=A) D (OnHeap.counts_in_safe_range l) (fun l => l ∉ D).
Proof. unfold OnHeap.counts_in_safe_range. apart_auto. Qed.

Lemma apart_backscal_array_copy (l : loc) :
  keeps_apart (A:=A) D (OnHeap.backscal_array_copy l) (fun l => l ∉ D).
Proof. unfold OnHeap.backscal_array_copy. apart_auto. Qed.

Lemma apart_binop (f : A -> A -> A) (x y : loc) :
  keeps_apart (A:=A) D (OnHeap.binop f x y) (fun l => l ∉ D).
Proof. unfold OnHeap.binop. apart_auto. Qed.

Lemma apart_logical_or (x y : loc) :
  keeps_apart (A:=A) D (OnHeap.logical_or x y) (fun l => l ∉ D).
Proof. unfold OnHeap.logical_or. apart_auto. Qed.

Lemma apart_iadd (target source : loc) :
  target ∉ D ->
  keeps_apart (A:=A) D (OnHeap.iadd target source) (fun _ => True).
Proof. intros Ht. unfold OnHeap.iadd. apart_auto. Qed.

Lemma apart_iadd2 (target source : loc) :
  target ∉ D ->
  keeps_apart (A:=A) D (OnHeap.iadd2 target source) (fun _ => True).
Proof. intros Ht. unfold OnHeap.iadd2. apart_auto. Qed.

Lemma apart_assign_where_zero (target d : loc) (v : A) :
  target ∉ D ->
  keeps_apart (A:=A) D (OnHeap.assign_where_zero target d v) (fun _ => True).
Proof. intros Ht. unfold OnHeap.assign_where_zero. apart_auto. Qed.

(** Setting an attribute of a new spectrum object to a value that refers
    to new objects only. *)
Lemma apart_set_attr (l : loc) (f : pha_obj A -> pha_obj A) :
  l ∉ D ->
  (forall p, outside D (OPHA p) -> outside D (OPHA (f p))) ->
  keeps_apart (A:=A) D (OnHeap.set_attr l f) (fun _ => True).
Proof.
  intros Hl Hf. unfold OnHeap.set_attr.
  eapply apart_bind; [apply apart_load_pha|]. intros p Hp.
  apply apart_store; [done|]. apply Hf. by apply Hp.
Qed.

Hint Resolve apart_copy_pha apart_counts_in_safe_range
  apart_backscal_array_copy apart_binop apart_logical_or
  apart_iadd apart_iadd2 apart_assign_where_zero : apart.

Lemma apart_stack_counts_spectrum (specs : list (option loc)) :
  keeps_apart (A:=A) D (OnHeap.stack_counts_spectrum specs)
              (fun l => l ∉ D).
Proof.
  unfold OnHeap.stack_counts_spectrum.
  eapply (apart_bind _ _ _ (fun _ => True)); [apart_auto|]. intros first _.
  eapply (apart_bind _ _ _ (fun _ => True)); [apart_auto|]. intros first' _.
  eapply apart_bind; [apply apart_copy_pha|]. intros template Ht.
  eapply apart_bind; [apply apart_load_pha|]. intros t Hp.
  destruct (outside_pha_inv t (Hp Ht)) as (_ & He & _).
  eapply (apart_bind _ _ _ (fun _ => True)); [apart_auto|]. intros edges _.
  eapply (apart_bind _ _ _ (fun _ => True)); [apart_auto|]. intros zeros _.
  eapply apart_bind; [apply apart_alloc, outside_ndarray|].
  intros stacked_data Hd.
  eapply apart_bind; [apply apart_alloc, outside_bools|].
  intros stacked_quality Hq.
  eapply apart_bind.
  - apply (apart_for_each _ (fun q => q ∉ D)); [|exact Hq].
    intros q spec Hq'. apart_auto.
  - intros q Hq'. apply apart_alloc. apply outside_pha; cbn; try done.
Qed.

Lemma apart_map_obs {X} (f : loc * loc * option loc * option loc -> X)
      (l : list loc) :
  keeps_apart (A:=A) D (OnHeap.map_obs f l) (fun _ => True).
Proof.
  unfold OnHeap.map_obs.
  apply (apart_for_each _ (fun _ => True)); [|done].
  intros. apart_auto.
Qed.

Lemma apart_total_livetime (l : list loc) :
  keeps_apart (A:=A) D (OnHeap.total_livetime l) (fun _ => True).
Proof. unfold OnHeap.total_livetime. apart_auto. Qed.

Lemma apart_list_obs_id (l : list loc) :
  keeps_apart (A:=A) D (OnHeap.list_obs_id l) (fun _ => True).
Proof. unfold OnHeap.list_obs_id. apart_auto. Qed.

Lemma apart_reco_edges (o : loc) :
  keeps_apart (A:=A) D (OnHeap.reco_edges o) (fun _ => True).
Proof. unfold OnHeap.reco_edges. apart_auto. Qed.

Lemma apart_true_edges (o : loc) :
  keeps_apart (A:=A) D (OnHeap.true_edges o) (fun _ => True).
Proof. unfold OnHeap.true_edges. apart_auto. Qed.

Hint Resolve apart_stack_counts_spectrum apart_map_obs
  apart_total_livetime apart_list_obs_id apart_reco_edges
  apart_true_edges : apart.

Lemma apart_stack_on_vector (s : stacker_refs) :
  keeps_apart (A:=A) D (OnHeap.stack_on_vector s)
              (fun s' => owns (r_stacked_on_vector s')).
Proof.
  unfold OnHeap.stack_on_vector. apart_auto. cbn. by intros l [= <-].
Qed.

Lemma apart_stack_off_vector (s : stacker_refs) :
  owns (r_stacked_on_vector s) ->
  keeps_apart (A:=A) D (OnHeap.stack_off_vector s)
              (fun s' => owns (r_stacked_on_vector s') /\
                         owns (r_stacked_off_vector s')).
Proof.
  intros Hon. unfold OnHeap.stack_off_vector. apart_auto.
  split; cbn; [done|]. by intros l [= <-].
Qed.

Lemma apart_stack_backscal_step (bkscal_on bkscal_off o : loc) :
  bkscal_on ∉ D -> bkscal_off ∉ D ->
  keeps_apart (A:=A) D (OnHeap.stack_backscal_step bkscal_on bkscal_off o)
              (fun _ => True).
Proof. intros Hon Hoff. unfold OnHeap.stack_backscal_step. apart_auto. Qed.

Hint Resolve apart_stack_backscal_step : apart.

Lemma apart_stack_backscal (s : stacker_refs) :
  owns (r_stacked_on_vector s) -> owns (r_stacked_off_vector s) ->
  keeps_apart (A:=A) D (OnHeap.stack_backscal s)
              (fun s' => owns (r_stacked_on_vector s') /\
                         owns (r_stacked_off_vector s') /\
                         owns (r_stacked_bkscal_on s') /\
                         owns (r_stacked_bkscal_off s')).
Proof.
  intros Hon Hoff. unfold OnHeap.stack_backscal. apart_auto.
  cbn. repeat split; try done; by intros l [= <-].
Qed.

Lemma outside_with_livetime (t : A) (p : pha_obj A) :
  outside D (OPHA p) -> outside D (OPHA (OnHeap.with_livetime t p)).
Proof. done. Qed.

Lemma outside_with_obs_id (i : PyId) (p : pha_obj A) :
  outside D (OPHA p) -> outside D (OPHA (OnHeap.with_obs_id i p)).
Proof. done. Qed.

Lemma outside_with_backscal (b : option loc) (p : pha_obj A) :
  owns b -> outside D (OPHA p) ->
  outside D (OPHA (OnHeap.with_backscal b p)).
Proof.
  intros Hb Hp. destruct (outside_pha_inv p Hp) as (Hd & He & Hq & _).
  apply outside_pha; cbn; try done.
  intros r Hr. destruct b as [r'|]; [|discriminate].
  injection Hr as <-. by apply Hb.
Qed.

Lemma apart_setup_counts_vectors (s : stacker_refs) :
  owns (r_stacked_on_vector s) -> owns (r_stacked_off_vector s) ->
  owns (r_stacked_bkscal_on s) -> owns (r_stacked_bkscal_off s) ->
  keeps_apart (A:=A) D (OnHeap.setup_counts_vectors s)
              (fun s' => owns (r_stacked_on_vector s') /\
                         owns (r_stacked_off_vector s')).
Proof.
  intros Hon Hoff Hbon Hboff. unfold OnHeap.setup_counts_vectors.
  eapply apart_bind; [apply apart_total_livetime|]. intros total _.
  apply (apart_bind _ _ _ (fun l => l ∉ D)).
  { apply apart_lift. intros l Hl. apply Hon.
    by destruct (r_stacked_on_vector s); inversion Hl. }
  intros on Hn.
  eapply apart_bind;
    [apply apart_set_attr; [done | apply outside_with_livetime]|].
  intros _ _.
  apply (apart_bind _ _ _ (fun l => l ∉ D)).
  { apply apart_lift. intros l Hl. apply Hoff.
    by destruct (r_stacked_off_vector s); inversion Hl. }
  intros off Hf.
  eapply apart_bind;
    [apply apart_set_attr; [done | apply outside_with_livetime]|].
  intros _ _.
  eapply apart_bind;
    [apply apart_set_attr; [done | intros p; by apply outside_with_backscal]|].
  intros _ _.
  eapply apart_bind;
    [apply apart_set_attr; [done | intros p; by apply outside_with_backscal]|].
  intros _ _.
  eapply apart_bind; [apply apart_list_obs_id|]. intros ids _.
  eapply apart_bind;
    [apply apart_set_attr; [done | apply outside_with_obs_id]|].
  intros _ _.
  eapply apart_bind; [apply apart_list_obs_id|]. intros ids' _.
  eapply apart_bind;
    [apply apart_set_attr; [done | apply outside_with_obs_id]|].
  intros _ _. by apply apart_ret.
Qed.

Lemma apart_stack_counts_vectors (s : stacker_refs) :
  keeps_apart (A:=A) D (OnHeap.stack_counts_vectors s)
              (fun s' => owns (r_stacked_on_vector s') /\
                         owns (r_stacked_off_vector s')).
Proof.
  unfold OnHeap.stack_counts_vectors.
  eapply apart_bind; [apply apart_stack_on_vector|]. intros s1 H1.
  eapply apart_bind; [by apply apart_stack_off_vector|]. intros s2 [? ?].
  eapply apart_bind; [by apply apart_stack_backscal|].
  intros s3 (? & ? & ? & ?).
  by apply apart_setup_counts_vectors.
Qed.

Lemma apart_aefft_current (o : loc) :
  keeps_apart (A:=A) D (OnHeap.aefft_current o) (fun l => l ∉ D).
Proof. unfold OnHeap.aefft_current. apart_auto. Qed.

Hint Resolve apart_aefft_current : apart.

Lemma outside_aeff (energy data : loc) :
  energy ∉ D -> data ∉ D -> outside D (OAeff (A:=A) energy data).
Proof. intros. by repeat constructor. Qed.

Lemma outside_edisp (e_true e_reco data : loc) :
  e_true ∉ D -> e_reco ∉ D -> data ∉ D ->
  outside D (OEdisp (A:=A) e_true e_reco data).
Proof. intros. by repeat constructor. Qed.

Hint Resolve outside_aeff outside_edisp : apart.

Lemma apart_stack_aeff (s : stacker_refs) :
  keeps_apart (A:=A) D (OnHeap.stack_aeff s)
              (fun s' => r_stacked_on_vector s' = r_stacked_on_vector s /\
                         r_stacked_off_vector s' = r_stacked_off_vector s /\
                         owns (r_stacked_aeff s')).
Proof.
  unfold OnHeap.stack_aeff. apart_auto.
  cbn. repeat split. by intros l [= <-].
Qed.

Lemma apart_stack_edisp_step (aefft aefftedisp o : loc) :
  aefft ∉ D -> aefftedisp ∉ D ->
  keeps_apart (A:=A) D (OnHeap.stack_edisp_step aefft aefftedisp o)
              (fun _ => True).
Proof. intros Ha He. unfold OnHeap.stack_edisp_step. apart_auto. Qed.

Hint Resolve apart_stack_edisp_step : apart.

Lemma apart_stack_edisp (s : stacker_refs) :
  keeps_apart (A:=A) D (OnHeap.stack_edisp s)
              (fun s' => r_stacked_on_vector s' = r_stacked_on_vector s /\
                         r_stacked_off_vector s' = r_stacked_off_vector s /\
                         r_stacked_aeff s' = r_stacked_aeff s /\
                         owns (r_stacked_edisp s')).
Proof.
  unfold OnHeap.stack_edisp. apart_auto.
  cbn. repeat split. by intros l [= <-].
Qed.

Lemma outside_obs (on a : loc) (off e : option loc) :
  on ∉ D -> a ∉ D -> owns off -> owns e ->
  outside D (OObs (A:=A) on a off e).
Proof.
  intros Hon Ha Hoff He. unfold outside. cbn.
  apply Forall_cons. split; [done|]. apply Forall_cons. split; [done|].
  apply Forall_app. split.
  - destruct off; cbn; [|constructor]. repeat constructor. by apply Hoff.
  - destruct e; cbn; [|constructor]. repeat constructor. by apply He.
Qed.

Lemma apart_stack_obs (s : stacker_refs) :
  owns (r_stacked_on_vector s) -> owns (r_stacked_off_vector s) ->
  owns (r_stacked_aeff s) -> owns (r_stacked_edisp s) ->
  keeps_apart (A:=A) D (OnHeap.stack_obs s)
              (fun s' => exists l, r_stacked_obs s' = Some l /\ l ∉ D).
Proof.
  intros Hon Hoff Ha He. unfold OnHeap.stack_obs.
  apply (apart_bind _ _ _ (fun l => l ∉ D)).
  { apply apart_lift. intros l Hl. apply Hon.
    by destruct (r_stacked_on_vector s); inversion Hl. }
  intros on Hn.
  apply (apart_bind _ _ _ (fun l => l ∉ D)).
  { apply apart_lift. intros l Hl. apply Ha.
    by destruct (r_stacked_aeff s); inversion Hl. }
  intros a Hna.
  eapply apart_bind; [apply apart_alloc; by apply outside_obs|].
  intros o Ho. apply apart_ret. cbn. eauto.
Qed.

Lemma apart_run (s : stacker_refs) :
  keeps_apart (A:=A) D (OnHeap.run s)
              (fun s' => exists l, r_stacked_obs s' = Some l /\ l ∉ D).
Proof.
  unfold OnHeap.run.
  eapply apart_bind; [apply apart_stack_counts_vectors|].
  intros s1 [Hon Hoff].
  eapply apart_bind; [apply apart_stack_aeff|].
  intros s2 (E1 & E2 & Ha).
  eapply apart_bind; [apply apart_stack_edisp|].
  intros s3 (E3 & E4 & E5 & He).
  apply apart_stack_obs; rewrite ?E3, ?E4, ?E5, ?E1, ?E2; done.
Qed.
End ApartStacker.

Section Separation.
Context {A : Type} `{Scalar A}.
Import Heap.


Lemma apart_initially (h : gmap loc (obj A)) : apart (dom h) h.
Proof. intros l o Hl Hout. apply elem_of_dom_2 in Hl. done. Qed.

Lemma run_apart (s : stacker_refs) (h : gmap loc (obj A)) :
  apart (dom h) (OnHeap.run s h).2 /\
  (forall l o, h !! l = Some o -> (OnHeap.run s h).2 !! l = Some o) /\
  (forall s', (OnHeap.run s h).1 = Ok s' ->
              exists l, r_stacked_obs s' = Some l /\ l ∉ dom h).
Proof.
  destruct (apart_run (dom h) s h) as (_ & Ha & Hs);
    [done | apply apart_initially |].
  destruct (frames_run (dom h) s h) as (_ & Hk & _); [done|].
  split; [done|]. split; [|done].
  intros l o Hl. rewrite Hk; [done|]. by eapply elem_of_dom_2.
Qed.


Lemma set_obs_id_outside (D : gset loc) (l : loc) (i : PyId)
      (h : gmap loc (obj A)) (x : loc) :
  apart D h -> l ∉ D -> x ∈ D ->
  (OnHeapObservation.set_obs_id l i h).2 !! x = h !! x.
Proof.
  intros Ha Hl Hx.
  unfold OnHeapObservation.set_obs_id, OnHeap.load_obs, OnHeap.set_attr,
    OnHeap.load_pha, bind, load, store, lift, ret.
  destruct (h !! l) as [o|] eqn:Eo; cbn; [|done].
  pose proof (Ha l o Eo Hl) as Hout.
  destruct o as [| | | | | |on a off e]; cbn; try done.
  unfold outside in Hout. cbn in Hout.
  apply Forall_cons in Hout as [Hon Hout].
  apply Forall_cons in Hout as [_ Hout].
  apply Forall_app in Hout as [Hoff _].
  assert (x <> on) as Hne by (intros ->; done).
  destruct (h !! on) as [[| | |p| | |]|] eqn:Ep; cbn; try done.
  destruct off as [r|]; cbn; [|by rewrite lookup_insert_ne].
  apply Forall_cons in Hoff as [Hr _].
  assert (x <> r) as Hne' by (intros ->; done).
  destruct (<[on:=OPHA (OnHeap.with_obs_id i p)]> h !! r)
    as [[| | |p'| | |]|] eqn:Ep'; cbn; rewrite ?lookup_insert_ne; done.
Qed.

(** X17. After a run that returned, setting the id of the stacked
    observation changes none of the objects that were in the store before
    the run: the inputs keep their ids and everything else. *)
Theorem setting_the_id_of_the_stacked_observation_leaves_the_inputs
        (s s' : stacker_refs) (h : gmap loc (obj A)) (l : loc) (i : PyId) :
  (OnHeap.run s h).1 = Ok s' -> r_stacked_obs s' = Some l ->
  forall x o,
    h !! x = Some o ->
    (OnHeapObservation.set_obs_id l i (OnHeap.run s h).2).2 !! x = Some o.
Proof.
  intros Hs El x o Hx. destruct (run_apart s h) as (Ha & Hk & Hl).
  destruct (Hl s' Hs) as (l' & El' & Hout).
  rewrite El in El'. injection El' as <-.
  rewrite (set_obs_id_outside (dom h)); [by apply Hk | done | done |].
  by eapply elem_of_dom_2.
Qed.
End Separation.


Lemma setting_the_id_of_the_stacked_observation_leaves_the_inputs_witness :
  exists s' l on a off e,
    (OnHeap.run (OnHeap.init HeapExample.refs) HeapExample.before).1
    = Ok s' /\
    r_stacked_obs s' = Some l /\
    HeapExample.before !! HeapExample.first = Some (OObs on a off e) /\
    (OnHeapObservation.set_obs_id l (IdInt 7)
       (OnHeap.run (OnHeap.init HeapExample.refs) HeapExample.before).2).2
      !! HeapExample.first = Some (OObs on a off e).
Proof.
  eexists _, _, _, _, _, _.
  assert ((OnHeap.run (OnHeap.init HeapExample.refs) HeapExample.before).1
          = Ok ?[s']) as Hs by (vm_compute; reflexivity).
  match type of Hs with
  | _ = Ok ?s => assert (r_stacked_obs s = Some ?[l]) as El by reflexivity
  end.
  assert (HeapExample.before !! HeapExample.first
          = Some (OObs ?[on] ?[a] ?[off] ?[e])) as Ho
    by (vm_compute; reflexivity).
  split; [exact Hs|]. split; [exact El|]. split; [exact Ho|].
  exact (setting_the_id_of_the_stacked_observation_leaves_the_inputs
           (OnHeap.init HeapExample.refs) _ HeapExample.before _ (IdInt 7)
           Hs El _ _ Ho).
Defined.

(** * Statistics within the thresholds *)

Lemma last_nonempty {B} (y d d' : B) (l : list B) :
  List.last (y :: l) d = List.last (y :: l) d'.
Proof.
  revert y. induction l as [|z l IH]; intros y; [done|].
  change (List.last (z :: l) d = List.last (z :: l) d'). apply IH.
Qed.

Lemma lookup_last {B} (x : B) (l : list B) :
  (x :: l) !! length l = Some (List.last (x :: l) x).
Proof.
  revert x. induction l as [|y l IH]; intros x; [done|].
  cbn [length]. rewrite lookup_cons, IH. f_equal.
  change (List.last (y :: l) y = List.last (y :: l) x).
  apply last_nonempty.
Qed.

Lemma py_index_last {B} (x : B) (l : list B) :
  py_index (x :: l) (-1) = Ok (List.last (x :: l) x).
Proof.
  unfold py_index. cbn zeta.
  destruct (decide (-1 < 0)%Z) as [_|]; [|lia].
  destruct (decide (0 <= Z.of_nat (length (x :: l)) + -1)%Z) as [_|Hn];
    [|cbn [length] in Hn; lia].
  replace (Z.to_nat (Z.of_nat (length (x :: l)) + -1)) with (length l)
    by (cbn [length]; lia).
  by rewrite lookup_last.
Qed.

Section StatsSafeRangeFacts.
Context {A : Type} `{Scalar A}.
Variable stack_alpha : list (SpectrumStats A) -> A * A.
Variable bins_in_safe_range : PHACountsSpectrum A -> list Z.

(** X18. [total_stats_safe_range] raises [IndexError] for an observation
    without a safe bin, whatever the observation holds besides; and where
    it returns with more than one safe bin, the on counts it reports are
    those of the bins from the first safe bin up to the one before the
    last safe bin: the last safe bin is left out. *)
Theorem total_stats_safe_range_leaves_out_the_last_safe_bin
        (o : SpectrumObservation A) :
  (bins_in_safe_range (on_vector o) = [] ->
   total_stats_safe_range stack_alpha bins_in_safe_range o
   = Raise IndexError) /\
  (forall first rest last st,
     bins_in_safe_range (on_vector o) = first :: rest ->
     List.last (first :: rest) first = last -> (first < last)%Z ->
     total_stats_safe_range stack_alpha bins_in_safe_range o = Ok st ->
     counts_between (data (on_vector o)) first last = Ok (n_on st) /\
     last ∉ arange first last).
Proof.
  unfold total_stats_safe_range. split.
  - by intros ->.
  - intros first rest last st Hb Hlast Hlt. rewrite Hb, py_index_0, bind_ret.
    rewrite py_index_last, Hlast.
    rewrite bind_ret. intros Hs.
    apply stats_in_range_Ok in Hs as (sl & _ & _ & Hsl & Hon & _).
    destruct (stats_list_counts _ _ _ Hsl) as (Con & _).
    split.
    + unfold counts_between. by rewrite Con, Hon.
    + rewrite elem_of_arange. lia.
Qed.
End StatsSafeRangeFacts.

Lemma total_stats_safe_range_leaves_out_the_last_safe_bin_witness :
  let alpha := fun _ : list (SpectrumStats float) => (0.1, 0.1)%float in
  total_stats_safe_range alpha (fun _ => []) Example.obs1
  = Raise IndexError /\
  exists st,
    total_stats_safe_range alpha (fun _ => [0; 1]%Z) Example.obs1 = Ok st /\
    counts_between (data (on_vector Example.obs1)) 0 1 = Ok (n_on st) /\
    n_on st = 10%Z.
Proof.
  intros alpha. split.
  - apply (proj1 (total_stats_safe_range_leaves_out_the_last_safe_bin
                    alpha (fun _ => []) Example.obs1)).
    reflexivity.
  - eexists.
    assert (total_stats_safe_range alpha (fun _ => [0; 1]%Z) Example.obs1
            = Ok ?[st]) as Hs by (vm_compute; reflexivity).
    destruct (proj2 (total_stats_safe_range_leaves_out_the_last_safe_bin
                       alpha (fun _ => [0; 1]%Z) Example.obs1)
                0%Z [1%Z] 1%Z _ eq_refl eq_refl ltac:(lia) Hs) as [Hc _].
    split; [exact Hs|]. split; [exact Hc | reflexivity].
Defined.

(** * The background of a stacked observation *)

Section StackedBackground.
Context {A : Type} `{Scalar A}.
Variable scalar_div : A -> A -> result A.

Lemma stacked_backscal_length (n : nat) (weights : list (list A))
      (stacked_off : list A) :
  Forall (fun y => length y = n) weights -> length stacked_off = n ->
  length (stacked_backscal n weights stacked_off) = n.
Proof.
  intros Hw Hn. unfold stacked_backscal, with_sentinel.
  rewrite !length_zip_with, (sum_arrays_length n _ Hw). lia.
Qed.

Lemma stacked_backscal_sentinel (n k : nat) (weights : list (list A))
      (stacked_off : list A) (c : A) :
  Forall (fun y => length y = n) weights -> length stacked_off = n ->
  stacked_off !! k = Some c -> feqb c fzero = true ->
  stacked_backscal n weights stacked_off !! k = Some fneg_one.
Proof.
  intros Hw Hn Hc Hz.
  assert (k < n) as Hk by (rewrite <- Hn; by eapply lookup_lt_Some).
  unfold stacked_backscal, with_sentinel.
  rewrite !lookup_zip_with, Hc.
  destruct (lookup_lt_is_Some_2 (sum_arrays n weights) k) as [x Hx].
  { rewrite (sum_arrays_length n _ Hw). lia. }
  rewrite Hx. cbn. by rewrite Hz.
Qed.

(** X19. For the observation stacked from a list of complete
    observations, [alpha] and [background_vector] return, [alpha] is the
    bin-wise quotient of the two stacked backscal arrays and the
    background is the stacked off counts times [alpha]; in a bin whose
    stacked off counts are zero, where both backscals are the sentinel,
    [alpha] is [(-1) / (-1)] and the background is [n_off * ((-1) / (-1))]. *)
Theorem background_of_a_stacked_observation
        (n t k : nat) (o0 : SpectrumObservation A)
        (rest : list (SpectrumObservation A)) (off0 : PHACountsSpectrum A) :
  0 < t -> Forall (complete_obs n t) (o0 :: rest) ->
  off_vector o0 = Some off0 -> k < n ->
  exists o off bon boff al bg c x y,
    stack (o0 :: rest) = Ok (Some o) /\ off_vector o = Some off /\
    backscal (on_vector o) = Some (BackscalArray bon) /\
    backscal off = Some (BackscalArray boff) /\
    alpha scalar_div o = Ok (BackscalArray al) /\
    background_vector scalar_div o = Ok bg /\
    counts_energy bg = energy off /\
    length al = n /\ length (counts_data bg) = n /\
    data off !! k = Some c /\ bon !! k = Some x /\ boff !! k = Some y /\
    al !! k = Some (fdiv x y) /\
    counts_data bg !! k = Some (fmul c (fdiv x y)) /\
    (feqb c fzero = true ->
     al !! k = Some (fdiv fneg_one fneg_one) /\
     counts_data bg !! k = Some (fmul c (fdiv fneg_one fneg_one))).
Proof.
  intros Ht Hl Eoff Hk.
  destruct (weighted_backscal_length n t _ Hl) as [Hwon Hwoff].
  pose proof (stacked_off_data_length n t off0 _ Hl) as Hn.
  pose proof (stacked_backscal_length n _ _ Hwon Hn) as Lon.
  pose proof (stacked_backscal_length n _ _ Hwoff Hn) as Loff.
  destruct (lookup_lt_is_Some_2 (data (stacked_off n off0 (o0 :: rest))) k)
    as [c Hc]; [lia|].
  set (bon := bkscal_on_closed n off0 (o0 :: rest)).
  set (boff := bkscal_off_closed n off0 (o0 :: rest)).
  assert (broadcast fdiv bon boff = Ok (zip_with fdiv bon boff)) as Ediv
    by (apply broadcast_same; unfold bon, boff, bkscal_on_closed,
          bkscal_off_closed; lia).
  assert (length (zip_with fdiv bon boff) = n) as Lal
    by (rewrite length_zip_with; unfold bon, boff, bkscal_on_closed,
          bkscal_off_closed; lia).
  assert (broadcast fmul (data (stacked_off n off0 (o0 :: rest)))
                    (zip_with fdiv bon boff)
          = Ok (zip_with fmul (data (stacked_off n off0 (o0 :: rest)))
                         (zip_with fdiv bon boff))) as Emul
    by (apply broadcast_same; lia).
  destruct (lookup_lt_is_Some_2 bon k) as [x Hx];
    [unfold bon, bkscal_on_closed; lia|].
  destruct (lookup_lt_is_Some_2 boff k) as [y Hy];
    [unfold boff, bkscal_off_closed; lia|].
  exists (stacked_closed n t o0 off0 (o0 :: rest)).
  eexists _, bon, boff, (zip_with fdiv bon boff), _, c, x, y.
  split; [by apply (stack_closed n t o0 rest off0)|].
  split; [reflexivity|]. split; [reflexivity|]. split; [reflexivity|].
  assert (alpha scalar_div (stacked_closed n t o0 off0 (o0 :: rest))
          = Ok (BackscalArray (zip_with fdiv bon boff))) as Ea.
  { unfold alpha, stacked_closed, with_attrs.
    cbn [on_vector off_vector backscal attr fmap option_fmap option_map].
    rewrite bind_ret. unfold backscal_div. fold bon boff.
    cbn [backscal]. by rewrite Ediv. }
  split; [exact Ea|].
  split.
  { unfold background_vector. rewrite Ea.
    unfold stacked_closed at 1, with_attrs.
    cbn [off_vector attr]. rewrite !bind_ret. cbn [data energy].
    rewrite Emul.
    reflexivity. }
  cbn [counts_energy counts_data].
  split; [reflexivity|]. split; [exact Lal|].
  split; [rewrite length_zip_with; lia|].
  split; [exact Hc|]. split; [exact Hx|]. split; [exact Hy|].
  rewrite !lookup_zip_with, Hc, Hx, Hy. cbn.
  split; [done|]. split; [done|].
  intros Hz.
  unfold bon, bkscal_on_closed in Hx.
  rewrite (stacked_backscal_sentinel n k _ _ c Hwon Hn Hc Hz) in Hx.
  unfold boff, bkscal_off_closed in Hy.
  rewrite (stacked_backscal_sentinel n k _ _ c Hwoff Hn Hc Hz) in Hy.
  injection Hx as <-. injection Hy as <-. done.
Qed.
End StackedBackground.

Lemma background_of_a_stacked_observation_witness :
  exists o al bg,
    stack Example.no_off_counts = Ok (Some o) /\
    alpha (fun x y => Ok (x / y)%float) o = Ok (BackscalArray al) /\
    background_vector (fun x y => Ok (x / y)%float) o = Ok bg /\
    al !! 0 = Some 1%float /\ counts_data bg !! 0 = Some 0%float.
Proof.
  destruct (background_of_a_stacked_observation
              (A:=float) (fun x y => Ok (x / y)%float) 2 2 0
              (Example.obs [10; 20] [0; 5] [false; false] 0.1 100 1)%float
              [Example.obs [30; 40] [0; 10] [false; false] 0.1 200 2]%float
              (Example.pha [0; 5] [false; false] 0.1 100 1)%float)
    as (o & off & bon & boff & al & bg & c & x & y & Hs & Hoff & _ & _
        & Ha & Hb & _ & _ & _ & Hc & _ & _ & _ & _ & Hz).
  { lia. }
  { repeat apply Forall_cons_2; [apply example_complete; reflexivity..|].
    apply Forall_nil_2. }
  { reflexivity. }
  { lia. }
  assert (c = 0%float) as ->.
  { revert Hs Hoff Hc. vm_compute. intros [= <-] [= <-] [= <-]. reflexivity. }
  destruct (Hz eq_refl) as [Hal Hbg].
  exists o, al, bg.
  split; [exact Hs|]. split; [exact Ha|]. split; [exact Hb|].
  split; [exact Hal | exact Hbg].
Defined.
